(** * Agentic-Coding-Engine: the VS Code client and the workflow engine contract

    A shallow embedding of the TypeScript client of the repository
    ([BackendClient.ts], [SidebarProvider.ts]) and of the workflow engine it
    talks to.  The client is translated from its source.  The engine, the
    session manager and the checkpoint store are Python code that is not part
    of the TypeScript sources; they are modelled from the design document and
    every such definition says so in its comment. *)

From Stdlib Require Import String Ascii List Bool Arith Lia.
From stdpp Require Import base strings list gmap.
From stdpp Require Import pretty.
Import ListNotations.
Local Open Scope string_scope.
Local Open Scope list_scope.

(** ** JavaScript values and helpers *)

Module Js.

(** A JSON payload carried through unchanged ([data: any] in the source). *)
#[local] Unset Elimination Schemes.
Inductive JsValue : Type :=
| JsUndefined
| JsNull
| JsBool (b : bool)
| JsNum (n : Z)
| JsStr (s : string)
| JsArr (items : list JsValue)
| JsObj (fields : list (string * JsValue)).
#[local] Set Elimination Schemes.

(** [Error] objects: only their [message] is ever read. *)
Record JsError : Type := mkError { err_message : string }.

(** [new Error(v)]: an absent argument leaves the inherited empty message. *)
Definition new_Error (v : option string) : JsError :=
  mkError (match v with Some s => s | None => "" end).

(** [v || dflt] for a possibly undefined string: [undefined] and [''] are
    falsy. *)
Definition or_default (v : option string) (dflt : string) : string :=
  match v with
  | None => dflt
  | Some "" => dflt
  | Some s => s
  end.

(** [strip_prefix p s] is the rest of [s] after a leading [p], if [s]
    starts with [p]. *)
Fixpoint strip_prefix (p s : string) : option string :=
  match p, s with
  | EmptyString, _ => Some s
  | String a p', String b s' =>
      if Ascii.eqb a b then strip_prefix p' s' else None
  | String _ _, EmptyString => None
  end.

(** [s.replace(/^http/, 'ws')]: the anchored pattern matches at offset 0
    only, case sensitively, and the replacement has no [$] pattern. *)
Definition replace_leading_http (s : string) : string :=
  match strip_prefix "http" s with
  | Some rest => ("ws" ++ rest)%string
  | None => s
  end.

(** White space removed by [String.prototype.trim]: the code points of the
    [WhiteSpace] and [LineTerminator] productions of ECMAScript.  Strings
    are byte strings here, holding text in UTF-8, so a code point is one,
    two or three bytes.  One byte: TAB, LF, VT, FF, CR and SPACE. *)
Definition is_space (c : ascii) : bool :=
  let n := nat_of_ascii c in
  ((9 <=? n)%nat && (n <=? 13)%nat) || (n =? 32)%nat.

(** Two bytes: U+00A0 (no-break space), [C2 A0]. *)
Definition is_space2 (a b : ascii) : bool :=
  (nat_of_ascii a =? 194)%nat && (nat_of_ascii b =? 160)%nat.

(** Three bytes: U+1680 [E1 9A 80]; U+2000 to U+200A [E2 80 80] to
    [E2 80 8A]; U+2028 and U+2029 [E2 80 A8], [E2 80 A9]; U+202F
    [E2 80 AF]; U+205F [E2 81 9F]; U+3000 [E3 80 80]; U+FEFF
    [EF BB BF]. *)
Definition is_space3 (a b c : ascii) : bool :=
  let x := nat_of_ascii a in
  let y := nat_of_ascii b in
  let z := nat_of_ascii c in
  ((x =? 225)%nat && (y =? 154)%nat && (z =? 128)%nat)
  || ((x =? 226)%nat && (y =? 128)%nat
      && (((128 <=? z)%nat && (z <=? 138)%nat)
          || (z =? 168)%nat || (z =? 169)%nat || (z =? 175)%nat))
  || ((x =? 226)%nat && (y =? 129)%nat && (z =? 159)%nat)
  || ((x =? 227)%nat && (y =? 128)%nat && (z =? 128)%nat)
  || ((x =? 239)%nat && (y =? 187)%nat && (z =? 191)%nat).

(** [leading_space s] is the rest of [s] after the white-space code point
    it starts with, if it starts with one. *)
Definition leading_space (s : string) : option string :=
  match s with
  | String a r1 =>
      if is_space a then Some r1
      else
        match r1 with
        | String b r2 =>
            if is_space2 a b then Some r2
            else
              match r2 with
              | String c r3 => if is_space3 a b c then Some r3 else None
              | EmptyString => None
              end
        | EmptyString => None
        end
  | EmptyString => None
  end.

(** [trimStart]: white-space code points are dropped from the start as
    long as there is one. *)
Fixpoint trim_start (s : string) : string :=
  match s with
  | String a r1 =>
      if is_space a then trim_start r1
      else
        match r1 with
        | String b r2 =>
            if is_space2 a b then trim_start r2
            else
              match r2 with
              | String c r3 => if is_space3 a b c then trim_start r3 else s
              | EmptyString => s
              end
        | EmptyString => s
        end
  | EmptyString => EmptyString
  end.

(** [trimEnd]: the string is cut at the first point from which only white
    space follows, that is, where [trim_start] of what follows leaves
    nothing. *)
Fixpoint trim_end (s : string) : string :=
  match s with
  | EmptyString => EmptyString
  | String c rest =>
      match trim_start s with
      | EmptyString => EmptyString
      | _ => String c (trim_end rest)
      end
  end.

Definition trim (s : string) : string := trim_end (trim_start s).

End Js.
Import Js.

(** ** What the extension host can observe and change *)

Module Host.

(** Body of a POST: the object literal, field by field, in source order. *)
Definition Body := list (string * string).

Inductive Method := GET | POST.

Record HttpRequest := mkRequest {
  req_method : Method;
  req_path : string;
  req_body : Body
}.

(** [interface WorkflowSession] of BackendClient.ts. *)
Record WorkflowSession := mkSession {
  session_id : string;
  session_status : string;
  session_message : string
}.

(** What axios gives back: a 2xx response with its [data], or a rejection
    (non-2xx status, time-out after 30000 ms, network failure). *)
Inductive HttpReply :=
| Response (data : WorkflowSession)
| Rejected_request (e : JsError).

(** A message of the push channel after [JSON.parse].  [msg_type] is [None]
    when the parsed value has no string-valued [type]; [msg_message] is
    [None] when it has no [message] (the backend sends a string there);
    the other fields are passed on as they come. *)
Record WsMessage := mkMessage {
  msg_type : option string;
  msg_message : option string;
  current_step : JsValue;
  plan : JsValue;
  active_agent : JsValue;
  generated_files : JsValue
}.

(** The text of a frame: not JSON at all, the JSON literal [null] (reading
    [.type] of it throws), or any other JSON value. *)
Inductive WsData :=
| Unparsable
| JsonNull
| Json (m : WsMessage).

(** Events the [ws] socket delivers to its listeners. *)
Inductive WsEvent :=
| Ev_open
| Ev_message (data : WsData)
| Ev_error (e : JsError)
| Ev_close.

(** What becomes of [new WebSocket(url)]: the constructor throws (the [ws]
    package does so for a URL it cannot use), or the socket exists and
    delivers events. *)
Inductive Socket :=
| Constructor_throws (e : JsError)
| Delivers (events : list WsEvent).

(** Messages posted to the webview with [webview.postMessage]. *)
Inductive ViewMessage :=
| addMessage (role content : string)
| setThinking (thinking : bool)
| error (message : string)
| stepUpdate (step plan agent : JsValue)
| reviewRequired (plan files : JsValue)
| workflowComplete (files : JsValue).

(** A webview view, seen as the messages posted to it so far (oldest
    first). *)
Record WebviewView := mkView { posted : list ViewMessage }.

Record WorkspaceFolder := mkFolder { fsPath : string }.

(** The state the two classes read and write:
    - the fields of the [SidebarProvider] instance,
    - [vscode.workspace.workspaceFolders],
    - the network: requests sent so far and the replies the backend will
      give to the next ones; URLs of the sockets asked for so far and, for
      each socket to come, the events delivered on it until the code
      awaiting it resumes,
    - the number of exceptions that escaped an event listener. *)
Record World := mkWorld {
  _view : option WebviewView;
  currentSessionId : option string;
  workspaceFolders : option (list WorkspaceFolder);
  http_log : list HttpRequest;
  http_replies : list HttpReply;
  sockets : list string;
  ws_streams : list Socket;
  uncaught : nat
}.

Definition set_view (v : option WebviewView) (w : World) : World :=
  mkWorld v (currentSessionId w) (workspaceFolders w) (http_log w)
          (http_replies w) (sockets w) (ws_streams w) (uncaught w).

Definition set_currentSessionId (s : option string) (w : World) : World :=
  mkWorld (_view w) s (workspaceFolders w) (http_log w)
          (http_replies w) (sockets w) (ws_streams w) (uncaught w).

Definition set_http (log : list HttpRequest) (replies : list HttpReply)
    (w : World) : World :=
  mkWorld (_view w) (currentSessionId w) (workspaceFolders w) log
          replies (sockets w) (ws_streams w) (uncaught w).

Definition set_ws (socks : list string) (streams : list Socket)
    (w : World) : World :=
  mkWorld (_view w) (currentSessionId w) (workspaceFolders w) (http_log w)
          (http_replies w) socks streams (uncaught w).

Definition add_uncaught (w : World) : World :=
  mkWorld (_view w) (currentSessionId w) (workspaceFolders w) (http_log w)
          (http_replies w) (sockets w) (ws_streams w) (S (uncaught w)).

(** How an [async] function ends: it returns, it throws, or it stays
    suspended on a promise that is never settled. *)
Inductive Outcome (A : Type) :=
| Returned (a : A)
| Thrown (e : JsError)
| Suspended.
Arguments Returned {A} a.
Arguments Thrown {A} e.
Arguments Suspended {A}.

Definition Async (A : Type) := World -> Outcome A * World.

Definition ret {A} (a : A) : Async A := fun w => (Returned a, w).

Definition throw {A} (e : JsError) : Async A := fun w => (Thrown e, w).

Definition bind {A B} (m : Async A) (k : A -> Async B) : Async B :=
  fun w =>
    match m w with
    | (Returned a, w') => k a w'
    | (Thrown e, w') => (Thrown e, w')
    | (Suspended, w') => (Suspended, w')
    end.

(** [try { body } catch (error) { handler }] *)
Definition try_catch {A} (body : Async A) (handler : JsError -> Async A)
    : Async A :=
  fun w =>
    match body w with
    | (Thrown e, w') => handler e w'
    | other => other
    end.

Definition get_world : Async World := fun w => (Returned w, w).

Definition modify (f : World -> World) : Async unit :=
  fun w => (Returned tt, f w).

End Host.
Import Host.

Notation "'let*' x ':=' m 'in' k" := (bind m (fun x => k))
  (at level 10, x name, m at level 100, k at level 200).
Notation "m ';;' k" := (bind m (fun _ => k))
  (at level 100, k at level 200, right associativity).

(** ** BackendClient.ts *)

Module BackendClient.

(** The repository holds two revisions of the class.  They differ in console
    logging, in [try]/[catch] blocks that rethrow, and in one place that
    matters: the second revision guards [JSON.parse] and the [switch] of the
    message listener with a [try]/[catch] that only logs.  [getStatus] is
    called nowhere in the extension and is left out. *)
Inductive Revision := Plain | Logging.

Record t := mk { baseUrl : string; revision : Revision }.

(** [await this.api.post(path, body)].  With no reply the axios instance
    rejects when its 30000 ms time-out expires. *)
Definition post (path : string) (body : Body) : Async WorkflowSession :=
  fun w =>
    let w' := set_http (http_log w ++ [mkRequest POST path body])
                       (tail (http_replies w)) w in
    match http_replies w with
    | Response data :: _ => (Returned data, w')
    | Rejected_request e :: _ => (Thrown e, w')
    | [] => (Thrown (mkError "timeout of 30000ms exceeded"), w')
    end.

Definition startWorkflow (c : t) (request projectPath : string)
    : Async WorkflowSession :=
  let call :=
    let* response :=
      post "/workflow/start"
           [("request", request); ("project_path", projectPath)] in
    ret response in
  match revision c with
  | Plain => call
  | Logging => try_catch call (fun error => throw error)
  end.

Definition submitReview (c : t) (sessionId feedback action : string)
    : Async unit :=
  let call :=
    post "/workflow/review"
         [("session_id", sessionId); ("feedback", feedback);
          ("action", action)] ;;
    ret tt in
  match revision c with
  | Plain => call
  | Logging => try_catch call (fun error => throw error)
  end.

(** The argument of [onError]: the parsed message of type [error], or the
    [Error] of the socket. *)
Inductive ErrorArg :=
| Err_message (m : WsMessage)
| Err_object (e : JsError).

(** [error.message] on either. *)
Definition arg_message (a : ErrorArg) : option string :=
  match a with
  | Err_message m => msg_message m
  | Err_object e => Some (err_message e)
  end.

(** [interface WebSocketCallbacks]: every callback is optional and acts on
    the state of its caller. *)
Record WebSocketCallbacks := mkCallbacks {
  onStepUpdate : option (WsMessage -> World -> World);
  onReviewRequired : option (WsMessage -> World -> World);
  onComplete : option (WsMessage -> World -> World);
  onError : option (ErrorArg -> World -> World)
}.

Inductive PromiseState :=
| Pending
| Resolved
| Rejected (e : JsError).

(** A callback invocation, kept as a trace. *)
Inductive Invocation :=
| Called_onStepUpdate (m : WsMessage)
| Called_onReviewRequired (m : WsMessage)
| Called_onComplete (m : WsMessage)
| Called_onError (a : ErrorArg).

(** One call of [connectWebSocket]: the promise it returned, how often
    [ws.close()] was called, and the callbacks invoked so far. *)
Record Connection := mkConnection {
  promise : PromiseState;
  close_calls : nat;
  invoked : list Invocation
}.

Definition fresh_connection : Connection := mkConnection Pending 0 [].

(** [resolve()] and [reject(e)] act on a pending promise only. *)
Definition settle (p : PromiseState) (c : Connection) : Connection :=
  match promise c with
  | Pending => mkConnection p (close_calls c) (invoked c)
  | _ => c
  end.

Definition ws_close (c : Connection) : Connection :=
  mkConnection (promise c) (S (close_calls c)) (invoked c).

(** [callbacks.cb?.(arg)] *)
Definition invoke {A} (cb : option (A -> World -> World)) (arg : A)
    (label : Invocation) (st : Connection * World) : Connection * World :=
  match cb with
  | Some f =>
      (mkConnection (promise (fst st)) (close_calls (fst st))
                    (invoked (fst st) ++ [label]),
       f arg (snd st))
  | None => st
  end.

Definition on_fst {A B} (f : A -> A) (st : A * B) : A * B :=
  (f (fst st), snd st).

(** The [switch (message.type)] of the ['message'] listener. *)
Definition dispatch (cbs : WebSocketCallbacks) (message : WsMessage)
    (st : Connection * World) : Connection * World :=
  match msg_type message with
  | None => st
  | Some ty =>
      if String.eqb ty "step_update" then
        invoke (onStepUpdate cbs) message (Called_onStepUpdate message) st
      else if String.eqb ty "review_required" then
        on_fst (settle Resolved)
          (on_fst ws_close
             (invoke (onReviewRequired cbs) message
                     (Called_onReviewRequired message) st))
      else if String.eqb ty "workflow_complete" then
        on_fst (settle Resolved)
          (on_fst ws_close
             (invoke (onComplete cbs) message (Called_onComplete message) st))
      else if String.eqb ty "error" then
        on_fst (settle (Rejected (new_Error (msg_message message))))
          (on_fst ws_close
             (invoke (onError cbs) (Err_message message)
                     (Called_onError (Err_message message)) st))
      else st
  end.

(** [ws.on('message', ...)].  [JSON.parse] throws on text that is not JSON
    and [message.type] throws on [null]; the first revision lets the
    exception leave the listener, the second catches and logs it. *)
Definition on_message (rev : Revision) (cbs : WebSocketCallbacks)
    (data : WsData) (st : Connection * World) : Connection * World :=
  match data with
  | Json message => dispatch cbs message st
  | Unparsable | JsonNull =>
      match rev with
      | Plain => (fst st, add_uncaught (snd st))
      | Logging => st
      end
  end.

(** [ws.on('error', ...)] *)
Definition on_error (cbs : WebSocketCallbacks) (e : JsError)
    (st : Connection * World) : Connection * World :=
  on_fst (settle (Rejected e))
    (invoke (onError cbs) (Err_object e) (Called_onError (Err_object e)) st).

(** The ['open'] and ['close'] listeners only log. *)
Definition on_event (rev : Revision) (cbs : WebSocketCallbacks)
    (ev : WsEvent) (st : Connection * World) : Connection * World :=
  match ev with
  | Ev_open => st
  | Ev_message data => on_message rev cbs data st
  | Ev_error e => on_error cbs e st
  | Ev_close => st
  end.

(** The listeners run on the events the socket hands them, in order.  The
    list is what reaches the listeners in one run; what the [ws] package
    still hands over once an exception has left a listener is its business
    and decides which lists a run can have. *)
Definition deliver (rev : Revision) (cbs : WebSocketCallbacks)
    (events : list WsEvent) (st : Connection * World) : Connection * World :=
  fold_left (fun st ev => on_event rev cbs ev st) events st.

Definition wsUrl (c : t) (sessionId : string) : string :=
  (replace_leading_http (baseUrl c) ++ "/ws/" ++ sessionId)%string.

(** [new WebSocket(url)]: the URL is asked for and the next socket of the
    environment is taken. *)
Definition new_WebSocket (c : t) (sessionId : string) (w : World) : World :=
  set_ws (sockets w ++ [wsUrl c sessionId]) (tail (ws_streams w)) w.

(** The executor of the promise up to the point where the awaiting code
    resumes.  An exception thrown by the constructor inside the executor
    rejects the promise. *)
Definition open_socket (c : t) (sessionId : string)
    (callbacks : WebSocketCallbacks) (w : World) : Connection * World :=
  let w1 := new_WebSocket c sessionId w in
  match ws_streams w with
  | Constructor_throws e :: _ => (settle (Rejected e) fresh_connection, w1)
  | Delivers events :: _ =>
      deliver (revision c) callbacks events (fresh_connection, w1)
  | [] => (fresh_connection, w1)
  end.

Definition await (p : PromiseState) : Async unit :=
  match p with
  | Pending => fun w => (Suspended, w)
  | Resolved => ret tt
  | Rejected e => throw e
  end.

Definition connectWebSocket (c : t) (sessionId : string)
    (callbacks : WebSocketCallbacks) : Async unit :=
  fun w =>
    let st := open_socket c sessionId callbacks w in
    await (promise (fst st)) (snd st).

End BackendClient.

(** ** SidebarProvider.ts *)

Module SidebarProvider.

(** [action: 'approve' | 'revise'] *)
Inductive Action := approve | revise.

Definition action_text (a : Action) : string :=
  match a with
  | approve => "approve"
  | revise => "revise"
  end.

(** Messages the webview script sends to the extension. *)
Inductive WebviewMessage :=
| sendMessage (message : string)
| submitReview (feedback : string) (action : Action)
| openFile (filePath : string).

Definition approved_text : string := "‚úÖ Work approved! Workflow complete.".

Definition revising_text : string := "üîÑ Creating new plan based on your feedback...".

(** [this._view?.webview.postMessage(m)] *)
Definition post_if_view (m : ViewMessage) (w : World) : World :=
  match _view w with
  | Some v => set_view (Some (mkView (posted v ++ [m]))) w
  | None => w
  end.

(** [this._view.webview.postMessage(m)]: a [TypeError] without a view. *)
Definition postMessage (m : ViewMessage) : Async unit :=
  fun w =>
    match _view w with
    | Some v => (Returned tt, set_view (Some (mkView (posted v ++ [m]))) w)
    | None =>
        (Thrown (mkError "Cannot read properties of undefined (reading 'webview')"), w)
    end.

(** [!this.currentSessionId]: [undefined] and [''] are falsy. *)
Definition session_of (w : World) : option string :=
  match currentSessionId w with
  | Some "" => None
  | other => other
  end.

(** [vscode.workspace.workspaceFolders?.[0]] *)
Definition first_folder (w : World) : option WorkspaceFolder :=
  match workspaceFolders w with
  | Some (folder :: _) => Some folder
  | _ => None
  end.

(** The four callbacks [connectToWorkflow] hands to [connectWebSocket]. *)
Definition callbacks : BackendClient.WebSocketCallbacks :=
  BackendClient.mkCallbacks
    (Some (fun data w =>
       post_if_view
         (stepUpdate (current_step data) (plan data) (active_agent data)) w))
    (Some (fun data w =>
       post_if_view (setThinking false)
         (post_if_view (reviewRequired (plan data) (generated_files data)) w)))
    (Some (fun data w =>
       post_if_view (setThinking false)
         (post_if_view (workflowComplete (generated_files data)) w)))
    (Some (fun err w =>
       post_if_view (setThinking false)
         (post_if_view
            (error (or_default (BackendClient.arg_message err)
                               "An error occurred")) w))).

Section Provider.

Variable backendClient : BackendClient.t.

(** [resolveWebviewView]: the provider keeps the view it is given; nothing
    has been posted to a view just created. *)
Definition resolveWebviewView (w : World) : World :=
  set_view (Some (mkView [])) w.

Definition connectToWorkflow : Async unit :=
  let* w := get_world in
  match session_of w, _view w with
  | Some sessionId, Some _ =>
      try_catch
        (BackendClient.connectWebSocket backendClient sessionId callbacks)
        (fun e =>
           modify (post_if_view
                     (error ("Connection error: " ++ err_message e)%string)) ;;
           modify (post_if_view (setThinking false)))
  | _, _ => ret tt
  end.

Definition handleUserMessage (message : string) : Async unit :=
  let* w := get_world in
  match _view w with
  | None => ret tt
  | Some _ =>
      postMessage (addMessage "user" message) ;;
      postMessage (setThinking true) ;;
      try_catch
        (let* w1 := get_world in
         match first_folder w1 with
         | None => throw (mkError "Please open a workspace folder first")
         | Some workspaceFolder =>
             let* session :=
               BackendClient.startWorkflow backendClient message
                 (fsPath workspaceFolder) in
             modify (set_currentSessionId (Some (session_id session))) ;;
             connectToWorkflow
         end)
        (fun e =>
           postMessage
             (error (or_default (Some (err_message e))
                                "Failed to start workflow")) ;;
           postMessage (setThinking false))
  end.

Definition handleReviewSubmission (feedback : string) (action : Action)
    : Async unit :=
  let* w := get_world in
  match session_of w, _view w with
  | Some sessionId, Some _ =>
      try_catch
        (BackendClient.submitReview backendClient sessionId feedback
           (action_text action) ;;
         match action with
         | approve =>
             postMessage (addMessage "assistant" approved_text) ;;
             postMessage (setThinking false)
         | revise =>
             postMessage (addMessage "assistant" revising_text) ;;
             postMessage (setThinking true) ;;
             connectToWorkflow
         end)
        (fun e =>
           postMessage
             (error (or_default (Some (err_message e))
                                "Failed to submit review")) ;;
           postMessage (setThinking false))
  | _, _ => ret tt
  end.

(** The listener registered with [webview.onDidReceiveMessage].  Opening a
    file changes nothing of the state kept here. *)
Definition onDidReceiveMessage (data : WebviewMessage) : Async unit :=
  match data with
  | sendMessage message => handleUserMessage message
  | submitReview feedback action => handleReviewSubmission feedback action
  | openFile _ => ret tt
  end.

End Provider.

(** The webview script (the [<script>] of [_getHtmlForWebview]). *)
Module Script.

(** [function submitReview(action)]: the message posted for the text of the
    [reviewFeedback] box. *)
Definition submitReview (reviewFeedback : string) (action : Action)
    : WebviewMessage :=
  SidebarProvider.submitReview (trim reviewFeedback) action.

(** [function sendMessage()]: nothing is posted for a blank input or while
    the assistant is thinking. *)
Definition sendMessage (messageInput : string) (isThinking : bool)
    : option WebviewMessage :=
  let message := trim messageInput in
  match message with
  | "" => None
  | _ => if isThinking then None else Some (SidebarProvider.sendMessage message)
  end.

End Script.

End SidebarProvider.

(** ** The workflow engine, the checkpoint store and the session manager

    The backend is not TypeScript and its sources are not at hand;
    everything in this module follows the design document (sections 3 to 7)
    sentence by sentence. *)

Module Engine.

(** Modelled from the spec: the status enumeration of WorkflowState (the
    backend state class is missing). *)
Inductive Status := RUNNING | PAUSED | COMPLETED | FAILED | TIMED_OUT.

(** Modelled from the spec: the closed set of stages of the design notes,
    [{Entry, Plan, Generate, Debug, Review}] (the stage registry of the
    backend is missing). *)
Inductive Stage := Entry | Plan | Generate | Debug | Review.

(** Modelled from the spec: a step of the plan, "each with an instruction
    and a completion flag". *)
Record Step := mkStep { instruction : string; completed : bool }.

(** Modelled from the spec: a "role-tagged message" of the conversation
    history. *)
Record Message := mkMsg { role : string; content : string }.

(** Modelled from the spec: WorkflowState, "the single object threaded
    through all stages", attribute by attribute (the backend state class is
    missing). *)
Record WorkflowState := mkState {
  thread_id : string;
  user_request : string;
  plan : list Step;
  generated_files : gmap string string;
  conversation_history : list Message;
  active_stage : Stage;
  step_index : nat;
  needs_review : bool;
  review_feedback : option string;
  status : Status;
  node_execution_count : nat;
  started_at : nat
}.

(** Modelled from the spec: field updates of WorkflowState, one for each
    attribute the engine writes. *)
Definition with_history (h : list Message) (s : WorkflowState) :=
  mkState (thread_id s) (user_request s) (plan s) (generated_files s) h
    (active_stage s) (step_index s) (needs_review s) (review_feedback s)
    (status s) (node_execution_count s) (started_at s).

Definition with_active_stage (a : Stage) (s : WorkflowState) :=
  mkState (thread_id s) (user_request s) (plan s) (generated_files s)
    (conversation_history s) a (step_index s) (needs_review s)
    (review_feedback s) (status s) (node_execution_count s) (started_at s).

Definition with_needs_review (b : bool) (s : WorkflowState) :=
  mkState (thread_id s) (user_request s) (plan s) (generated_files s)
    (conversation_history s) (active_stage s) (step_index s) b
    (review_feedback s) (status s) (node_execution_count s) (started_at s).

Definition with_review_feedback (f : option string) (s : WorkflowState) :=
  mkState (thread_id s) (user_request s) (plan s) (generated_files s)
    (conversation_history s) (active_stage s) (step_index s) (needs_review s)
    f (status s) (node_execution_count s) (started_at s).

Definition with_status (st : Status) (s : WorkflowState) :=
  mkState (thread_id s) (user_request s) (plan s) (generated_files s)
    (conversation_history s) (active_stage s) (step_index s) (needs_review s)
    (review_feedback s) st (node_execution_count s) (started_at s).

Definition with_count (n : nat) (s : WorkflowState) :=
  mkState (thread_id s) (user_request s) (plan s) (generated_files s)
    (conversation_history s) (active_stage s) (step_index s) (needs_review s)
    (review_feedback s) (status s) n (started_at s).

(** Modelled from the spec: the routing decision of the stage capability
    interface, [NEXT(stageName) | INTERRUPT | DONE(success|failure)]. *)
Inductive Routing :=
| NEXT (stage : Stage)
| INTERRUPT
| DONE (success : bool).

(** Modelled from the spec: a checkpoint, "an immutable snapshot of
    WorkflowState plus a monotonically increasing sequence_number and the
    thread_id". *)
Record Checkpoint := mkCheckpoint {
  cp_thread : string;
  sequence_number : nat;
  snapshot : WorkflowState
}.

(** Modelled from the spec: the checkpoint store contract, [history]
    ("ordered sequence of Checkpoint, oldest first"), [append] and [latest],
    over an append-only log per thread (the volatile backend; the
    persistence code is missing). *)
Definition history (thread : string) (store : gmap string (list Checkpoint))
    : list Checkpoint :=
  default [] (store !! thread).

Definition append (thread : string) (s : WorkflowState)
    (store : gmap string (list Checkpoint))
    : nat * gmap string (list Checkpoint) :=
  let seq := S (List.length (history thread store)) in
  (seq, <[thread := history thread store ++ [mkCheckpoint thread seq s]]> store).

Definition latest (thread : string) (store : gmap string (list Checkpoint))
    : option Checkpoint :=
  last (history thread store).

(** Modelled from the spec: the typed events of the push channel,
    [{step_update | review_required | workflow_complete | error}] (the
    emitting code is missing). *)
Inductive Event :=
| step_update (s : WorkflowState)
| review_required (s : WorkflowState)
| workflow_complete (s : WorkflowState)
| error_event (message : string).

(** Modelled from the spec: the [type] field of an event on the wire. *)
Definition wire_type (e : Event) : string :=
  match e with
  | step_update _ => "step_update"
  | review_required _ => "review_required"
  | workflow_complete _ => "workflow_complete"
  | error_event _ => "error"
  end.

(** Modelled from the spec: how the session manager "routes the engine"
    when a review is submitted: the pending review stage finalizes, or
    routes back into planning. *)
Inductive ReviewRoute := Finalize | BackToPlanning.

(** Modelled from the spec: the ExecutionResult of a call into the engine,
    kept with a trace: the state the call ends in, the store, the events
    emitted in order, the node executions of the call (each with the stage
    and the state handed to it), and whether a governance check ended the
    call. *)
Record Run := mkRun {
  final : WorkflowState;
  store_after : gmap string (list Checkpoint);
  events : list Event;
  executions : list (Stage * WorkflowState);
  halted_by_governance : bool
}.

(** Modelled from the spec: the two failures of [resume] (and the refusal
    of [start] on a state that is not RUNNING). *)
Inductive EngineError := NotFoundError | InvalidStateError.

(** Modelled from the spec: a call of [resume] as the session manager
    makes it. *)
Record ResumeCall := mkCall {
  call_thread : string;
  call_feedback : string;
  call_route : ReviewRoute
}.

Section Loop.

(** Configuration: the ceiling on node executions. *)
Variable max_node_executions : nat.
(** The deadline [session.started_at + max_duration] of the session. *)
Variable deadline : nat.
(** The wall clock as read by the governance check that precedes node
    execution number [k + 1] of the thread. *)
Variable clock : nat -> nat.
(** The stage registry: the externally supplied capabilities. *)
Variable capability : Stage -> WorkflowState -> WorkflowState * Routing.

(** Modelled from the spec: one stage invocation.  The review stage
    "always interrupts" (and, as in the scenario, sets [needs_review] and
    [PAUSED] itself); resumed by the session manager it finalizes or routes
    back into planning.  Every other stage runs its registered
    capability. *)
Definition run_stage (route : option ReviewRoute) (s : WorkflowState)
    : WorkflowState * Routing :=
  match active_stage s, route with
  | Review, None => (with_status PAUSED (with_needs_review true s), INTERRUPT)
  | Review, Some Finalize => (s, DONE true)
  | Review, Some BackToPlanning => (s, NEXT Plan)
  | stage, _ => capability stage s
  end.

(** Modelled from the spec: the internal execution loop of section 4.1,
    steps (a) to (e), with the governance checks of section 4.2 (time-out
    first, then the step ceiling "if reached").  [node_execution_count] is
    a governance counter: the engine counts, whatever a stage returns in
    that field.  A governance halt writes no checkpoint.  [fuel] bounds the
    recursion; [start] and [resume] give enough of it. *)
Fixpoint loop (fuel : nat) (thread : string) (route : option ReviewRoute)
    (s : WorkflowState) (store : gmap string (list Checkpoint))
    (evs : list Event) (execs : list (Stage * WorkflowState)) : option Run :=
  match fuel with
  | O => None
  | S fuel' =>
      (* (a) governance pre-check *)
      if (deadline <? clock (node_execution_count s))%nat then
        Some (mkRun (with_status TIMED_OUT s) store
                    (evs ++ [error_event "workflow timed out"]) execs true)
      else if (max_node_executions <=? node_execution_count s)%nat then
        Some (mkRun (with_status FAILED s) store
                    (evs ++ [error_event "step limit exceeded"]) execs true)
      else
        (* (b) invoke the stage capability *)
        let out := run_stage route s in
        (* (c) increment node_execution_count *)
        let s1 := with_count (S (node_execution_count s)) (fst out) in
        (* (d) persist a checkpoint, ahead of any notification *)
        let store1 := snd (append thread s1 store) in
        let execs1 := execs ++ [(active_stage s, s)] in
        let evs1 := evs ++ [step_update s1] in
        (* (e) apply routing *)
        match snd out with
        | INTERRUPT =>
            let s2 := with_needs_review true (with_status PAUSED s1) in
            Some (mkRun s2 store1 (evs1 ++ [review_required s2]) execs1 false)
        | DONE true =>
            let s2 := with_status COMPLETED s1 in
            Some (mkRun s2 store1 (evs1 ++ [workflow_complete s2]) execs1 false)
        | DONE false =>
            let s2 := with_status FAILED s1 in
            Some (mkRun s2 store1 (evs1 ++ [error_event "stage failed"])
                        execs1 false)
        | NEXT stage =>
            loop fuel' thread None (with_active_stage stage s1) store1 evs1
                 execs1
        end
  end.

(** Modelled from the spec: the fuel that covers the rest of a thread: one
    iteration for each node execution the ceiling still allows, and one for
    the check that halts. *)
Definition fuel_for (s : WorkflowState) : nat :=
  S (max_node_executions - node_execution_count s).

(** Modelled from the spec: [start(thread_id, initial_state)], which
    "validates initial_state.status == RUNNING" and runs the graph from the
    entry stage. *)
Definition start (thread : string) (initial_state : WorkflowState)
    (store : gmap string (list Checkpoint)) : option (EngineError + Run) :=
  match status initial_state with
  | RUNNING =>
      let s := with_active_stage Entry initial_state in
      option_map inr (loop (fuel_for s) thread None s store [] [])
  | _ => Some (inl InvalidStateError)
  end.

(** Modelled from the spec: what [resume] does to the loaded state: it
    "injects feedback into the state, clears needs_review, sets
    status=RUNNING".  The feedback is stored in [review_feedback] and
    appended to [conversation_history], where the planning stage reads
    it. *)
Definition inject (feedback : string) (s : WorkflowState) : WorkflowState :=
  with_status RUNNING
    (with_needs_review false
       (with_review_feedback (Some feedback)
          (with_history (conversation_history s ++ [mkMsg "user" feedback])
             s))).

(** Modelled from the spec: [resume(thread_id, feedback)], which loads the
    latest checkpoint, fails without one or when it is not PAUSED, and
    otherwise continues from [active_stage], with the route chosen by the
    session manager. *)
Definition resume (route : ReviewRoute) (thread feedback : string)
    (store : gmap string (list Checkpoint)) : option (EngineError + Run) :=
  match latest thread store with
  | None => Some (inl NotFoundError)
  | Some cp =>
      match status (snapshot cp) with
      | PAUSED =>
          let s := inject feedback (snapshot cp) in
          option_map inr (loop (fuel_for s) thread (Some route) s store [] [])
      | _ => Some (inl InvalidStateError)
      end
  end.

(** Modelled from the spec: the life of a thread as the session manager
    drives it (sections 4.4 and 5): [createSession] calls [start] once, each
    review submitted afterwards calls [resume], one call at a time, each on
    the store the call before it left.  A call that fails with
    [NotFoundError] or [InvalidStateError] leaves the store as it was.  The
    result is the list of the calls that ran, in order (the thread life of
    the backend is missing). *)
Fixpoint resumes (thread : string) (reviews : list (ReviewRoute * string))
    (store : gmap string (list Checkpoint)) : list Run :=
  match reviews with
  | [] => []
  | review :: rest =>
      match resume (fst review) thread (snd review) store with
      | Some (inr run) => run :: resumes thread rest (store_after run)
      | _ => resumes thread rest store
      end
  end.

Definition life (thread : string) (initial_state : WorkflowState)
    (reviews : list (ReviewRoute * string))
    (store : gmap string (list Checkpoint)) : list Run :=
  match start thread initial_state store with
  | Some (inr run) => run :: resumes thread reviews (store_after run)
  | _ => []
  end.

(** Modelled from the spec: the session manager's
    [submitReview(session_id, feedback, action)] over its table from
    session identifiers to thread identifiers.  [None] stands for an
    unknown session or an action outside [{approve, revise}], rejected
    before the engine is called. *)
Definition submitReview (sessions : gmap string string)
    (session_id feedback action : string)
    (store : gmap string (list Checkpoint))
    : option (ResumeCall * option (EngineError + Run)) :=
  match sessions !! session_id with
  | None => None
  | Some thread =>
      if String.eqb action "approve" then
        Some (mkCall thread "" Finalize, resume Finalize thread "" store)
      else if String.eqb action "revise" then
        Some (mkCall thread feedback BackToPlanning,
              resume BackToPlanning thread feedback store)
      else None
  end.

(** Modelled from the spec: reading a field of a request body. *)
Definition field (name : string) (body : Body) : option string :=
  snd <$> List.find (fun kv => String.eqb (fst kv) name) body.

(** Modelled from the spec: the review endpoint,
    [POST review {session_id, feedback, action}], which hands the three
    fields of the body to the session manager. *)
Definition review_endpoint (sessions : gmap string string)
    (request : HttpRequest) (store : gmap string (list Checkpoint))
    : option (ResumeCall * option (EngineError + Run)) :=
  match req_method request, field "session_id" (req_body request),
        field "feedback" (req_body request),
        field "action" (req_body request) with
  | POST, Some session_id, Some feedback, Some action =>
      if String.eqb (req_path request) "/workflow/review" then
        submitReview sessions session_id feedback action store
      else None
  | _, _, _, _ => None
  end.

End Loop.

End Engine.

(** ** Reference definitions the client is compared with *)

Module Reference.

(** The WebSocket endpoint in the words of the interface description: the
    base URL with a leading [http] replaced by [ws], then [/ws/] and the
    session id. *)
Definition ws_endpoint (base sessionId : string) : string :=
  ((if String.prefix "http" base
    then "ws" ++ String.substring 4 (String.length base - 4) base
    else base) ++ "/ws/" ++ sessionId)%string.

(** The three message types that end a connection. *)
Definition outcome_of_message (m : WsMessage) : BackendClient.PromiseState :=
  match msg_type m with
  | Some ty =>
      if String.eqb ty "review_required" then BackendClient.Resolved
      else if String.eqb ty "workflow_complete" then BackendClient.Resolved
      else if String.eqb ty "error" then
        BackendClient.Rejected (new_Error (msg_message m))
      else BackendClient.Pending
  | None => BackendClient.Pending
  end.


(** The promise as a function of all events: a socket ['error'] event
    rejects it as well. *)
Fixpoint first_settlement (events : list WsEvent)
    : BackendClient.PromiseState :=
  match events with
  | [] => BackendClient.Pending
  | Ev_message (Json m) :: rest =>
      match outcome_of_message m with
      | BackendClient.Pending => first_settlement rest
      | settled => settled
      end
  | Ev_error e :: rest => BackendClient.Rejected e
  | _ :: rest => first_settlement rest
  end.

(** Number of received messages of the three types. *)
Fixpoint settling_messages (events : list WsEvent) : nat :=
  match events with
  | [] => 0
  | Ev_message (Json m) :: rest =>
      match outcome_of_message m with
      | BackendClient.Pending => settling_messages rest
      | _ => S (settling_messages rest)
      end
  | _ :: rest => settling_messages rest
  end.

(** The callback each kind of event belongs to. *)
Definition expected_invocation (e : Engine.Event) (m : WsMessage)
    : BackendClient.Invocation :=
  match e with
  | Engine.step_update _ => BackendClient.Called_onStepUpdate m
  | Engine.review_required _ => BackendClient.Called_onReviewRequired m
  | Engine.workflow_complete _ => BackendClient.Called_onComplete m
  | Engine.error_event _ =>
      BackendClient.Called_onError (BackendClient.Err_message m)
  end.

(** The callback of the caller that each kind of event belongs to. *)
Definition callback_for (cbs : BackendClient.WebSocketCallbacks)
    (e : Engine.Event) : option (WsMessage -> World -> World) :=
  match e with
  | Engine.step_update _ => BackendClient.onStepUpdate cbs
  | Engine.review_required _ => BackendClient.onReviewRequired cbs
  | Engine.workflow_complete _ => BackendClient.onComplete cbs
  | Engine.error_event _ =>
      option_map (fun f m => f (BackendClient.Err_message m))
                 (BackendClient.onError cbs)
  end.

(** Node executions attempted in a call of the engine: those carried out,
    and the one the governance check refused. *)
Definition attempts (run : Engine.Run) : nat :=
  List.length (Engine.executions run) +
  (if Engine.halted_by_governance run then 1 else 0).

(** What a call of the engine shows from outside: the stages it ran, the
    status it ended in and the types of the events it emitted. *)
Definition observe (r : option (Engine.EngineError + Engine.Run))
    : option (list Engine.Stage * Engine.Status * list string) :=
  match r with
  | Some (inr run) =>
      Some (map fst (Engine.executions run), Engine.status (Engine.final run),
            map Engine.wire_type (Engine.events run))
  | _ => None
  end.

(** Node executions carried out over the calls of a thread. *)
Fixpoint carried_out (runs : list Engine.Run) : nat :=
  match runs with
  | [] => 0
  | run :: rest => List.length (Engine.executions run) + carried_out rest
  end.

(** What it is for a thread to halt at the ceiling [N]: one of its calls
    is refused with FAILED and "step limit exceeded", its count standing at
    [N], when the calls so far have carried out [room] node executions, and
    none is carried out after. *)
Definition halts_after (N room : nat) (runs : list Engine.Run) : Prop :=
  exists before run after,
    runs = before ++ run :: after /\
    Engine.status (Engine.final run) = Engine.FAILED /\
    Engine.halted_by_governance run = true /\
    last (Engine.events run) =
      Some (Engine.error_event "step limit exceeded") /\
    Engine.node_execution_count (Engine.final run) = N /\
    carried_out (before ++ [run]) = room /\
    carried_out runs = room.

(** The count of node executions a thread has on record: that of its
    latest checkpoint, none without one. *)
Definition recorded (thread : string)
    (store : gmap string (list Engine.Checkpoint)) : nat :=
  match Engine.latest thread store with
  | Some cp => Engine.node_execution_count (Engine.snapshot cp)
  | None => 0
  end.

(** What the callbacks of the sidebar post to the view for a message of
    the push channel (besides the end of the spinner). *)
Definition posted_for (m : WsMessage) : option ViewMessage :=
  match msg_type m with
  | None => None
  | Some ty =>
      if String.eqb ty "step_update" then
        Some (stepUpdate (current_step m) (plan m) (active_agent m))
      else if String.eqb ty "review_required" then
        Some (reviewRequired (plan m) (generated_files m))
      else if String.eqb ty "workflow_complete" then
        Some (workflowComplete (generated_files m))
      else if String.eqb ty "error" then
        Some (error (or_default (msg_message m) "An error occurred"))
      else None
  end.


(** The cases of the [switch] on the [type] of a message, in its order. *)
Inductive type_case (ty : string) : Prop :=
| Is_step_update : ty = "step_update" -> type_case ty
| Is_review_required : ty = "review_required" -> type_case ty
| Is_workflow_complete : ty = "workflow_complete" -> type_case ty
| Is_error : ty = "error" -> type_case ty
| Is_other :
    String.eqb ty "step_update" = false ->
    String.eqb ty "review_required" = false ->
    String.eqb ty "workflow_complete" = false ->
    String.eqb ty "error" = false -> type_case ty.

(** [only_posts w w']: from [w] to [w'] nothing happened but messages
    being posted to the view (and exceptions escaping a listener). *)
Definition only_posts (w w' : World) : Prop :=
  currentSessionId w' = currentSessionId w /\
  workspaceFolders w' = workspaceFolders w /\
  http_log w' = http_log w /\
  http_replies w' = http_replies w /\
  sockets w' = sockets w /\
  ws_streams w' = ws_streams w /\
  match _view w, _view w' with
  | Some v, Some v' => exists extra, posted v' = posted v ++ extra
  | None, None => True
  | _, _ => False
  end.

End Reference.

(** ** Concrete situations used to exercise the statements *)

Module Samples.

Definition client : BackendClient.t :=
  BackendClient.mk "https://agentic.example.com" BackendClient.Logging.

Definition local_client : BackendClient.t :=
  BackendClient.mk "http://localhost:8000" BackendClient.Plain.

Definition error_message : WsMessage :=
  mkMessage (Some "error") (Some "step limit exceeded")
            JsUndefined JsUndefined JsUndefined JsUndefined.

Definition step_message : WsMessage :=
  mkMessage (Some "step_update") None (JsNum 1)
            (JsArr [JsObj [("instruction", JsStr "write string_utils.py")]])
            (JsStr "code") JsUndefined.

Definition review_message : WsMessage :=
  mkMessage (Some "review_required") None JsUndefined
            (JsArr [JsObj [("instruction", JsStr "write string_utils.py")]])
            JsUndefined (JsArr [JsStr "string_utils.py"]).

(** A sidebar with a workspace folder open and no workflow yet. *)
Definition idle : World :=
  mkWorld (Some (mkView [])) None (Some [mkFolder "/home/dev/anagram"])
    [] [Response (mkSession "s-1" "running" "Workflow started")]
    [] [Delivers [Ev_open; Ev_message (Json step_message);
                  Ev_message (Json review_message)]]
    0.

(** The same sidebar with no folder open. *)
Definition no_workspace : World :=
  mkWorld (Some (mkView [])) None None
    [] [Response (mkSession "s-1" "running" "Workflow started")] [] [] 0.

(** A sidebar whose workflow [s-1] waits for the review; the backend will
    acknowledge the review and then report an error on the next socket. *)
Definition in_review : World :=
  mkWorld (Some (mkView [])) (Some "s-1") (Some [mkFolder "/home/dev/anagram"])
    [] [Response (mkSession "s-1" "running" "Review submitted")]
    [] [Delivers [Ev_open; Ev_message (Json step_message);
                  Ev_message (Json error_message); Ev_close]]
    0.

(** A registry whose stages route to each other for ever. *)
Definition looping (stage : Engine.Stage) (s : Engine.WorkflowState)
    : Engine.WorkflowState * Engine.Routing :=
  (s, Engine.NEXT Engine.Generate).

(** The registry of the anagram scenario: the entry stage hands over to
    planning, planning writes a one-step plan and sends each open step to
    generation, generation writes the file and marks the step, and a plan
    with no open step goes to review. *)
Definition anagram (stage : Engine.Stage) (s : Engine.WorkflowState)
    : Engine.WorkflowState * Engine.Routing :=
  match stage with
  | Engine.Entry => (s, Engine.NEXT Engine.Plan)
  | Engine.Plan =>
      match Engine.plan s with
      | [] =>
          (Engine.mkState (Engine.thread_id s) (Engine.user_request s)
             [Engine.mkStep "write string_utils.py" false]
             (Engine.generated_files s) (Engine.conversation_history s)
             (Engine.active_stage s) 0 (Engine.needs_review s)
             (Engine.review_feedback s) (Engine.status s)
             (Engine.node_execution_count s) (Engine.started_at s),
           Engine.NEXT Engine.Generate)
      | _ =>
          if (Engine.step_index s <? List.length (Engine.plan s))%nat
          then (s, Engine.NEXT Engine.Generate)
          else (s, Engine.NEXT Engine.Review)
      end
  | Engine.Generate =>
      (Engine.mkState (Engine.thread_id s) (Engine.user_request s)
         (map (fun st => Engine.mkStep (Engine.instruction st) true)
              (Engine.plan s))
         (<["string_utils.py" := "def is_anagram(a, b): ..."]>
            (Engine.generated_files s))
         (Engine.conversation_history s) (Engine.active_stage s)
         (List.length (Engine.plan s)) (Engine.needs_review s)
         (Engine.review_feedback s) (Engine.status s)
         (Engine.node_execution_count s) (Engine.started_at s),
       Engine.NEXT Engine.Plan)
  | _ => (s, Engine.NEXT Engine.Plan)
  end.

Definition request_state : Engine.WorkflowState :=
  Engine.mkState "t-1" "create anagram checker" [] ∅ [] Engine.Entry 0 false
    None Engine.RUNNING 0 0.

(** The store once the scenario has run up to its review (ceiling 50, no
    deadline pressure). *)
Definition store_in_review : gmap string (list Engine.Checkpoint) :=
  match Engine.start 50 300 (fun _ => 0) anagram "t-1" request_state ∅ with
  | Some (inr run) => Engine.store_after run
  | _ => ∅
  end.

(** The checkpoint the scenario is paused on, the latest of that store. *)
Definition paused : Engine.Checkpoint :=
  Engine.mkCheckpoint "t-1" 5
    (Engine.mkState "t-1" "create anagram checker"
       [Engine.mkStep "write string_utils.py" true]
       {["string_utils.py" := "def is_anagram(a, b): ..."]} []
       Engine.Review 1 true None Engine.PAUSED 5 0).

Definition sessions : gmap string string := {["s-1" := "t-1"]}.

(** A clock on which the deadline 300 passes while the sixth node
    execution of a thread runs. *)
Definition overdue (k : nat) : nat := if (k <? 6)%nat then 0 else 301.

End Samples.

(** ** The script of the webview

    The [<script>] of [_getHtmlForWebview].  The page is the part of the
    document the script writes: the chat, the progress list, the spinner,
    the review panel and the two text boxes.  Markup is kept as structure
    (a message with its role and content, a step with its class and text, a
    file item with its file) and contents are not parsed as HTML; heights
    and scroll positions are left out. *)

Module Webview.

(** The class a step of the progress list is given: [completed],
    [current], or none. *)
Inductive StepClass := Completed | Current | Upcoming.

(** A [div.progress-step]: its class and the instruction shown in it. *)
Record StepDiv := mkStepDiv { step_class : StepClass; step_text : JsValue }.

(** A [div.message]: the role in its class name, the label and the
    content. *)
Record MessageDiv := mkMessageDiv {
  div_role : string;
  div_label : string;
  div_content : string
}.

Record Page := mkPage {
  isThinking : bool;
  currentPlan : JsValue;
  messageInput : string;
  empty_state : bool;
  messages : list MessageDiv;
  progress_active : bool;
  progressSteps : list StepDiv;
  thinking_active : bool;
  sendButton_disabled : bool;
  review_active : bool;
  reviewFiles : list JsValue;
  reviewFeedback : string
}.

(** The page as the HTML and the first line of the script leave it. *)
Definition loaded : Page :=
  mkPage false (JsArr []) "" true [] false [] false false false [] "".

(** How a listener ends: normally, with an exception (what it changed
    before stays changed), or on a coercion of JavaScript that is not
    modelled here (a string or an array converted to a number, an array
    printed as text). *)
Inductive Ending := Finished | Threw | Not_modelled.

(** *** JavaScript on JSON values *)

(** [!v] is [negb (truthy v)]. *)
Definition truthy (v : JsValue) : bool :=
  match v with
  | JsUndefined | JsNull => false
  | JsBool b => b
  | JsNum n => negb (n =? 0)%Z
  | JsStr s => negb (String.eqb s "")
  | JsArr _ | JsObj _ => true
  end.

Definition lookup_field (name : string) (fields : list (string * JsValue))
    : JsValue :=
  match List.find (fun kv => String.eqb (fst kv) name) fields with
  | Some kv => snd kv
  | None => JsUndefined
  end.

(** [v.name] for a name that no prototype defines ([instruction], [task]):
    a [TypeError] ([None]) on [undefined] and [null], the field of an
    object, [undefined] on anything else. *)
Definition member (v : JsValue) (name : string) : option JsValue :=
  match v with
  | JsUndefined | JsNull => None
  | JsObj fields => Some (lookup_field name fields)
  | _ => Some JsUndefined
  end.

(** The length of a string as JavaScript counts it, in UTF-16 code units,
    for text held in UTF-8: a continuation byte counts for nothing, the
    first byte of a code point of four bytes for two, any other byte for
    one. *)
Fixpoint utf16_length (s : string) : nat :=
  match s with
  | EmptyString => 0
  | String c rest =>
      let n := nat_of_ascii c in
      (if (n <? 128)%nat then 1
       else if (n <? 192)%nat then 0
       else if (n <? 240)%nat then 1
       else 2) + utf16_length rest
  end.

(** [v.length]: a [TypeError] ([None]) on [undefined] and [null]; the
    number of items of an array and of code units of a string; the field of
    that name of an object; [undefined] on a number or a boolean. *)
Definition js_length (v : JsValue) : option JsValue :=
  match v with
  | JsUndefined | JsNull => None
  | JsArr items => Some (JsNum (Z.of_nat (List.length items)))
  | JsStr s => Some (JsNum (Z.of_nat (utf16_length s)))
  | JsObj fields => Some (lookup_field "length" fields)
  | JsBool _ | JsNum _ => Some JsUndefined
  end.

(** [v === 0] *)
Definition strict_zero (v : JsValue) : bool :=
  match v with
  | JsNum n => (n =? 0)%Z
  | _ => false
  end.

(** [v > 0]: [undefined] and an object convert to [NaN], [null] to [0],
    a boolean to [0] or [1]. *)
Definition positive (v : JsValue) : option bool :=
  match v with
  | JsNum n => Some (0 <? n)%Z
  | JsBool b => Some b
  | JsUndefined | JsNull | JsObj _ => Some false
  | JsStr _ | JsArr _ => None
  end.

(** [index < v] for an array index. *)
Definition below (index : nat) (v : JsValue) : option bool :=
  match v with
  | JsNum n => Some (Z.of_nat index <? n)%Z
  | JsBool b => Some (b && (index =? 0)%nat)
  | JsUndefined | JsNull | JsObj _ => Some false
  | JsStr _ | JsArr _ => None
  end.

(** [index === v] *)
Definition same (index : nat) (v : JsValue) : bool :=
  match v with
  | JsNum n => (Z.of_nat index =? n)%Z
  | _ => false
  end.

(** [`${v}`]: integers print in decimal (exactly so below [10^21]). *)
Definition printed (v : JsValue) : option string :=
  match v with
  | JsUndefined => Some "undefined"
  | JsNull => Some "null"
  | JsBool true => Some "true"
  | JsBool false => Some "false"
  | JsNum n =>
      if (Z.abs n <? 10 ^ 21)%Z then Some (pretty n) else None
  | JsStr s => Some s
  | JsObj _ => Some "[object Object]"
  | JsArr _ => None
  end.

(** *** The functions of the script *)

Definition complete_prefix : string := "‚úÖ Workflow complete! Generated ".

Definition complete_suffix : string := " files.".

Definition error_prefix : string := "‚ùå Error: ".

(** [function addMessage(role, content)] *)
Definition addMessage (role content : string) (p : Page) : Page :=
  mkPage (isThinking p) (currentPlan p) (messageInput p) false
    (messages p ++
     [mkMessageDiv role
        (if String.eqb role "user" then "You" else "Agentic IDE") content])
    (progress_active p) (progressSteps p) (thinking_active p)
    (sendButton_disabled p) (review_active p) (reviewFiles p)
    (reviewFeedback p).

(** The [setThinking] case of the listener. *)
Definition setThinking (thinking : bool) (p : Page) : Page :=
  mkPage thinking (currentPlan p) (messageInput p) (empty_state p)
    (messages p) (progress_active p) (progressSteps p) thinking thinking
    (review_active p) (reviewFiles p) (reviewFeedback p).

(** [progressList.classList.add('active')] and [.remove('active')] *)
Definition set_progress_active (active : bool) (p : Page) : Page :=
  mkPage (isThinking p) (currentPlan p) (messageInput p) (empty_state p)
    (messages p) active (progressSteps p) (thinking_active p)
    (sendButton_disabled p) (review_active p) (reviewFiles p)
    (reviewFeedback p).

(** [currentPlan=plan; progressSteps.innerHTML=''] *)
Definition begin_plan (plan : JsValue) (p : Page) : Page :=
  mkPage (isThinking p) plan (messageInput p) (empty_state p) (messages p)
    (progress_active p) [] (thinking_active p) (sendButton_disabled p)
    (review_active p) (reviewFiles p) (reviewFeedback p).

(** [progressSteps.appendChild(stepDiv)] *)
Definition append_step (d : StepDiv) (p : Page) : Page :=
  mkPage (isThinking p) (currentPlan p) (messageInput p) (empty_state p)
    (messages p) (progress_active p) (progressSteps p ++ [d])
    (thinking_active p) (sendButton_disabled p) (review_active p)
    (reviewFiles p) (reviewFeedback p).

(** [step.instruction||step.task||'Step '+(index+1)] *)
Definition instruction_of (step : JsValue) (index : nat) : option JsValue :=
  match member step "instruction" with
  | None => None
  | Some a =>
      if truthy a then Some a
      else
        match member step "task" with
        | None => None
        | Some b =>
            if truthy b then Some b
            else Some (JsStr ("Step " ++ pretty (S index))%string)
        end
  end.

(** The three branches on [index<currentStep] and [index===currentStep]. *)
Definition class_of (index : nat) (currentStep : JsValue)
    : option StepClass :=
  match below index currentStep with
  | None => None
  | Some true => Some Completed
  | Some false => Some (if same index currentStep then Current else Upcoming)
  end.

(** The callback of [plan.forEach], from [index] on. *)
Fixpoint each_step (currentStep : JsValue) (index : nat)
    (steps : list JsValue) (p : Page) : Ending * Page :=
  match steps with
  | [] => (Finished, p)
  | step :: rest =>
      match instruction_of step index with
      | None => (Threw, p)
      | Some text =>
          match class_of index currentStep with
          | None => (Not_modelled, p)
          | Some cls =>
              each_step currentStep (S index) rest
                (append_step (mkStepDiv cls text) p)
          end
      end
  end.

(** [function updateProgressList(currentStep, plan)].  Only an array has
    [forEach]. *)
Definition updateProgressList (currentStep plan : JsValue) (p : Page)
    : Ending * Page :=
  if negb (truthy plan) then (Finished, set_progress_active false p)
  else
    match js_length plan with
    | None => (Threw, p)
    | Some len =>
        if strict_zero len then (Finished, set_progress_active false p)
        else
          match plan with
          | JsArr steps =>
              match each_step currentStep 0 steps (begin_plan plan p) with
              | (Finished, p') => (Finished, set_progress_active true p')
              | other => other
              end
          | _ => (Threw, begin_plan plan p)
          end
    end.

(** [function clearProgressList()] *)
Definition clearProgressList (p : Page) : Page :=
  mkPage (isThinking p) (JsArr []) (messageInput p) (empty_state p)
    (messages p) false (progressSteps p) (thinking_active p)
    (sendButton_disabled p) (review_active p) (reviewFiles p)
    (reviewFeedback p).

(** The review panel: its file items and whether it is shown. *)
Definition set_review (active : bool) (files : list JsValue) (p : Page)
    : Page :=
  mkPage (isThinking p) (currentPlan p) (messageInput p) (empty_state p)
    (messages p) (progress_active p) (progressSteps p) (thinking_active p)
    (sendButton_disabled p) active files (reviewFeedback p).

(** [function showReviewPanel(plan, files)]: the file list is emptied, then
    filled by [files.forEach], then the panel is shown. *)
Definition showReviewPanel (plan files : JsValue) (p : Page)
    : Ending * Page :=
  match files with
  | JsArr items => (Finished, set_review true items p)
  | _ => (Threw, set_review (review_active p) [] p)
  end.

(** The listener of [window.addEventListener('message', ...)]. *)
Definition on_message (message : ViewMessage) (p : Page) : Ending * Page :=
  match message with
  | Host.addMessage role content => (Finished, addMessage role content p)
  | Host.setThinking thinking => (Finished, setThinking thinking p)
  | stepUpdate step plan _ => updateProgressList step plan p
  | reviewRequired plan files => showReviewPanel plan files p
  | workflowComplete files =>
      match js_length files with
      | None => (Threw, p)
      | Some len =>
          match printed len with
          | None => (Not_modelled, p)
          | Some n =>
              let p1 :=
                addMessage "assistant"
                  (complete_prefix ++ n ++ complete_suffix)%string p in
              match js_length (currentPlan p1) with
              | None => (Threw, p1)
              | Some len1 =>
                  match positive len1 with
                  | None => (Not_modelled, p1)
                  | Some true => updateProgressList len1 (currentPlan p1) p1
                  | Some false => (Finished, p1)
                  end
              end
          end
      end
  | error message =>
      (Finished,
       clearProgressList
         (addMessage "assistant" (error_prefix ++ message)%string p))
  end.

(** The page after the messages of a list, one event each; [None] when one
    of them leaves the model. *)
Fixpoint render (l : list ViewMessage) (p : Page) : option Page :=
  match l with
  | [] => Some p
  | message :: rest =>
      match on_message message p with
      | (Not_modelled, _) => None
      | (_, p') => render rest p'
      end
  end.

(** [function sendMessage()] *)
Definition sendMessage (p : Page) : option SidebarProvider.WebviewMessage * Page :=
  match SidebarProvider.Script.sendMessage (messageInput p) (isThinking p) with
  | None => (None, p)
  | Some posted =>
      (Some posted,
       mkPage (isThinking p) (currentPlan p) "" (empty_state p) (messages p)
         (progress_active p) (progressSteps p) (thinking_active p)
         (sendButton_disabled p) (review_active p) (reviewFiles p)
         (reviewFeedback p))
  end.


(** [function submitReview(action)] *)
Definition submitReview (action : SidebarProvider.Action) (p : Page)
    : SidebarProvider.WebviewMessage * Page :=
  (SidebarProvider.Script.submitReview (reviewFeedback p) action,
   mkPage (isThinking p) (currentPlan p) (messageInput p) (empty_state p)
     (messages p) (progress_active p) (progressSteps p) (thinking_active p)
     (sendButton_disabled p) false (reviewFiles p) "").

(** The [onclick] of a file item, [openFile(file)]; [None] for a file that
    is not a string, which [WebviewMessage] cannot carry. *)
Definition click_file (file : JsValue)
    : option SidebarProvider.WebviewMessage :=
  match file with
  | JsStr path => Some (SidebarProvider.openFile path)
  | _ => None
  end.

End Webview.

(** ** What is observed of the client beyond the interface description *)

Module Observations.

(** A frame on which the listener throws: [JSON.parse] fails, or the parsed
    value is [null]. *)
Definition throws (ev : WsEvent) : bool :=
  match ev with
  | Ev_message Unparsable | Ev_message JsonNull => true
  | _ => false
  end.

Fixpoint throwing_frames (events : list WsEvent) : nat :=
  match events with
  | [] => 0
  | ev :: rest => (if throws ev then 1 else 0) + throwing_frames rest
  end.

(** The world with [k] more exceptions escaped from a listener. *)
Definition escaped (k : nat) (w : World) : World :=
  mkWorld (_view w) (currentSessionId w) (workspaceFolders w) (http_log w)
          (http_replies w) (sockets w) (ws_streams w) (k + uncaught w).

(** The next socket delivers no frame the message listener throws on. *)
Definition readable (w : World) : bool :=
  match ws_streams w with
  | Delivers events :: _ => forallb (fun ev => negb (throws ev)) events
  | _ => true
  end.

(** An event that neither settles the promise nor reaches a callback: the
    socket opening or closing, a frame the listener throws on, or a message
    whose [type] is none of the four. *)
Definition ignored (ev : WsEvent) : bool :=
  match ev with
  | Ev_open | Ev_close => true
  | Ev_message Unparsable | Ev_message JsonNull => true
  | Ev_message (Json m) =>
      match msg_type m with
      | None => true
      | Some ty =>
          negb (String.eqb ty "step_update" || String.eqb ty "review_required"
                || String.eqb ty "workflow_complete" || String.eqb ty "error")
      end
  | Ev_error _ => false
  end.

(** The error a request ends with, when the next reply of the backend is a
    rejection or does not come before the time-out. *)
Definition request_error (replies : list HttpReply) : option JsError :=
  match replies with
  | Rejected_request e :: _ => Some e
  | [] => Some (mkError "timeout of 30000ms exceeded")
  | Response _ :: _ => None
  end.

(** The messages posted to the view so far. *)
Definition shown (w : World) : list ViewMessage :=
  match _view w with
  | Some v => posted v
  | None => []
  end.

(** The messages posted to the view between two moments. *)
Definition news (before after : World) : list ViewMessage :=
  drop (List.length (shown before)) (shown after).

(** The value of the last [setThinking] among posted messages: whether the
    view shows its spinner. *)
Definition last_thinking (l : list ViewMessage) : option bool :=
  fold_left (fun acc m => match m with setThinking t => Some t | _ => acc end)
            l None.

(** The backend does not answer the next request with an empty session
    id. *)
Definition names_session (replies : list HttpReply) : bool :=
  match replies with
  | Response data :: _ => negb (String.eqb (session_id data) "")
  | _ => true
  end.

(** A string that is exactly one white-space code point. *)
Definition space_code (s : string) : bool :=
  match s with
  | String a EmptyString => is_space a
  | String a (String b EmptyString) => is_space2 a b
  | String a (String b (String c EmptyString)) => is_space3 a b c
  | _ => false
  end.

(** A string of white-space code points only. *)
Fixpoint blank (s : string) : bool :=
  match s with
  | EmptyString => true
  | String a r1 =>
      if is_space a then blank r1
      else
        match r1 with
        | String b r2 =>
            if is_space2 a b then blank r2
            else
              match r2 with
              | String c r3 => is_space3 a b c && blank r3
              | EmptyString => false
              end
        | EmptyString => false
        end
  end.

(** The string does not start with a white-space code point. *)
Definition starts_clean (s : string) : bool :=
  match leading_space s with
  | Some _ => false
  | None => true
  end.

(** The string does not end with a white-space code point: none of its
    suffixes is one. *)
Fixpoint ends_clean (s : string) : bool :=
  match s with
  | EmptyString => true
  | String _ rest => negb (space_code s) && ends_clean rest
  end.

(** What a message posted by the extension adds to the chat of the page:
    the message itself, the line of an error, the line of a completed
    workflow when the number of files can be read and printed. *)
Definition chat_of (m : ViewMessage) : list Webview.MessageDiv :=
  match m with
  | addMessage role content =>
      [Webview.mkMessageDiv role
         (if String.eqb role "user" then "You" else "Agentic IDE") content]
  | error message =>
      [Webview.mkMessageDiv "assistant" "Agentic IDE"
         (Webview.error_prefix ++ message)%string]
  | workflowComplete files =>
      match Webview.js_length files with
      | Some len =>
          match Webview.printed len with
          | Some n =>
              [Webview.mkMessageDiv "assistant" "Agentic IDE"
                 (Webview.complete_prefix ++ n ++ Webview.complete_suffix)%string]
          | None => []
          end
      | None => []
      end
  | _ => []
  end.

(** The class the progress list gives step [i] when step [k] is the
    current one. *)
Definition class_at (k : Z) (i : nat) : Webview.StepClass :=
  if (Z.of_nat i <? k)%Z then Webview.Completed
  else if (Z.of_nat i =? k)%Z then Webview.Current
  else Webview.Upcoming.

(** The marks a handler may leave: requests, sockets and posted messages
    are only added, at most one request and one socket, every request a
    [POST], a socket only once the backend has accepted the request. *)
Definition bounded_effects (w w' : World) (reqs : list HttpRequest)
    (urls : list string) : Prop :=
  http_log w' = http_log w ++ reqs /\
  sockets w' = sockets w ++ urls /\
  (List.length urls <= List.length reqs)%nat /\
  (List.length reqs <= 1)%nat /\
  Forall (fun r => req_method r = POST) reqs /\
  (urls <> [] -> exists d rest, http_replies w = Response d :: rest) /\
  workspaceFolders w' = workspaceFolders w.

(** No message of [l] turns the spinner on. *)
Definition never_spins (l : list ViewMessage) : Prop :=
  Forall (fun m => m <> setThinking true) l.

End Observations.

(** ** More concrete situations *)

Module Cases.

(** A message of a type the client does not know. *)
Definition heartbeat : WsMessage :=
  mkMessage (Some "heartbeat") None JsUndefined JsUndefined JsUndefined
            JsUndefined.

(** A socket that opens and closes without a terminal message. *)
Definition silent : list WsEvent :=
  [Ev_open; Ev_message Unparsable; Ev_message (Json heartbeat); Ev_close].

(** A plan of three steps, named in the three ways the page knows. *)
Definition three_steps : list JsValue :=
  [JsObj [("instruction", JsStr "plan the module")];
   JsObj [("task", JsStr "write string_utils.py")];
   JsObj []].

(** The page once the second of the three steps is under way. *)
Definition planned : Webview.Page :=
  snd (Webview.on_message
         (stepUpdate (JsNum 1) (JsArr three_steps) (JsStr "code"))
         Webview.loaded).

(** A no-break space, U+00A0, in UTF-8. *)
Definition nbsp : string := String "194"%char (String "160"%char EmptyString).


(** The page with the review panel open and feedback typed into it. *)
Definition reviewing (feedback : string) (p : Webview.Page) : Webview.Page :=
  Webview.mkPage (Webview.isThinking p) (Webview.currentPlan p)
    (Webview.messageInput p) (Webview.empty_state p) (Webview.messages p)
    (Webview.progress_active p) (Webview.progressSteps p)
    (Webview.thinking_active p) (Webview.sendButton_disabled p) true
    [JsStr "string_utils.py"] feedback.

(** A sidebar whose backend cannot be reached. *)
Definition offline : World :=
  mkWorld (Some (mkView [])) None (Some [mkFolder "/home/dev/anagram"])
    [] [Rejected_request (mkError "Network Error")] [] [] 0.

(** A sidebar in review whose backend does not answer. *)
Definition review_unanswered : World :=
  mkWorld (Some (mkView [])) (Some "s-1") (Some [mkFolder "/home/dev/anagram"])
    [] [] [] [] 0.

(** A sidebar whose backend answers the start with an empty session id. *)
Definition nameless : World :=
  mkWorld (Some (mkView [])) None (Some [mkFolder "/home/dev/anagram"])
    [] [Response (mkSession "" "running" "Workflow started")]
    [] [Delivers [Ev_message (Json Samples.review_message)]] 0.

End Cases.

(** * Properties *)

(** ** Strings *)

Lemma strip_prefix_app (p rest : string) :
  strip_prefix p (p ++ rest)%string = Some rest.
Proof.
  induction p as [|a p IH]; simpl.
  - destruct rest; reflexivity.
  - rewrite Ascii.eqb_refl. exact IH.
Qed.

Lemma strip_prefix_Some (p s rest : string) :
  strip_prefix p s = Some rest -> s = (p ++ rest)%string.
Proof.
  revert s; induction p as [|a p IH]; intros s H; simpl in *.
  - injection H as ->. reflexivity.
  - destruct s as [|b s]; [discriminate|].
    destruct (Ascii.eqb_spec a b) as [->|]; [|discriminate].
    change (String b s = String b (p ++ rest)%string).
    f_equal. apply IH, H.
Qed.

Lemma strip_prefix_prefix (p s : string) :
  String.prefix p s = match strip_prefix p s with Some _ => true | None => false end.
Proof.
  revert s; induction p as [|a p IH]; intros s; simpl.
  - destruct s; reflexivity.
  - destruct s as [|b s]; [reflexivity|]. simpl.
    destruct (Ascii.eqb_spec a b) as [->|Hne].
    + destruct (ascii_dec b b); [apply IH | congruence].
    + destruct (ascii_dec a b); [congruence | reflexivity].
Qed.

Lemma substring_all (s : string) : String.substring 0 (String.length s) s = s.
Proof.
  induction s as [|a s IH]; simpl; [reflexivity | now rewrite IH].
Qed.

Lemma replace_leading_http_reference (s : string) :
  replace_leading_http s =
  if String.prefix "http" s
  then ("ws" ++ String.substring 4 (String.length s - 4) s)%string
  else s.
Proof.
  unfold replace_leading_http. rewrite strip_prefix_prefix.
  destruct (strip_prefix "http" s) as [rest|] eqn:E; [|reflexivity].
  apply strip_prefix_Some in E. subst s. simpl.
  rewrite Nat.sub_0_r, substring_all. reflexivity.
Qed.

Example replace_leading_http_https :
  replace_leading_http "https://api.example.com" = "wss://api.example.com".
Proof. reflexivity. Qed.

Example replace_leading_http_inner :
  replace_leading_http "proxy/http://host" = "proxy/http://host".
Proof. reflexivity. Qed.

Example replace_leading_http_case :
  replace_leading_http "HTTP://host" = "HTTP://host".
Proof. reflexivity. Qed.

Example trim_no_break_space :
  trim (String "194" (String "160" " add type hints ")
        ++ String "226" (String "128" (String "168" ""))) = "add type hints".
Proof. reflexivity. Qed.

Example trim_both_ends : trim "  add type hints
 " = "add type hints".
Proof. reflexivity. Qed.

(** ** The message listener of [connectWebSocket] *)

Section Listener.

Import BackendClient.

Variable rev : Revision.
Variable cbs : WebSocketCallbacks.

Lemma promise_invoke {A} (cb : option (A -> World -> World)) a label st :
  promise (fst (invoke cb a label st)) = promise (fst st) /\
  close_calls (fst (invoke cb a label st)) = close_calls (fst st).
Proof. destruct cb; simpl; auto. Qed.

Lemma promise_settle p c :
  promise (settle p c) = match promise c with Pending => p | q => q end.
Proof. unfold settle. destruct (promise c) eqn:E; simpl; congruence. Qed.

Lemma close_calls_settle p c : close_calls (settle p c) = close_calls c.
Proof. unfold settle. destruct (promise c); reflexivity. Qed.

Lemma type_cases (ty : string) : Reference.type_case ty.
Proof.
  destruct (String.eqb_spec ty "step_update");
    [now apply Reference.Is_step_update|].
  destruct (String.eqb_spec ty "review_required");
    [now apply Reference.Is_review_required|].
  destruct (String.eqb_spec ty "workflow_complete");
    [now apply Reference.Is_workflow_complete|].
  destruct (String.eqb_spec ty "error"); [now apply Reference.Is_error|].
  apply Reference.Is_other; now apply String.eqb_neq.
Qed.

Lemma dispatch_connection (m : WsMessage) (st : Connection * World) :
  promise (fst (dispatch cbs m st)) =
    match promise (fst st) with
    | Pending => Reference.outcome_of_message m
    | q => q
    end /\
  close_calls (fst (dispatch cbs m st)) =
    close_calls (fst st) +
    match Reference.outcome_of_message m with Pending => 0 | _ => 1 end.
Proof.
  unfold dispatch, Reference.outcome_of_message.
  destruct (msg_type m) as [ty|].
  2:{ split; [destruct (promise (fst st)); reflexivity | lia]. }
  destruct st as [c w].
  destruct (type_cases ty) as [->| ->| ->| ->|H1 H2 H3 H4]; simpl;
    rewrite ?H1, ?H2, ?H3, ?H4; unfold on_fst, invoke, ws_close; simpl.
  - destruct (onStepUpdate cbs); simpl;
      (split; [destruct (promise c); reflexivity | lia]).
  - destruct (onReviewRequired cbs); simpl;
      rewrite promise_settle, close_calls_settle; simpl; (split; [reflexivity | lia]).
  - destruct (onComplete cbs); simpl;
      rewrite promise_settle, close_calls_settle; simpl; (split; [reflexivity | lia]).
  - destruct (onError cbs); simpl;
      rewrite promise_settle, close_calls_settle; simpl; (split; [reflexivity | lia]).
  - split; [destruct (promise c); reflexivity | lia].
Qed.

Lemma on_event_connection (ev : WsEvent) (st : Connection * World) :
  promise (fst (on_event rev cbs ev st)) =
    match promise (fst st) with
    | Pending => Reference.first_settlement [ev]
    | q => q
    end /\
  close_calls (fst (on_event rev cbs ev st)) =
    close_calls (fst st) + Reference.settling_messages [ev].
Proof.
  destruct ev as [|[| |m]|e|]; simpl;
    try (split; [destruct (promise (fst st)); reflexivity | lia]).
  - destruct rev; simpl;
      (split; [destruct (promise (fst st)); reflexivity | lia]).
  - destruct rev; simpl;
      (split; [destruct (promise (fst st)); reflexivity | lia]).
  - destruct (dispatch_connection m st) as [Hp Hc]. rewrite Hp, Hc.
    destruct (Reference.outcome_of_message m);
      (split; [reflexivity | lia]).
  - unfold on_error, on_fst, invoke.
    destruct (onError cbs); simpl;
      rewrite promise_settle, close_calls_settle; simpl;
      (split; [reflexivity | lia]).
Qed.

Lemma first_settlement_cons (ev : WsEvent) (evs : list WsEvent) :
  Reference.first_settlement (ev :: evs) =
  match Reference.first_settlement [ev] with
  | Pending => Reference.first_settlement evs
  | q => q
  end.
Proof.
  destruct ev as [|[| |m]|e|]; simpl; try reflexivity.
  destruct (Reference.outcome_of_message m); reflexivity.
Qed.

Lemma settling_messages_cons (ev : WsEvent) (evs : list WsEvent) :
  Reference.settling_messages (ev :: evs) =
  Reference.settling_messages [ev] + Reference.settling_messages evs.
Proof.
  destruct ev as [|[| |m]|e|]; simpl; try reflexivity.
  destruct (Reference.outcome_of_message m); reflexivity.
Qed.

Lemma deliver_app (a b : list WsEvent) (st : Connection * World) :
  deliver rev cbs (a ++ b) st = deliver rev cbs b (deliver rev cbs a st).
Proof. unfold deliver. apply fold_left_app. Qed.

Lemma deliver_connection (evs : list WsEvent) (st : Connection * World) :
  promise (fst (deliver rev cbs evs st)) =
    match promise (fst st) with
    | Pending => Reference.first_settlement evs
    | q => q
    end /\
  close_calls (fst (deliver rev cbs evs st)) =
    close_calls (fst st) + Reference.settling_messages evs.
Proof.
  revert st; induction evs as [|ev evs IH]; intros st.
  - simpl. split; [destruct (promise (fst st)); reflexivity | lia].
  - change (deliver rev cbs (ev :: evs) st)
      with (deliver rev cbs evs (on_event rev cbs ev st)).
    destruct (IH (on_event rev cbs ev st)) as [Hp Hc].
    destruct (on_event_connection ev st) as [Hp1 Hc1].
    rewrite Hp, Hc, Hp1, Hc1, (first_settlement_cons ev evs),
      (settling_messages_cons ev evs).
    split; [|lia].
    destruct (promise (fst st)); try reflexivity.
Qed.

(** The trace of invocations only grows. *)
Lemma invoked_on_event (ev : WsEvent) (st : Connection * World) :
  exists more, invoked (fst (on_event rev cbs ev st)) = invoked (fst st) ++ more.
Proof.
  assert (Hs : forall p c, invoked (settle p c) = invoked c)
    by (intros p c; unfold settle; destruct (promise c); reflexivity).
  destruct ev as [|[| |m]|e|]; simpl;
    try (exists []; now rewrite app_nil_r).
  - destruct rev; exists []; now rewrite app_nil_r.
  - destruct rev; exists []; now rewrite app_nil_r.
  - unfold dispatch. destruct (msg_type m) as [ty|];
      [|exists []; now rewrite app_nil_r].
    unfold on_fst, invoke, ws_close.
    repeat match goal with
    | |- context [if ?b then _ else _] => destruct b
    | |- context [match ?cb with Some _ => _ | None => _ end] => destruct cb
    end; simpl; rewrite ?Hs; simpl;
      try (eexists; reflexivity); exists []; now rewrite app_nil_r.
  - unfold on_error, on_fst, invoke. destruct (onError cbs); simpl;
      rewrite Hs; simpl; [eexists; reflexivity | exists []; now rewrite app_nil_r].
Qed.

Lemma invoked_deliver (evs : list WsEvent) (st : Connection * World) :
  exists more, invoked (fst (deliver rev cbs evs st)) = invoked (fst st) ++ more.
Proof.
  revert st; induction evs as [|ev evs IH]; intros st.
  - exists []. simpl. now rewrite app_nil_r.
  - change (deliver rev cbs (ev :: evs) st)
      with (deliver rev cbs evs (on_event rev cbs ev st)).
    destruct (IH (on_event rev cbs ev st)) as [m2 H2].
    destruct (invoked_on_event ev st) as [m1 H1].
    exists (m1 ++ m2). rewrite H2, H1. now rewrite app_assoc.
Qed.

End Listener.

(** ** The callbacks of the sidebar only post to the view *)

Section Posts.

Import BackendClient SidebarProvider.

Lemma only_posts_refl (w : World) : Reference.only_posts w w.
Proof.
  unfold Reference.only_posts. repeat split.
  destruct (_view w); [exists []; now rewrite app_nil_r | exact I].
Qed.

Lemma only_posts_trans (w1 w2 w3 : World) :
  Reference.only_posts w1 w2 -> Reference.only_posts w2 w3 ->
  Reference.only_posts w1 w3.
Proof.
  unfold Reference.only_posts.
  intros (A1 & A2 & A3 & A4 & A5 & A6 & A7) (B1 & B2 & B3 & B4 & B5 & B6 & B7).
  repeat split; try congruence.
  destruct (_view w1), (_view w2), (_view w3); try contradiction; auto.
  destruct A7 as [x Hx], B7 as [y Hy]. exists (x ++ y).
  rewrite Hy, Hx. now rewrite app_assoc.
Qed.

Lemma only_posts_post_if_view (m : ViewMessage) (w : World) :
  Reference.only_posts w (post_if_view m w).
Proof.
  unfold Reference.only_posts, post_if_view.
  destruct (_view w) eqn:E; simpl; rewrite ?E; repeat split.
  now exists [m].
Qed.

Lemma only_posts_add_uncaught (w : World) :
  Reference.only_posts w (add_uncaught w).
Proof.
  unfold Reference.only_posts, add_uncaught; simpl. repeat split.
  destruct (_view w); [exists []; now rewrite app_nil_r | exact I].
Qed.

Lemma only_posts_invoke {A} (cb : option (A -> World -> World)) a label st :
  (forall f, cb = Some f -> Reference.only_posts (snd st) (f a (snd st))) ->
  Reference.only_posts (snd st) (snd (invoke cb a label st)).
Proof.
  intros H. unfold invoke. destruct cb; simpl;
    [now apply H | apply only_posts_refl].
Qed.

Lemma only_posts_on_event rev (ev : WsEvent) (st : Connection * World) :
  Reference.only_posts (snd st) (snd (on_event rev callbacks ev st)).
Proof.
  assert (P2 : forall m1 m2 w,
             Reference.only_posts w (post_if_view m2 (post_if_view m1 w))).
  { intros. eapply only_posts_trans; apply only_posts_post_if_view. }
  destruct ev as [|[| |m]|e|]; simpl; try apply only_posts_refl.
  - destruct rev; simpl; [apply only_posts_add_uncaught | apply only_posts_refl].
  - destruct rev; simpl; [apply only_posts_add_uncaught | apply only_posts_refl].
  - unfold dispatch. destruct (msg_type m) as [ty|]; [|apply only_posts_refl].
    repeat match goal with
    | |- context [if ?b then _ else _] => destruct b
    end; unfold on_fst; simpl; try apply only_posts_refl;
      try apply P2; apply only_posts_post_if_view.
  - unfold on_error, on_fst; simpl. apply P2.
Qed.

Lemma only_posts_deliver rev (evs : list WsEvent) (st : Connection * World) :
  Reference.only_posts (snd st) (snd (deliver rev callbacks evs st)).
Proof.
  revert st; induction evs as [|ev evs IH]; intros st.
  - apply only_posts_refl.
  - change (deliver rev callbacks (ev :: evs) st)
      with (deliver rev callbacks evs (on_event rev callbacks ev st)).
    eapply only_posts_trans; [apply only_posts_on_event | apply IH].
Qed.

End Posts.

(** ** [connectToWorkflow] *)

Section Connect.

Import BackendClient SidebarProvider.

Variable client : BackendClient.t.

Lemma open_socket_world (sessionId : string) (w : World) :
  Reference.only_posts (new_WebSocket client sessionId w)
    (snd (open_socket client sessionId callbacks w)).
Proof.
  unfold open_socket.
  destruct (ws_streams w) as [|[e|events] rest]; simpl;
    try apply only_posts_refl.
  apply (only_posts_deliver (revision client) events
           (fresh_connection, new_WebSocket client sessionId w)).
Qed.

Lemma await_world (p : PromiseState) (w : World) : snd (await p w) = w.
Proof. destruct p; reflexivity. Qed.

Lemma connectToWorkflow_skips (w : World) :
  session_of w = None \/ _view w = None ->
  connectToWorkflow client w = (Returned tt, w).
Proof.
  unfold connectToWorkflow, bind, get_world.
  intros [H|H]; rewrite H; [reflexivity|].
  destruct (session_of w); reflexivity.
Qed.

(** [connectToWorkflow] catches what [connectWebSocket] throws: it returns
    or stays suspended, and beyond asking for the socket it only posts. *)
Lemma connectToWorkflow_world (sessionId : string) (v : WebviewView) (w : World) :
  session_of w = Some sessionId -> _view w = Some v ->
  Reference.only_posts (new_WebSocket client sessionId w)
    (snd (connectToWorkflow client w)) /\
  (forall e, fst (connectToWorkflow client w) <> Thrown e).
Proof.
  intros Hs Hv. unfold connectToWorkflow, bind, get_world.
  rewrite Hs, Hv. unfold try_catch, connectWebSocket.
  pose proof (open_socket_world sessionId w) as Hw.
  destruct (open_socket client sessionId callbacks w) as [conn w1].
  simpl in *. destruct (promise conn) as [| |e]; simpl.
  - split; [exact Hw | discriminate].
  - split; [exact Hw | discriminate].
  - unfold modify, ret; simpl. split; [|discriminate].
    eapply only_posts_trans; [exact Hw|].
    eapply only_posts_trans; apply only_posts_post_if_view.
Qed.

End Connect.

(** ** The client API *)

Section ClientApi.

Import BackendClient SidebarProvider.

Lemma postMessage_view (m : ViewMessage) (w : World) (v : WebviewView) :
  _view w = Some v ->
  postMessage m w = (Returned tt, set_view (Some (mkView (posted v ++ [m]))) w).
Proof. intros H. unfold postMessage. now rewrite H. Qed.

(** One [postMessage] on a world that has a view. *)
Ltac post_step :=
  match goal with
  | |- context [postMessage ?m ?w0] =>
      let v0 := fresh "v" in
      evar (v0 : WebviewView);
      rewrite (postMessage_view m w0 v0 ltac:(subst v0; first [eassumption | reflexivity]));
      subst v0; cbv beta iota
  end.

Lemma post_log (path : string) (body : Body) (w : World) :
  http_log (snd (post path body w)) = http_log w ++ [mkRequest POST path body] /\
  _view (snd (post path body w)) = _view w /\
  currentSessionId (snd (post path body w)) = currentSessionId w /\
  workspaceFolders (snd (post path body w)) = workspaceFolders w /\
  sockets (snd (post path body w)) = sockets w /\
  ws_streams (snd (post path body w)) = ws_streams w.
Proof.
  unfold post. destruct (http_replies w) as [|[d|e] rest]; simpl;
    repeat split.
Qed.

(** C10: the socket of [connectWebSocket] is asked for at the base URL with
    a leading [http] (and only a leading one) replaced by [ws], followed by
    [/ws/] and the session id; an [https://] base gives a [wss://]
    endpoint, and a base that does not start with [http] is kept as it
    is. *)
Theorem wsUrl_endpoint (c : BackendClient.t) (sessionId : string) (w : World) :
  wsUrl c sessionId = Reference.ws_endpoint (baseUrl c) sessionId /\
  sockets (snd (connectWebSocket c sessionId callbacks w)) =
    sockets w ++ [wsUrl c sessionId] /\
  (forall host rev,
     wsUrl (BackendClient.mk ("https://" ++ host) rev) sessionId =
     ("wss://" ++ host ++ "/ws/" ++ sessionId)%string) /\
  (String.prefix "http" (baseUrl c) = false ->
     wsUrl c sessionId = (baseUrl c ++ "/ws/" ++ sessionId)%string).
Proof.
  split; [|split; [|split]].
  - unfold wsUrl, Reference.ws_endpoint.
    now rewrite replace_leading_http_reference.
  - unfold connectWebSocket. rewrite await_world.
    destruct (open_socket_world c sessionId w) as (_ & _ & _ & _ & H & _).
    rewrite H. reflexivity.
  - intros host rev. reflexivity.
  - intros H. unfold wsUrl. rewrite replace_leading_http_reference, H.
    reflexivity.
Qed.

Lemma wsUrl_endpoint_witness :
  String.prefix "http" "localhost:8000" = false /\
  wsUrl (BackendClient.mk "localhost:8000" Plain) "s-1" = "localhost:8000/ws/s-1".
Proof.
  split; [reflexivity|].
  apply (wsUrl_endpoint (BackendClient.mk "localhost:8000" Plain) "s-1"
           Samples.idle).
  reflexivity.
Defined.

(** C5: starting a workflow sends one POST to [/workflow/start] whose body
    carries the request text and the project context (the path of the first
    workspace folder), and a successful response yields the session whose
    [session_id] the sidebar keeps. *)
Theorem startWorkflow_request (c : BackendClient.t) (message : string)
    (w : World) (v : WebviewView) (folder : WorkspaceFolder)
    (others : list WorkspaceFolder) (data : WorkflowSession)
    (rest : list HttpReply) :
  _view w = Some v ->
  workspaceFolders w = Some (folder :: others) ->
  http_replies w = Response data :: rest ->
  let sent := mkRequest POST "/workflow/start"
                [("request", message); ("project_path", fsPath folder)] in
  startWorkflow c message (fsPath folder) w =
    (Returned data, set_http (http_log w ++ [sent]) rest w) /\
  http_log (snd (handleUserMessage c message w)) = http_log w ++ [sent] /\
  currentSessionId (snd (handleUserMessage c message w)) =
    Some (session_id data).
Proof.
  intros Hv Hf Hr sent.
  assert (Hstart : forall w0, http_replies w0 = Response data :: rest ->
            startWorkflow c message (fsPath folder) w0 =
            (Returned data, set_http (http_log w0 ++ [sent]) rest w0)).
  { intros w0 H0. unfold startWorkflow, try_catch, bind, post, ret.
    destruct (revision c); rewrite H0; reflexivity. }
  split; [now apply Hstart|].
  unfold handleUserMessage, bind, get_world. rewrite Hv.
  rewrite (postMessage_view _ _ _ Hv).
  set (w1 := set_view _ w).
  rewrite (postMessage_view _ w1 _ eq_refl).
  set (w2 := set_view _ w1).
  unfold try_catch, first_folder.
  change (workspaceFolders w2) with (workspaceFolders w). rewrite Hf.
  rewrite (Hstart w2 Hr). unfold modify.
  set (w3 := set_currentSessionId _ _).
  assert (Hskip : session_of w3 = None \/ exists sid, session_of w3 = Some sid)
    by (destruct (session_of w3); eauto).
  destruct Hskip as [Hn|[sid Hs]].
  - rewrite (connectToWorkflow_skips c w3 (or_introl Hn)). split; reflexivity.
  - destruct (connectToWorkflow_world c sid _ w3 Hs eq_refl)
      as [(H1 & _ & H3 & _) Hnot].
    destruct (connectToWorkflow c w3) as [[[]| e |] w4]; simpl in *.
    + now rewrite H1, H3.
    + now destruct (Hnot e).
    + now rewrite H1, H3.
Qed.

Lemma startWorkflow_request_witness :
  http_log
    (snd (handleUserMessage Samples.client "create anagram checker"
            Samples.idle)) =
  [mkRequest POST "/workflow/start"
     [("request", "create anagram checker");
      ("project_path", "/home/dev/anagram")]].
Proof.
  apply (startWorkflow_request Samples.client "create anagram checker"
           Samples.idle (mkView []) (mkFolder "/home/dev/anagram") []
           (mkSession "s-1" "running" "Workflow started") []);
    reflexivity.
Defined.

Lemma submitReview_result (c : BackendClient.t)
    (sessionId feedback action : string) (w : World) :
  BackendClient.submitReview c sessionId feedback action w =
  (match http_replies w with
   | Response _ :: _ => Returned tt
   | Rejected_request e :: _ => Thrown e
   | [] => Thrown (mkError "timeout of 30000ms exceeded")
   end,
   set_http
     (http_log w ++
      [mkRequest POST "/workflow/review"
         [("session_id", sessionId); ("feedback", feedback);
          ("action", action)]])
     (tail (http_replies w)) w).
Proof.
  unfold BackendClient.submitReview, try_catch, bind, post, ret, throw.
  destruct (revision c), (http_replies w) as [|[d|e] rest]; reflexivity.
Qed.

(** What a review submission does to the network: one POST, and a new
    socket exactly when a revision was asked for and acknowledged. *)
Lemma handleReviewSubmission_network (c : BackendClient.t)
    (feedback : string) (action : Action) (sessionId : string)
    (v : WebviewView) (w : World) :
  session_of w = Some sessionId -> _view w = Some v ->
  let w' := snd (handleReviewSubmission c feedback action w) in
  http_log w' =
    http_log w ++
    [mkRequest POST "/workflow/review"
       [("session_id", sessionId); ("feedback", feedback);
        ("action", action_text action)]] /\
  sockets w' =
    match action, http_replies w with
    | revise, Response _ :: _ => sockets w ++ [wsUrl c sessionId]
    | _, _ => sockets w
    end.
Proof.
  intros Hs Hv. unfold handleReviewSubmission, bind, get_world.
  rewrite Hs, Hv. unfold try_catch.
  rewrite submitReview_result.
  set (w1 := set_http _ _ w).
  assert (Hv1 : _view w1 = Some v) by exact Hv.
  assert (Hs1 : session_of w1 = Some sessionId) by exact Hs.
  destruct (http_replies w) as [|[d|e] rest]; cbv beta iota.
  - repeat post_step. simpl. split; [reflexivity | now destruct action].
  - destruct action.
    + repeat post_step. simpl. split; reflexivity.
    + repeat post_step.
      match goal with |- context [connectToWorkflow c ?w0] => set (w3 := w0) end.
      destruct (connectToWorkflow_world c sessionId _ w3 Hs1 eq_refl)
        as [(_ & _ & H3 & _ & H5 & _) Hnot].
      destruct (connectToWorkflow c w3) as [[[]| e |] w4]; simpl in *.
      * now rewrite H3, H5.
      * now destruct (Hnot e).
      * now rewrite H3, H5.
  - repeat post_step. simpl. split; [reflexivity | now destruct action].
Qed.

(** C6: a review submission sends one POST to [/workflow/review] whose body
    has exactly the fields [session_id], [feedback] and [action], the
    action being [approve] or [revise]. *)
Theorem review_request_body (c : BackendClient.t) (feedback : string)
    (action : Action) (sessionId : string) (v : WebviewView) (w : World) :
  session_of w = Some sessionId -> _view w = Some v ->
  exists a : string,
    http_log (snd (handleReviewSubmission c feedback action w)) =
      http_log w ++
      [mkRequest POST "/workflow/review"
         [("session_id", sessionId); ("feedback", feedback); ("action", a)]] /\
    (a = "approve" \/ a = "revise").
Proof.
  intros Hs Hv. exists (action_text action). split.
  - apply (handleReviewSubmission_network c feedback action sessionId v w Hs Hv).
  - destruct action; auto.
Qed.

Lemma review_request_body_witness :
  exists a : string,
    http_log (snd (handleReviewSubmission Samples.client "add type hints"
                     revise Samples.in_review)) =
      [mkRequest POST "/workflow/review"
         [("session_id", "s-1"); ("feedback", "add type hints");
          ("action", a)]] /\
    (a = "approve" \/ a = "revise").
Proof.
  apply (review_request_body Samples.client "add type hints" revise "s-1"
           (mkView []) Samples.in_review); reflexivity.
Defined.

(** C8: a user message sent while no workspace folder is open is rejected
    before any session exists: nothing is sent to the backend (so the start
    endpoint is never called), no socket is asked for, no session id is
    kept, and the view is told the error. *)
Theorem no_workspace_rejected (c : BackendClient.t) (message : string)
    (v : WebviewView) (w : World) :
  _view w = Some v -> first_folder w = None ->
  let w' := snd (onDidReceiveMessage c (sendMessage message) w) in
  fst (onDidReceiveMessage c (sendMessage message) w) = Returned tt /\
  http_log w' = http_log w /\
  sockets w' = sockets w /\
  currentSessionId w' = currentSessionId w /\
  _view w' =
    Some (mkView (posted v ++
                  [addMessage "user" message; setThinking true;
                   error "Please open a workspace folder first";
                   setThinking false])).
Proof.
  intros Hv Hf. unfold onDidReceiveMessage, handleUserMessage, bind, get_world.
  rewrite Hv. repeat post_step. unfold try_catch.
  match goal with
  | |- context [first_folder ?w0] => change (first_folder w0) with (first_folder w)
  end.
  rewrite Hf. unfold throw. repeat post_step. simpl.
  repeat split. now rewrite <- !app_assoc.
Qed.

Lemma no_workspace_rejected_witness :
  http_log
    (snd (onDidReceiveMessage Samples.client
            (sendMessage "create anagram checker") Samples.no_workspace)) = [] /\
  _view
    (snd (onDidReceiveMessage Samples.client
            (sendMessage "create anagram checker") Samples.no_workspace)) =
  Some (mkView [addMessage "user" "create anagram checker"; setThinking true;
                error "Please open a workspace folder first";
                setThinking false]).
Proof.
  pose proof (no_workspace_rejected Samples.client "create anagram checker"
                (mkView []) Samples.no_workspace eq_refl eq_refl) as H.
  split; apply H.
Defined.

End ClientApi.

(** ** The push channel *)

Section PushChannel.

Import BackendClient SidebarProvider.

Lemma invoked_settle p c : invoked (settle p c) = invoked c.
Proof. unfold settle. destruct (promise c); reflexivity. Qed.

(** A message whose [type] is none of the four is ignored. *)
Lemma dispatch_other rev cbs (m : WsMessage) (st : Connection * World) :
  (forall ty, msg_type m = Some ty ->
     ~ In ty ["step_update"; "review_required"; "workflow_complete"; "error"]) ->
  on_message rev cbs (Json m) st = st.
Proof.
  intros H. simpl. unfold dispatch.
  destruct (msg_type m) as [ty|]; [|reflexivity].
  specialize (H ty eq_refl). simpl in H.
  destruct (type_cases ty) as [->| ->| ->| ->|H1 H2 H3 H4];
    try (exfalso; apply H; auto 6; fail).
  now rewrite H1, H2, H3, H4.
Qed.

(** C7: the events of the push channel are of the four kinds
    [step_update], [review_required], [workflow_complete] and [error], and
    a received message of one of these types is handed to the callback of
    that kind ([onStepUpdate], [onReviewRequired], [onComplete], [onError]),
    when the caller supplied it, and to no other. *)
Theorem push_dispatch (rev : Revision) (cbs : WebSocketCallbacks)
    (e : Engine.Event) (m : WsMessage) (conn : Connection) (w : World) :
  msg_type m = Some (Engine.wire_type e) ->
  In (Engine.wire_type e)
     ["step_update"; "review_required"; "workflow_complete"; "error"] /\
  let st := on_message rev cbs (Json m) (conn, w) in
  match Reference.callback_for cbs e with
  | Some f =>
      invoked (fst st) = invoked conn ++ [Reference.expected_invocation e m] /\
      snd st = f m w
  | None => invoked (fst st) = invoked conn /\ snd st = w
  end.
Proof.
  intros H. split; [destruct e; simpl; auto|].
  simpl. unfold dispatch. rewrite H.
  destruct e; simpl; unfold on_fst, invoke, ws_close; simpl.
  - destruct (onStepUpdate cbs); simpl; auto.
  - destruct (onReviewRequired cbs); simpl; rewrite invoked_settle; auto.
  - destruct (onComplete cbs); simpl; rewrite invoked_settle; auto.
  - destruct (onError cbs); simpl; rewrite invoked_settle; auto.
Qed.

Lemma push_dispatch_witness :
  invoked
    (fst (on_message Logging callbacks (Json Samples.review_message)
            (fresh_connection, Samples.in_review))) =
  [Called_onReviewRequired Samples.review_message] /\
  _view
    (snd (on_message Logging callbacks (Json Samples.review_message)
            (fresh_connection, Samples.in_review))) =
  Some (mkView [reviewRequired (plan Samples.review_message)
                  (generated_files Samples.review_message);
                setThinking false]).
Proof.
  destruct (push_dispatch Logging callbacks
              (Engine.review_required
                 (Engine.mkState "t-1" "" [] ∅ [] Engine.Review 0 true None
                    Engine.PAUSED 3 0))
              Samples.review_message fresh_connection Samples.in_review
              eq_refl) as [_ [Hi Hw]].
  split; [exact Hi | now rewrite Hw].
Defined.




Lemma dispatch_error cbs (m : WsMessage) (st : Connection * World) :
  msg_type m = Some "error" ->
  dispatch cbs m st =
  on_fst (settle (Rejected (new_Error (msg_message m))))
    (on_fst ws_close
       (invoke (onError cbs) (Err_message m)
               (Called_onError (Err_message m)) st)).
Proof. intros H. unfold dispatch. now rewrite H. Qed.

Lemma only_posts_view (w w' : World) (v : WebviewView) :
  Reference.only_posts w w' -> _view w = Some v ->
  exists v', _view w' = Some v' /\ exists extra, posted v' = posted v ++ extra.
Proof.
  intros (_ & _ & _ & _ & _ & _ & H) Hv. rewrite Hv in H.
  destruct (_view w') as [v'|]; [|contradiction]. eauto.
Qed.

(** C4: an error reported on the push channel is never dropped by the
    client.  When a message of type [error] arrives while the promise of
    the connection is pending, [onError] is invoked with it, the promise is
    rejected, and the view is sent the error message (and then the
    connection error raised by the rejection). *)
Theorem error_message_reported (c : BackendClient.t) (sessionId : string)
    (v : WebviewView) (w : World) (before after : list WsEvent)
    (m : WsMessage) (rest : list Socket) :
  session_of w = Some sessionId ->
  _view w = Some v ->
  ws_streams w = Delivers (before ++ Ev_message (Json m) :: after) :: rest ->
  msg_type m = Some "error" ->
  Reference.first_settlement before = Pending ->
  In (Called_onError (Err_message m))
     (invoked (fst (open_socket c sessionId callbacks w))) /\
  promise (fst (open_socket c sessionId callbacks w)) =
    Rejected (new_Error (msg_message m)) /\
  fst (connectToWorkflow c w) = Returned tt /\
  exists v',
    _view (snd (connectToWorkflow c w)) = Some v' /\
    In (error (or_default (msg_message m) "An error occurred")) (posted v') /\
    In (error ("Connection error: " ++
               err_message (new_Error (msg_message m)))%string) (posted v').
Proof.
  intros Hs Hv Hws Hty Hpre.
  set (w0 := new_WebSocket c sessionId w).
  set (rev := revision c).
  set (st1 := deliver rev callbacks before (fresh_connection, w0)).
  set (st2 := on_event rev callbacks (Ev_message (Json m)) st1).
  assert (Hopen : open_socket c sessionId callbacks w =
                  deliver rev callbacks after st2).
  { unfold open_socket. rewrite Hws. fold w0. fold rev.
    now rewrite deliver_app. }
  (* before the message *)
  destruct (deliver_connection rev callbacks before (fresh_connection, w0))
    as [Hp1 _]. fold st1 in Hp1. simpl in Hp1. rewrite Hpre in Hp1.
  pose proof (only_posts_deliver rev before (fresh_connection, w0)) as Ho1.
  fold st1 in Ho1. simpl in Ho1.
  destruct (only_posts_view w0 (snd st1) v Ho1 Hv) as (v1 & Hv1 & x1 & Hx1).
  (* the message *)
  assert (H2 : invoked (fst st2) =
               invoked (fst st1) ++ [Called_onError (Err_message m)] /\
               promise (fst st2) = Rejected (new_Error (msg_message m)) /\
               snd st2 =
                 post_if_view (setThinking false)
                   (post_if_view
                      (error (or_default (msg_message m) "An error occurred"))
                      (snd st1))).
  { unfold st2. simpl. rewrite (dispatch_error callbacks m st1 Hty).
    unfold on_fst; simpl. rewrite invoked_settle, promise_settle. simpl.
    rewrite Hp1. auto. }
  destruct H2 as (Hi2 & Hp2 & Hw2).
  assert (Hv2 : _view (snd st2) =
                Some (mkView ((posted v1 ++
                  [error (or_default (msg_message m) "An error occurred")]) ++
                  [setThinking false]))).
  { rewrite Hw2. unfold post_if_view at 2. rewrite Hv1. reflexivity. }
  (* after the message *)
  destruct (deliver_connection rev callbacks after st2) as [Hp3 _].
  rewrite Hp2 in Hp3.
  destruct (invoked_deliver rev callbacks after st2) as [more Hi3].
  pose proof (only_posts_deliver rev after st2) as Ho3.
  destruct (only_posts_view _ _ _ Ho3 Hv2) as (v3 & Hv3 & x3 & Hx3).
  simpl in Hx3.
  rewrite Hopen. split; [|split].
  - rewrite Hi3, Hi2. apply in_or_app. left. apply in_or_app. right. now left.
  - exact Hp3.
  - unfold connectToWorkflow, bind, get_world. rewrite Hs, Hv.
    unfold try_catch, connectWebSocket. rewrite Hopen, Hp3. simpl.
    unfold modify, post_if_view at 2. rewrite Hv3. simpl.
    split; [reflexivity|]. eexists. split; [reflexivity|]. simpl.
    rewrite Hx3. split.
    + apply in_or_app. left. apply in_or_app. left. apply in_or_app. left.
      apply in_or_app. left. apply in_or_app. right. now left.
    + apply in_or_app. left. apply in_or_app. right. now left.
Qed.

Lemma error_message_reported_witness :
  exists v',
    _view (snd (connectToWorkflow Samples.client Samples.in_review)) = Some v' /\
    In (error "step limit exceeded") (posted v') /\
    In (error "Connection error: step limit exceeded") (posted v').
Proof.
  destruct (error_message_reported Samples.client "s-1" (mkView [])
              Samples.in_review
              [Ev_open; Ev_message (Json Samples.step_message)] [Ev_close]
              Samples.error_message [] eq_refl eq_refl eq_refl eq_refl eq_refl)
    as (_ & _ & _ & H).
  exact H.
Defined.

End PushChannel.

(** ** The execution loop of the engine *)

Section EngineLoop.

Import Engine.

Variable max_node_executions : nat.
Variable deadline : nat.
Variable clock : nat -> nat.
Variable capability : Stage -> WorkflowState -> WorkflowState * Routing.
Variable thread : string.

(** With the fuel [fuel_for] gives, the loop always comes to a result. *)
Lemma loop_total (fuel : nat) route s store evs execs :
  S (max_node_executions - node_execution_count s) <= fuel ->
  exists run,
    loop max_node_executions deadline clock capability fuel thread route s
      store evs execs = Some run.
Proof.
  revert route s store evs execs.
  induction fuel as [|fuel IH]; intros route s store evs execs Hf; [lia|].
  simpl.
  destruct (deadline <? clock (node_execution_count s))%nat; [eauto|].
  destruct (Nat.leb_spec max_node_executions (node_execution_count s)) as [|Hlt];
    [eauto|].
  destruct (snd (run_stage capability route s)) as [stage| |[|]]; eauto.
  apply IH. simpl. lia.
Qed.

(** The node executions recorded so far stay in front. *)
Lemma loop_executions_prefix (fuel : nat) route s store evs execs run :
  loop max_node_executions deadline clock capability fuel thread route s
    store evs execs = Some run ->
  exists more, executions run = execs ++ more.
Proof.
  revert route s store evs execs.
  induction fuel as [|fuel IH]; intros route s store evs execs H;
    [discriminate|].
  simpl in H.
  destruct (deadline <? clock (node_execution_count s))%nat.
  { injection H as <-. exists []. simpl. now rewrite app_nil_r. }
  destruct (max_node_executions <=? node_execution_count s)%nat.
  { injection H as <-. exists []. simpl. now rewrite app_nil_r. }
  destruct (snd (run_stage capability route s)) as [stage| |[|]];
    try (injection H as <-; simpl; eauto; fail).
  apply IH in H. destruct H as [more H]. rewrite H, <- app_assoc. eauto.
Qed.

(** A call never carries out more node executions than the ceiling leaves
    room for. *)
Lemma loop_executions_bound (fuel : nat) route s store evs execs run :
  loop max_node_executions deadline clock capability fuel thread route s
    store evs execs = Some run ->
  List.length (executions run) <=
  List.length execs + (max_node_executions - node_execution_count s).
Proof.
  revert route s store evs execs.
  induction fuel as [|fuel IH]; intros route s store evs execs H;
    [discriminate|].
  simpl in H.
  destruct (deadline <? clock (node_execution_count s))%nat.
  { injection H as <-. simpl. lia. }
  destruct (Nat.leb_spec max_node_executions (node_execution_count s)) as [|Hlt].
  { injection H as <-. simpl. lia. }
  destruct (snd (run_stage capability route s)) as [stage| |[|]];
    try (injection H as <-; simpl; rewrite length_app; simpl; lia).
  apply IH in H. rewrite length_app in H. simpl in H. lia.
Qed.

(** One node execution that governance lets through. *)
Lemma loop_first_execution (fuel : nat) route s store evs execs run :
  (clock (node_execution_count s) <= deadline)%nat ->
  (node_execution_count s < max_node_executions)%nat ->
  loop max_node_executions deadline clock capability fuel thread route s
    store evs execs = Some run ->
  exists more, executions run = execs ++ (active_stage s, s) :: more.
Proof.
  intros Hc Hn H. destruct fuel as [|fuel]; [discriminate|]. simpl in H.
  destruct (Nat.ltb_spec deadline (clock (node_execution_count s))); [lia|].
  destruct (Nat.leb_spec max_node_executions (node_execution_count s)); [lia|].
  destruct (snd (run_stage capability route s)) as [stage| |[|]];
    try (injection H as <-; simpl; eauto; fail).
  apply loop_executions_prefix in H. destruct H as [more H].
  rewrite H, <- app_assoc. eauto.
Qed.

Lemma loop_next (fuel : nat) route s store evs execs s' stage :
  (clock (node_execution_count s) <= deadline)%nat ->
  (node_execution_count s < max_node_executions)%nat ->
  run_stage capability route s = (s', NEXT stage) ->
  loop max_node_executions deadline clock capability (S fuel) thread route s
    store evs execs =
  loop max_node_executions deadline clock capability fuel thread None
    (with_active_stage stage (with_count (S (node_execution_count s)) s'))
    (snd (append thread (with_count (S (node_execution_count s)) s') store))
    (evs ++ [step_update (with_count (S (node_execution_count s)) s')])
    (execs ++ [(active_stage s, s)]).
Proof.
  intros Hc Hn Hr. simpl.
  destruct (Nat.ltb_spec deadline (clock (node_execution_count s))); [lia|].
  destruct (Nat.leb_spec max_node_executions (node_execution_count s)); [lia|].
  now rewrite Hr.
Qed.


(** Every call ends with the event of its outcome; in particular a call
    that ends FAILED or TIMED_OUT has emitted an error event last. *)
Lemma loop_last_event (fuel : nat) route s store evs execs run :
  loop max_node_executions deadline clock capability fuel thread route s
    store evs execs = Some run ->
  match status (final run) with
  | RUNNING => False
  | PAUSED => last (events run) = Some (review_required (final run))
  | COMPLETED => last (events run) = Some (workflow_complete (final run))
  | FAILED | TIMED_OUT =>
      exists message, last (events run) = Some (error_event message)
  end.
Proof.
  revert route s store evs execs.
  induction fuel as [|fuel IH]; intros route s store evs execs H;
    [discriminate|].
  simpl in H.
  destruct (deadline <? clock (node_execution_count s))%nat.
  { injection H as <-. simpl. rewrite last_snoc. eauto. }
  destruct (max_node_executions <=? node_execution_count s)%nat.
  { injection H as <-. simpl. rewrite last_snoc. eauto. }
  destruct (snd (run_stage capability route s)) as [stage| |[|]];
    try (injection H as <-; simpl; rewrite last_snoc; eauto; fail).
  now apply IH in H.
Qed.

(** A thread that would go on beyond the ceiling: under any other ceiling
    [other] the same call carries out more executions than the ceiling
    leaves room for.  Then the call halts with FAILED, exactly when the room
    is used up. *)
Lemma loop_ceiling (other fuel fuel' : nat) route s store evs execs run' :
  (node_execution_count s <= max_node_executions)%nat ->
  (S (max_node_executions - node_execution_count s) <= fuel)%nat ->
  loop other deadline clock capability fuel' thread route s store evs execs
    = Some run' ->
  (List.length execs + (max_node_executions - node_execution_count s)
   < List.length (executions run'))%nat ->
  exists run,
    loop max_node_executions deadline clock capability fuel thread route s
      store evs execs = Some run /\
    status (final run) = FAILED /\
    halted_by_governance run = true /\
    node_execution_count (final run) = max_node_executions /\
    List.length (executions run) =
      List.length execs + (max_node_executions - node_execution_count s) /\
    last (events run) = Some (error_event "step limit exceeded").
Proof.
  revert fuel' route s store evs execs.
  induction fuel as [|fuel IH]; intros fuel' route s store evs execs Hle Hf H' Hlen;
    [lia|].
  destruct fuel' as [|fuel']; [discriminate|]. simpl in H'. simpl.
  destruct (deadline <? clock (node_execution_count s))%nat.
  { injection H' as <-. simpl in Hlen. lia. }
  destruct (Nat.leb_spec max_node_executions (node_execution_count s)) as [Hge|Hlt].
  { eexists. split; [reflexivity|]. simpl.
    repeat split; try lia. now rewrite last_snoc. }
  destruct (other <=? node_execution_count s)%nat.
  { injection H' as <-. simpl in Hlen. lia. }
  destruct (snd (run_stage capability route s)) as [stage| |[|]];
    try (injection H' as <-; simpl in Hlen; rewrite length_app in Hlen;
         simpl in Hlen; lia).
  apply IH in H' as (run & Hrun & Hst & Hh & Hc & Hl & He);
    [| simpl; lia | simpl; lia | rewrite length_app; simpl in *; lia].
  simpl in Hl. exists run. rewrite Hrun, Hl, length_app. simpl.
  repeat split; auto; lia.
Qed.

End EngineLoop.

(** ** The life of a thread *)

Section ThreadLife.

Import Engine.

Variable deadline : nat.
Variable clock : nat -> nat.
Variable capability : Stage -> WorkflowState -> WorkflowState * Routing.
Variable thread : string.

Lemma recorded_insert (s : WorkflowState) (seq : nat)
    (log : list Checkpoint) (store : gmap string (list Checkpoint)) :
  Reference.recorded thread
    (<[thread := log ++ [mkCheckpoint thread seq s]]> store) =
  node_execution_count s.
Proof.
  unfold Reference.recorded, latest, history.
  rewrite lookup_insert_eq. simpl. now rewrite last_snoc.
Qed.

Lemma recorded_append (s : WorkflowState)
    (store : gmap string (list Checkpoint)) :
  Reference.recorded thread (snd (append thread s store)) =
  node_execution_count s.
Proof. apply recorded_insert. Qed.

(** The engine counts on record what it carries out: after a call the
    latest checkpoint and the state the call ends in both stand at the count
    the call began with plus its node executions. *)
Lemma loop_recorded (N fuel : nat) route s store evs execs run :
  loop N deadline clock capability fuel thread route s store evs execs
    = Some run ->
  Reference.recorded thread store = node_execution_count s ->
  exists more,
    executions run = execs ++ more /\
    node_execution_count (final run) =
      node_execution_count s + List.length more /\
    Reference.recorded thread (store_after run) =
      node_execution_count s + List.length more.
Proof.
  revert route s store evs execs run.
  induction fuel as [|fuel IH]; intros route s store evs execs run H Hrec;
    [discriminate|].
  cbn [loop] in H.
  destruct (deadline <? clock (node_execution_count s))%nat.
  { injection H as <-. exists []. simpl. rewrite app_nil_r. repeat split; lia. }
  destruct (N <=? node_execution_count s)%nat.
  { injection H as <-. exists []. simpl. rewrite app_nil_r. repeat split; lia. }
  destruct (snd (run_stage capability route s)) as [stage| |[|]];
    try (injection H as <-; exists [(active_stage s, s)];
         split; [reflexivity|]; split; [simpl; lia|];
         simpl; rewrite recorded_insert; simpl; lia).
  apply IH in H as (more & Hex & Hc & Hr);
    [|now rewrite recorded_append].
  exists ((active_stage s, s) :: more). rewrite Hex, <- app_assoc.
  simpl in *. repeat split; lia.
Qed.

(** Two ceilings give the same call as long as the lower one leaves room
    for what the call carries out. *)
Lemma loop_agree (N other fuel fuel' : nat) route s store evs execs run' :
  (N <= other)%nat ->
  (node_execution_count s <= N)%nat ->
  (S (N - node_execution_count s) <= fuel)%nat ->
  loop other deadline clock capability fuel' thread route s store evs execs
    = Some run' ->
  (List.length (executions run') <=
   List.length execs + (N - node_execution_count s))%nat ->
  loop N deadline clock capability fuel thread route s store evs execs
    = Some run'.
Proof.
  intros Hle. revert fuel' route s store evs execs.
  induction fuel as [|fuel IH]; intros fuel' route s store evs execs Hs Hf H' Hlen;
    [lia|].
  destruct fuel' as [|fuel']; [discriminate|]. simpl in H'. simpl.
  destruct (deadline <? clock (node_execution_count s))%nat; [exact H'|].
  destruct (Nat.leb_spec other (node_execution_count s)) as [Hge|Hlt].
  { destruct (Nat.leb_spec N (node_execution_count s)); [exact H' | lia]. }
  destruct (Nat.leb_spec N (node_execution_count s)) as [Hge'|Hlt'].
  { exfalso.
    destruct (snd (run_stage capability route s)) as [stage| |[|]];
      try (injection H' as <-; simpl in Hlen; rewrite length_app in Hlen;
           simpl in Hlen; lia).
    apply loop_executions_prefix in H' as [more H'].
    rewrite H', !length_app in Hlen. simpl in Hlen. lia. }
  destruct (snd (run_stage capability route s)) as [stage| |[|]];
    try exact H'.
  apply (IH fuel'); try (simpl; lia); [exact H'|].
  rewrite length_app. simpl. lia.
Qed.

Section Ceilings.

Variable N : nat.

(** No review makes a thread carry out more than the ceiling leaves. *)
Lemma resumes_bound (reviews : list (ReviewRoute * string))
    (store : gmap string (list Checkpoint)) :
  (Reference.carried_out
     (resumes N deadline clock capability thread reviews store) <=
   N - Reference.recorded thread store)%nat.
Proof.
  revert store. induction reviews as [|[route feedback] rest IH]; intros store;
    [simpl; lia|].
  simpl. unfold resume.
  destruct (latest thread store) as [cp|] eqn:Hl; [|apply IH].
  destruct (status (snapshot cp)) eqn:Hst; try apply IH.
  set (s := inject feedback (snapshot cp)).
  assert (Hrec : Reference.recorded thread store = node_execution_count s)
    by (unfold Reference.recorded; now rewrite Hl).
  destruct (loop N deadline clock capability (fuel_for N s) thread
              (Some route) s store [] []) as [run|] eqn:E; [|apply IH].
  simpl.
  pose proof (loop_executions_bound N deadline clock capability thread _ _ _ _
                _ _ _ E) as Hb.
  destruct (loop_recorded N _ _ _ _ _ _ _ E Hrec) as (more & Hex & _ & Hr).
  specialize (IH (store_after run)). rewrite Hr in IH.
  simpl in Hex. subst more. rewrite Hrec. simpl length in Hb. lia.
Qed.

Lemma life_bound (s0 : WorkflowState) (reviews : list (ReviewRoute * string))
    (store : gmap string (list Checkpoint)) :
  history thread store = [] ->
  node_execution_count s0 = 0 ->
  (Reference.carried_out
     (life N deadline clock capability thread s0 reviews store) <= N)%nat.
Proof.
  intros Hh H0. unfold life, start.
  destruct (status s0); try (simpl; lia).
  set (s := with_active_stage Entry s0).
  assert (Hrec : Reference.recorded thread store = node_execution_count s)
    by (unfold Reference.recorded, latest; now rewrite Hh).
  destruct (loop N deadline clock capability (fuel_for N s) thread None s
              store [] []) as [run|] eqn:E; [|simpl; lia].
  cbn [option_map Reference.carried_out].
  pose proof (loop_executions_bound N deadline clock capability thread _ _ _ _
                _ _ _ E) as Hb.
  destruct (loop_recorded N _ _ _ _ _ _ _ E Hrec) as (more & Hex & _ & Hr).
  pose proof (resumes_bound reviews (store_after run)) as Hres.
  rewrite Hr in Hres. simpl in Hex. subst more. simpl length in Hb.
  assert (Hs : node_execution_count s = 0) by exact H0.
  lia.
Qed.

End Ceilings.

Lemma halts_after_cons (N room : nat) (run : Run) (runs : list Run) :
  Reference.halts_after N room runs ->
  Reference.halts_after N (List.length (executions run) + room) (run :: runs).
Proof.
  intros (before & r & after & -> & Hst & Hh & He & Hn & Hc & Ht).
  exists (run :: before), r, after. simpl in *. repeat split; auto; lia.
Qed.

Lemma call_ceiling (N other : nat) route s store
    (rest : list (ReviewRoute * string)) run' :
  (N <= other)%nat ->
  Reference.recorded thread store = node_execution_count s ->
  (node_execution_count s <= N)%nat ->
  loop other deadline clock capability (fuel_for other s) thread route s
    store [] [] = Some run' ->
  (forall store',
     (Reference.recorded thread store' <= N)%nat ->
     (N - Reference.recorded thread store' <
      Reference.carried_out
        (resumes other deadline clock capability thread rest store'))%nat ->
     Reference.halts_after N (N - Reference.recorded thread store')
       (resumes N deadline clock capability thread rest store')) ->
  (N - node_execution_count s <
   List.length (executions run') +
   Reference.carried_out
     (resumes other deadline clock capability thread rest (store_after run')))%nat ->
  exists run,
    loop N deadline clock capability (fuel_for N s) thread route s store [] []
      = Some run /\
    Reference.halts_after N (N - node_execution_count s)
      (run :: resumes N deadline clock capability thread rest (store_after run)).
Proof.
  intros Hle Hrec Hs E' IH Hlen.
  destruct (Nat.le_gt_cases (List.length (executions run'))
              (N - node_execution_count s)) as [Hfit|Hout].
  - (* the call fits under the ceiling: it is the same call *)
    pose proof (loop_agree N other (fuel_for N s) _ _ _ _ _ _ _ Hle Hs
                  ltac:(unfold fuel_for; lia) E' ltac:(simpl; lia)) as E.
    destruct (loop_recorded other _ _ _ _ _ _ _ E' Hrec)
      as (more & Hex & _ & Hr).
    simpl in Hex. subst more.
    exists run'. split; [exact E|].
    replace (N - node_execution_count s)
      with (List.length (executions run') +
            (N - Reference.recorded thread (store_after run'))) by lia.
    apply halts_after_cons, IH; lia.
  - (* the call goes beyond: it is refused at the ceiling *)
    destruct (loop_ceiling N deadline clock capability thread other
                (fuel_for N s) _ _ _ _ _ _ run' Hs
                ltac:(unfold fuel_for; lia) E' ltac:(simpl; lia))
      as (run & E & Hst & Hh & Hc & Hl & He).
    exists run. split; [exact E|].
    destruct (loop_recorded N _ _ _ _ _ _ _ E Hrec) as (more & Hex & _ & Hr).
    simpl in Hex, Hl. subst more.
    pose proof (resumes_bound N rest (store_after run)) as Hb.
    rewrite Hr, Hl in Hb.
    exists [], run, (resumes N deadline clock capability thread rest
                       (store_after run)).
    simpl. rewrite Hl. repeat split; auto; lia.
Qed.

(** A thread whose reviews would take it beyond the ceiling halts at the
    ceiling. *)
Lemma resumes_ceiling (N other : nat) (reviews : list (ReviewRoute * string))
    (store : gmap string (list Checkpoint)) :
  (N <= other)%nat ->
  (Reference.recorded thread store <= N)%nat ->
  (N - Reference.recorded thread store <
   Reference.carried_out
     (resumes other deadline clock capability thread reviews store))%nat ->
  Reference.halts_after N (N - Reference.recorded thread store)
    (resumes N deadline clock capability thread reviews store).
Proof.
  intros Hle. revert store.
  induction reviews as [|[route feedback] rest IH]; intros store Hk Hlen;
    [simpl in Hlen; lia|].
  simpl in *. unfold resume in *.
  destruct (latest thread store) as [cp|] eqn:Hl; [|now apply IH].
  destruct (status (snapshot cp)) eqn:Hst; try (now apply IH).
  set (s := inject feedback (snapshot cp)) in *.
  assert (Hrec : Reference.recorded thread store = node_execution_count s)
    by (unfold Reference.recorded; now rewrite Hl).
  destruct (loop_total other deadline clock capability thread
              (fuel_for other s) (Some route) s store [] []
              ltac:(unfold fuel_for; lia)) as [run' E'].
  rewrite E' in Hlen. simpl in Hlen.
  destruct (call_ceiling N other (Some route) s store rest run' Hle Hrec
              ltac:(lia) E' IH ltac:(lia)) as (run & E & Hhalt).
  rewrite E. simpl. now rewrite Hrec.
Qed.

Lemma life_ceiling (N other : nat) (s0 : WorkflowState)
    (reviews : list (ReviewRoute * string))
    (store : gmap string (list Checkpoint)) :
  history thread store = [] ->
  node_execution_count s0 = 0 ->
  (N < Reference.carried_out
         (life other deadline clock capability thread s0 reviews store))%nat ->
  Reference.halts_after N N (life N deadline clock capability thread s0 reviews store).
Proof.
  intros Hh H0 Hlen.
  assert (Hle : (N <= other)%nat).
  { pose proof (life_bound other s0 reviews store Hh H0). lia. }
  unfold life, start in *.
  destruct (status s0); try (simpl in Hlen; lia).
  set (s := with_active_stage Entry s0) in *.
  assert (Hrec : Reference.recorded thread store = node_execution_count s)
    by (unfold Reference.recorded, latest; now rewrite Hh).
  assert (Hs : node_execution_count s = 0) by exact H0.
  destruct (loop_total other deadline clock capability thread
              (fuel_for other s) None s store [] []
              ltac:(unfold fuel_for; lia)) as [run' E'].
  rewrite E' in Hlen. cbn [option_map Reference.carried_out] in Hlen.
  destruct (call_ceiling N other None s store reviews run' Hle Hrec
              ltac:(lia) E'
              (fun store' => resumes_ceiling N other reviews store' Hle)
              ltac:(lia)) as (run & E & Hhalt).
  rewrite E. cbn [option_map]. rewrite Hs, Nat.sub_0_r in Hhalt. exact Hhalt.
Qed.

End ThreadLife.

(** ** Governance: the step ceiling *)

Section Ceiling.

Import Engine.

(** C3: a thread whose node executions would exceed the ceiling [N] halts
    with status FAILED and the error "step limit exceeded" at execution
    [N + 1].  A thread is a new thread id with its [start] and the reviews
    resumed on it afterwards; it would exceed [N] when, under another
    ceiling, its calls carry out more than [N] node executions.  Then under
    [N] one of its calls, the [start] or a [resume], is refused by the
    governance check when the thread has carried out exactly [N] node
    executions, the refused one being number [N + 1]; the thread carries
    out [N] in all; and whatever reviews come, no thread carries out more
    than [N], so that an execution [N + 2] never occurs. *)
Theorem step_ceiling (N other deadline : nat) (clock : nat -> nat)
    (capability : Stage -> WorkflowState -> WorkflowState * Routing)
    (thread : string) (s0 : WorkflowState)
    (reviews : list (ReviewRoute * string))
    (store : gmap string (list Checkpoint)) :
  history thread store = [] ->
  node_execution_count s0 = 0 ->
  (N < Reference.carried_out
         (life other deadline clock capability thread s0 reviews store))%nat ->
  let runs := life N deadline clock capability thread s0 reviews store in
  (exists before run after,
     runs = before ++ run :: after /\
     status (final run) = FAILED /\
     last (events run) = Some (error_event "step limit exceeded") /\
     node_execution_count (final run) = N /\
     Reference.carried_out (before ++ [run]) = N /\
     Reference.carried_out before + Reference.attempts run = N + 1) /\
  Reference.carried_out runs = N /\
  (forall reviews',
     (Reference.carried_out
        (life N deadline clock capability thread s0 reviews' store) <= N)%nat).
Proof.
  intros Hh H0 Hlen runs.
  destruct (life_ceiling deadline clock capability thread N other s0 reviews
              store Hh H0 Hlen)
    as (before & run & after & Hruns & Hst & Hg & He & Hn & Hc & Ht).
  split; [|split; [exact Ht|]].
  - exists before, run, after. repeat split; auto.
    unfold Reference.attempts. rewrite Hg.
    assert (Hsum : forall a b,
               Reference.carried_out (a ++ b) =
               Reference.carried_out a + Reference.carried_out b).
    { induction a as [|r a IH]; intros b; simpl; [reflexivity|].
      rewrite IH. lia. }
    rewrite Hsum in Hc. simpl in Hc. lia.
  - intros reviews'. now apply life_bound.
Qed.

Lemma step_ceiling_witness :
  exists before run after,
    life 7 300 (fun _ => 0) Samples.anagram "t-1" Samples.request_state
      [(BackToPlanning, "add type hints")] ∅ = before ++ run :: after /\
    status (final run) = FAILED /\
    last (events run) = Some (error_event "step limit exceeded") /\
    node_execution_count (final run) = 7.
Proof.
  destruct (step_ceiling 7 50 300 (fun _ => 0) Samples.anagram "t-1"
              Samples.request_state [(BackToPlanning, "add type hints")] ∅)
    as ((before & run & after & Hruns & Hst & He & Hn & _) & _).
  - reflexivity.
  - reflexivity.
  - vm_compute. lia.
  - exists before, run, after. auto.
Defined.

End Ceiling.

(** ** Review: approve and revise *)

(** One [postMessage] on a world that has a view. *)
Ltac post_step :=
  match goal with
  | |- context [SidebarProvider.postMessage ?m ?w0] =>
      let v0 := fresh "v" in
      evar (v0 : WebviewView);
      rewrite (postMessage_view m w0 v0
                 ltac:(subst v0; first [eassumption | reflexivity]));
      subst v0; cbv beta iota
  end.

Section Reconnect.

Import BackendClient SidebarProvider.

Lemma shown_post_if_view (m : ViewMessage) (w : World) :
  exists extra,
    Observations.shown (post_if_view m w) = Observations.shown w ++ extra.
Proof.
  unfold post_if_view, Observations.shown.
  destruct (_view w) as [v|] eqn:E; simpl; rewrite ?E; eauto.
Qed.

Lemma only_posts_shown (w w' : World) :
  Reference.only_posts w w' ->
  exists extra, Observations.shown w' = Observations.shown w ++ extra.
Proof.
  intros H. unfold Observations.shown.
  destruct (_view w) as [v|] eqn:Hv.
  - destruct (only_posts_view w w' v H Hv) as (v' & -> & extra & ->). eauto.
  - simpl. eauto.
Qed.

(** A message of one of the four types is posted to the view by its
    callback. *)
Lemma on_event_posts (rev : Revision) (m : WsMessage) (vm : ViewMessage)
    (st : Connection * World) (v : WebviewView) :
  _view (snd st) = Some v ->
  Reference.posted_for m = Some vm ->
  In vm (Observations.shown
           (snd (on_event rev callbacks (Ev_message (Json m)) st))).
Proof.
  intros Hv. unfold Reference.posted_for. simpl. unfold dispatch.
  destruct (msg_type m) as [ty|]; [|discriminate].
  unfold on_fst, invoke, callbacks, post_if_view, Observations.shown; simpl.
  repeat match goal with
  | |- context [if String.eqb ty ?x then _ else _] =>
      destruct (String.eqb ty x)
  end; try discriminate; intros [= <-]; simpl; rewrite Hv; simpl;
    rewrite ?in_app_iff; simpl; tauto.
Qed.

Lemma deliver_posts (rev : Revision) (events : list WsEvent) (m : WsMessage)
    (vm : ViewMessage) (st : Connection * World) (v : WebviewView) :
  _view (snd st) = Some v ->
  In (Ev_message (Json m)) events ->
  Reference.posted_for m = Some vm ->
  In vm (Observations.shown (snd (deliver rev callbacks events st))).
Proof.
  revert st v. induction events as [|ev events IH]; intros st v Hv Hin Hp;
    [contradiction|].
  change (deliver rev callbacks (ev :: events) st)
    with (deliver rev callbacks events (on_event rev callbacks ev st)).
  destruct Hin as [-> | Hin].
  - destruct (only_posts_shown _ _
                (only_posts_deliver rev events
                   (on_event rev callbacks (Ev_message (Json m)) st)))
      as [extra ->].
    apply in_or_app. left. now apply (on_event_posts rev m vm st v).
  - destruct (only_posts_view _ _ v (only_posts_on_event rev ev st) Hv)
      as (v' & Hv' & _).
    now apply (IH _ v').
Qed.

Variable c : BackendClient.t.

(** [connectToWorkflow] shows what the socket showed, and the connection
    error after it when the promise was rejected. *)
Lemma connectToWorkflow_shown (sessionId : string) (v : WebviewView)
    (w : World) :
  session_of w = Some sessionId -> _view w = Some v ->
  exists extra,
    Observations.shown (snd (connectToWorkflow c w)) =
    Observations.shown (snd (open_socket c sessionId callbacks w)) ++ extra.
Proof.
  intros Hs Hv. unfold connectToWorkflow, bind, get_world.
  rewrite Hs, Hv. unfold try_catch, connectWebSocket.
  destruct (open_socket c sessionId callbacks w) as [conn w1].
  simpl. destruct (promise conn) as [| |e]; simpl.
  - exists []. now rewrite app_nil_r.
  - exists []. now rewrite app_nil_r.
  - unfold modify, ret; simpl.
    match goal with
    | |- context [post_if_view ?b (post_if_view ?a w1)] =>
        destruct (shown_post_if_view a w1) as [x1 H1];
        destruct (shown_post_if_view b (post_if_view a w1)) as [x2 H2]
    end.
    exists (x1 ++ x2). now rewrite H2, H1, app_assoc.
Qed.

(** After an acknowledged request for a revision the sidebar listens
    again: what the new socket delivers is posted to the view. *)
Lemma revise_reconnects (feedback sessionId : string) (v : WebviewView)
    (w : World) (ack : WorkflowSession) (rest : list HttpReply)
    (events : list WsEvent) (others : list Socket) (m : WsMessage)
    (vm : ViewMessage) :
  session_of w = Some sessionId ->
  _view w = Some v ->
  http_replies w = Response ack :: rest ->
  ws_streams w = Delivers events :: others ->
  In (Ev_message (Json m)) events ->
  Reference.posted_for m = Some vm ->
  In vm (Observations.shown (snd (handleReviewSubmission c feedback revise w))).
Proof.
  intros Hs Hv Hr Hws Hin Hp. unfold handleReviewSubmission, bind, get_world.
  rewrite Hs, Hv. unfold try_catch. rewrite submitReview_result.
  set (w1 := set_http _ _ w).
  assert (Hv1 : _view w1 = Some v) by exact Hv.
  rewrite Hr. cbv beta iota. repeat post_step.
  match goal with |- context [connectToWorkflow c ?w0] => set (w3 := w0) end.
  assert (Hs3 : session_of w3 = Some sessionId) by exact Hs.
  destruct (connectToWorkflow_shown sessionId _ w3 Hs3 eq_refl) as [extra Hx].
  destruct (connectToWorkflow_world c sessionId _ w3 Hs3 eq_refl) as [_ Hnot].
  assert (Hin3 : In vm (Observations.shown (snd (connectToWorkflow c w3)))).
  { rewrite Hx. apply in_or_app. left. unfold open_socket.
    change (ws_streams w3) with (ws_streams w). rewrite Hws.
    eapply deliver_posts; [reflexivity | exact Hin | exact Hp]. }
  destruct (connectToWorkflow c w3) as [[[]| e |] w4]; simpl in *;
    [exact Hin3 | now destruct (Hnot e) | exact Hin3].
Qed.

End Reconnect.

Section Review.

Import BackendClient SidebarProvider Engine.

Variable max_node_executions : nat.
Variable deadline : nat.
Variable clock : nat -> nat.
Variable capability : Stage -> WorkflowState -> WorkflowState * Routing.

Lemma review_endpoint_request (sessions : gmap string string)
    (sessionId feedback action : string)
    (store : gmap string (list Checkpoint)) :
  review_endpoint max_node_executions deadline clock capability sessions
    (mkRequest POST "/workflow/review"
       [("session_id", sessionId); ("feedback", feedback);
        ("action", action)]) store =
  Engine.submitReview max_node_executions deadline clock capability sessions
    sessionId feedback action store.
Proof. reflexivity. Qed.


(** C2, as the design has it: for a session paused in review whose review
    request the backend acknowledges, and whose step ceiling and deadline
    let the review stage and the planning stage run, asking for a revision
    makes the client post the review with the feedback text and the action
    [revise] and then reconnect: it asks for a new socket of the session,
    and the messages that socket delivers are posted to the view by the
    callbacks of the sidebar.  The session manager calls [resume] with the
    text, the review stage routes to the planning stage instead of
    terminating, and the planning stage is invoked next, on a state whose
    conversation history holds the text. *)
Theorem revise_routes_back (c : BackendClient.t) (feedback sessionId : string)
    (v : WebviewView) (w : World) (ack : WorkflowSession)
    (rest : list HttpReply) (sessions : gmap string string)
    (store : gmap string (list Checkpoint)) (thread : string)
    (cp : Checkpoint) :
  session_of w = Some sessionId ->
  _view w = Some v ->
  http_replies w = Response ack :: rest ->
  sessions !! sessionId = Some thread ->
  latest thread store = Some cp ->
  status (snapshot cp) = PAUSED ->
  active_stage (snapshot cp) = Review ->
  (S (node_execution_count (snapshot cp)) < max_node_executions)%nat ->
  (clock (node_execution_count (snapshot cp)) <= deadline)%nat ->
  (clock (S (node_execution_count (snapshot cp))) <= deadline)%nat ->
  let request :=
    mkRequest POST "/workflow/review"
      [("session_id", sessionId); ("feedback", feedback);
       ("action", "revise")] in
  let w' := snd (handleReviewSubmission c feedback revise w) in
  http_log w' = http_log w ++ [request] /\
  sockets w' = sockets w ++ [wsUrl c sessionId] /\
  (forall events others m vm,
     ws_streams w = Delivers events :: others ->
     In (Ev_message (Json m)) events ->
     Reference.posted_for m = Some vm ->
     In vm (Observations.shown w')) /\
  exists run planning more,
    review_endpoint max_node_executions deadline clock capability sessions
      request store
    = Some (mkCall thread feedback BackToPlanning, Some (inr run)) /\
    executions run =
      (Review, inject feedback (snapshot cp)) :: (Plan, planning) :: more /\
    In (mkMsg "user" feedback) (conversation_history planning) /\
    review_feedback planning = Some feedback /\
    Engine.plan planning = Engine.plan (snapshot cp).
Proof.
  intros Hs Hv Hr Hsess Hlatest Hst Hact Hn Hc Hc' request w'.
  destruct (handleReviewSubmission_network c feedback revise sessionId v w
              Hs Hv) as [Hlog Hsock].
  rewrite Hr in Hsock.
  split; [exact Hlog|]. split; [exact Hsock|].
  split.
  { intros events others m vm Hws Hin Hp.
    exact (revise_reconnects c feedback sessionId v w ack rest events others
             m vm Hs Hv Hr Hws Hin Hp). }
  unfold request.
  rewrite (review_endpoint_request sessions sessionId feedback "revise" store).
  unfold Engine.submitReview. rewrite Hsess. simpl.
  unfold resume. rewrite Hlatest, Hst. unfold fuel_for.
  set (s := inject feedback (snapshot cp)).
  assert (Hroute : run_stage capability (Some BackToPlanning) s = (s, NEXT Plan))
    by (unfold run_stage; simpl; now rewrite Hact).
  rewrite (loop_next max_node_executions deadline clock capability thread _
             (Some BackToPlanning) s store [] [] s Plan Hc
             ltac:(simpl; lia) Hroute).
  set (planning := with_active_stage Plan _).
  match goal with
  | |- context [loop _ _ _ _ ?f thread None planning ?st ?ev ?ex] =>
      destruct (loop_total max_node_executions deadline clock capability
                  thread f None planning st ev ex ltac:(simpl; lia))
        as [run Hrun];
      destruct (loop_first_execution max_node_executions deadline clock
                  capability thread f None planning st ev ex run Hc'
                  ltac:(simpl; lia) Hrun) as [more Hmore];
      rewrite Hrun
  end.
  exists run, planning, more. simpl. split; [reflexivity|].
  split; [rewrite Hmore; simpl; now rewrite Hact|].
  split; [apply in_or_app; right; now left|].
  split; reflexivity.
Qed.

End Review.


Lemma revise_routes_back_witness :
  exists run planning more,
    Engine.review_endpoint 50 300 (fun _ => 0) Samples.anagram Samples.sessions
      (mkRequest POST "/workflow/review"
         [("session_id", "s-1"); ("feedback", "add type hints");
          ("action", "revise")]) Samples.store_in_review
    = Some (Engine.mkCall "t-1" "add type hints" Engine.BackToPlanning,
            Some (inr run)) /\
    skipn 1 (Engine.executions run) = (Engine.Plan, planning) :: more /\
    In (Engine.mkMsg "user" "add type hints")
       (Engine.conversation_history planning).
Proof.
  destruct (revise_routes_back 50 300 (fun _ => 0) Samples.anagram
              Samples.client "add type hints" "s-1" (mkView [])
              Samples.in_review
              (mkSession "s-1" "running" "Review submitted") []
              Samples.sessions Samples.store_in_review "t-1"
              Samples.paused)
    as (_ & _ & _ & run & planning & more & Hrun & Hex & Hin & _);
    try (vm_compute; reflexivity); try (vm_compute; lia).
  exists run, planning, more. rewrite Hex. auto.
Defined.


(** C2 as stated fails, in three ways.  A paused session does not always
    get back to planning: when the step ceiling leaves room for the review
    stage only, the thread ends FAILED before the planning stage is invoked
    (whatever the deadline), and when the deadline passes while the review
    stage runs it ends TIMED_OUT before the planning stage is invoked
    (whatever the ceiling).  And the client does not always
    reconnect: when the review request is not acknowledged it asks for no
    socket. *)
Lemma revise_as_stated_counterexample :
  ~ (forall (N deadline : nat) (clock : nat -> nat)
       (capability : Engine.Stage -> Engine.WorkflowState ->
                     Engine.WorkflowState * Engine.Routing)
       (sessions : gmap string string) (sessionId feedback thread : string)
       (store : gmap string (list Engine.Checkpoint)) (cp : Engine.Checkpoint)
       (call : Engine.ResumeCall) (run : Engine.Run),
        sessions !! sessionId = Some thread ->
        Engine.latest thread store = Some cp ->
        Engine.status (Engine.snapshot cp) = Engine.PAUSED ->
        Engine.active_stage (Engine.snapshot cp) = Engine.Review ->
        (forall k, clock k <= deadline)%nat ->
        Engine.review_endpoint N deadline clock capability sessions
          (mkRequest POST "/workflow/review"
             [("session_id", sessionId); ("feedback", feedback);
              ("action", "revise")]) store
        = Some (call, Some (inr run)) ->
        exists planning, In (Engine.Plan, planning) (Engine.executions run)) /\
  ~ (forall (N deadline : nat) (clock : nat -> nat)
       (capability : Engine.Stage -> Engine.WorkflowState ->
                     Engine.WorkflowState * Engine.Routing)
       (sessions : gmap string string) (sessionId feedback thread : string)
       (store : gmap string (list Engine.Checkpoint)) (cp : Engine.Checkpoint)
       (call : Engine.ResumeCall) (run : Engine.Run),
        sessions !! sessionId = Some thread ->
        Engine.latest thread store = Some cp ->
        Engine.status (Engine.snapshot cp) = Engine.PAUSED ->
        Engine.active_stage (Engine.snapshot cp) = Engine.Review ->
        (S (Engine.node_execution_count (Engine.snapshot cp)) < N)%nat ->
        Engine.review_endpoint N deadline clock capability sessions
          (mkRequest POST "/workflow/review"
             [("session_id", sessionId); ("feedback", feedback);
              ("action", "revise")]) store
        = Some (call, Some (inr run)) ->
        exists planning, In (Engine.Plan, planning) (Engine.executions run)) /\
  ~ (forall (c : BackendClient.t) (feedback sessionId : string)
       (v : WebviewView) (w : World),
        SidebarProvider.session_of w = Some sessionId ->
        _view w = Some v ->
        sockets
          (snd (SidebarProvider.handleReviewSubmission c feedback
                  SidebarProvider.revise w)) =
        sockets w ++ [BackendClient.wsUrl c sessionId]).
Proof.
  split; [|split].
  - intros H.
    assert (E : exists call run,
               Engine.review_endpoint 6 300 (fun _ => 0) Samples.anagram
                 Samples.sessions
                 (mkRequest POST "/workflow/review"
                    [("session_id", "s-1"); ("feedback", "add type hints");
                     ("action", "revise")]) Samples.store_in_review
               = Some (call, Some (inr run)) /\
               map fst (Engine.executions run) = [Engine.Review] /\
               Engine.status (Engine.final run) = Engine.FAILED)
      by (vm_compute; eexists; eexists; repeat split; reflexivity).
    destruct E as (call & run & E & Hex & _).
    destruct (H 6 300 (fun _ => 0) Samples.anagram Samples.sessions "s-1"
                "add type hints" "t-1" Samples.store_in_review Samples.paused
                call run) as [planning Hin];
      try exact E; try (vm_compute; reflexivity); [intros k; simpl; lia|].
    apply (in_map fst) in Hin. rewrite Hex in Hin.
    destruct Hin as [Hin|[]]. discriminate Hin.
  - intros H.
    assert (E : exists call run,
               Engine.review_endpoint 50 300 Samples.overdue Samples.anagram
                 Samples.sessions
                 (mkRequest POST "/workflow/review"
                    [("session_id", "s-1"); ("feedback", "add type hints");
                     ("action", "revise")]) Samples.store_in_review
               = Some (call, Some (inr run)) /\
               map fst (Engine.executions run) = [Engine.Review] /\
               Engine.status (Engine.final run) = Engine.TIMED_OUT)
      by (vm_compute; eexists; eexists; repeat split; reflexivity).
    destruct E as (call & run & E & Hex & _).
    destruct (H 50 300 Samples.overdue Samples.anagram Samples.sessions "s-1"
                "add type hints" "t-1" Samples.store_in_review Samples.paused
                call run) as [planning Hin];
      try exact E; try (vm_compute; reflexivity); [vm_compute; lia|].
    apply (in_map fst) in Hin. rewrite Hex in Hin.
    destruct Hin as [Hin|[]]. discriminate Hin.
  - intros H.
    specialize (H Samples.client "add type hints" "s-1" (mkView [])
                  Cases.review_unanswered eq_refl eq_refl).
    discriminate H.
Qed.

(** ** The scenarios of the design document, run on the model *)

Section Scenarios.

Import Engine.

(** "create anagram checker": entry, a one-step plan, generation, and the
    review that pauses. *)
Example scenario_pauses_for_review :
  Reference.observe (start 50 300 (fun _ => 0) Samples.anagram "t-1"
             Samples.request_state ∅) =
  Some ([Entry; Plan; Generate; Plan; Review], PAUSED,
        ["step_update"; "step_update"; "step_update"; "step_update";
         "step_update"; "review_required"]).
Proof. vm_compute. reflexivity. Qed.

Example scenario_checkpoints :
  map sequence_number (history "t-1" Samples.store_in_review) = [1; 2; 3; 4; 5].
Proof. vm_compute. reflexivity. Qed.

(** The client approves with empty feedback: COMPLETED, files unchanged. *)
Example scenario_approve :
  Reference.observe (resume 50 300 (fun _ => 0) Samples.anagram Finalize "t-1" ""
             Samples.store_in_review) =
  Some ([Review], COMPLETED, ["step_update"; "workflow_complete"]).
Proof. vm_compute. reflexivity. Qed.

(** The client asks for type hints: back to planning, and PAUSED again. *)
Example scenario_revise :
  Reference.observe (resume 50 300 (fun _ => 0) Samples.anagram BackToPlanning "t-1"
             "add type hints" Samples.store_in_review) =
  Some ([Review; Plan; Review], PAUSED,
        ["step_update"; "step_update"; "step_update"; "review_required"]).
Proof. vm_compute. reflexivity. Qed.

(** A thread that is not paused cannot be resumed, nor an unknown one. *)
Example scenario_resume_unknown :
  resume 50 300 (fun _ => 0) Samples.anagram Finalize "t-2" ""
    Samples.store_in_review = Some (inl NotFoundError).
Proof. vm_compute. reflexivity. Qed.

(** The first message of a user, as the sidebar sees it. *)
Example sidebar_first_message :
  let w := snd (SidebarProvider.handleUserMessage Samples.client
                  "create anagram checker" Samples.idle) in
  currentSessionId w = Some "s-1" /\
  sockets w = ["wss://agentic.example.com/ws/s-1"] /\
  option_map posted (_view w) =
  Some [addMessage "user" "create anagram checker"; setThinking true;
        stepUpdate (Host.current_step Samples.step_message)
          (Host.plan Samples.step_message)
          (active_agent Samples.step_message);
        reviewRequired (Host.plan Samples.review_message)
          (Host.generated_files Samples.review_message);
        setThinking false].
Proof. vm_compute. repeat split. Qed.

End Scenarios.

(** * Further properties of the client *)

(** ** The two revisions of [BackendClient] *)

Section Revisions.

Import BackendClient SidebarProvider.

Lemma escaped_post_if_view (k : nat) (m : ViewMessage) (w : World) :
  post_if_view m (Observations.escaped k w) =
  Observations.escaped k (post_if_view m w).
Proof.
  unfold post_if_view, Observations.escaped; simpl.
  destruct (_view w) eqn:E; simpl; rewrite ?E; reflexivity.
Qed.

Lemma escaped_add_uncaught (k : nat) (w : World) :
  add_uncaught (Observations.escaped k w) = Observations.escaped (S k) w.
Proof. reflexivity. Qed.

Lemma escaped_zero (w : World) : Observations.escaped 0 w = w.
Proof. destruct w; reflexivity. Qed.

(** The connection does not depend on the world the callbacks act on, nor on
    the revision. *)
Lemma on_event_connection_only (rev rev' : Revision) (cbs : WebSocketCallbacks)
    (ev : WsEvent) (c : Connection) (w w' : World) :
  fst (on_event rev cbs ev (c, w)) = fst (on_event rev' cbs ev (c, w')).
Proof.
  destruct ev as [|[| |m]|e|]; simpl; try reflexivity.
  - destruct rev, rev'; reflexivity.
  - destruct rev, rev'; reflexivity.
  - unfold dispatch. destruct (msg_type m) as [ty|]; [|reflexivity].
    unfold on_fst, invoke.
    repeat match goal with
    | |- context [if ?b then _ else _] => destruct b
    end; try reflexivity.
    + destruct (onStepUpdate cbs); reflexivity.
    + destruct (onReviewRequired cbs); reflexivity.
    + destruct (onComplete cbs); reflexivity.
    + destruct (onError cbs); reflexivity.
  - unfold on_error, on_fst, invoke. destruct (onError cbs); reflexivity.
Qed.

Lemma deliver_connection_only (rev rev' : Revision) (cbs : WebSocketCallbacks)
    (events : list WsEvent) (c : Connection) (w w' : World) :
  fst (deliver rev cbs events (c, w)) = fst (deliver rev' cbs events (c, w')).
Proof.
  revert c w w'. induction events as [|ev events IH]; intros c w w';
    [reflexivity|].
  change (deliver rev cbs (ev :: events) (c, w))
    with (deliver rev cbs events (on_event rev cbs ev (c, w))).
  change (deliver rev' cbs (ev :: events) (c, w'))
    with (deliver rev' cbs events (on_event rev' cbs ev (c, w'))).
  pose proof (on_event_connection_only rev rev' cbs ev c w w') as H.
  destruct (on_event rev cbs ev (c, w)) as [c1 w1].
  destruct (on_event rev' cbs ev (c, w')) as [c2 w2].
  simpl in H. subst c2. apply IH.
Qed.

(** With the callbacks of the sidebar, the first revision differs from the
    second by the exceptions that escape its listener. *)
Lemma on_event_escaped (ev : WsEvent) (c : Connection) (k : nat) (w : World) :
  snd (on_event Plain callbacks ev (c, Observations.escaped k w)) =
  Observations.escaped
    ((if Observations.throws ev then 1 else 0) + k)
    (snd (on_event Logging callbacks ev (c, w))).
Proof.
  destruct ev as [|[| |m]|e|]; simpl; try reflexivity.
  - unfold dispatch. destruct (msg_type m) as [ty|]; [|reflexivity].
    unfold on_fst, invoke.
    repeat match goal with
    | |- context [if ?b then _ else _] => destruct b
    end; simpl; rewrite ?escaped_post_if_view; reflexivity.
  - unfold on_error, on_fst, invoke; simpl.
    now rewrite !escaped_post_if_view.
Qed.

Lemma deliver_escaped (events : list WsEvent) (c : Connection) (k : nat)
    (w : World) :
  snd (deliver Plain callbacks events (c, Observations.escaped k w)) =
  Observations.escaped (Observations.throwing_frames events + k)
    (snd (deliver Logging callbacks events (c, w))).
Proof.
  revert c k w. induction events as [|ev events IH]; intros c k w;
    [reflexivity|].
  change (deliver Plain callbacks (ev :: events) (c, Observations.escaped k w))
    with (deliver Plain callbacks events
            (on_event Plain callbacks ev (c, Observations.escaped k w))).
  change (deliver Logging callbacks (ev :: events) (c, w))
    with (deliver Logging callbacks events (on_event Logging callbacks ev (c, w))).
  pose proof (on_event_escaped ev c k w) as Hw.
  pose proof (on_event_connection_only Plain Logging callbacks ev c
                (Observations.escaped k w) w) as Hc.
  destruct (on_event Plain callbacks ev (c, Observations.escaped k w))
    as [c1 w1].
  destruct (on_event Logging callbacks ev (c, w)) as [c2 w2].
  simpl in Hw, Hc. subst c2 w1. rewrite IH. simpl. f_equal. lia.
Qed.

Lemma readable_throwing_frames (events : list WsEvent) :
  forallb (fun ev => negb (Observations.throws ev)) events = true ->
  Observations.throwing_frames events = 0.
Proof.
  induction events as [|ev events IH]; [reflexivity|]. simpl.
  intros H. apply andb_true_iff in H as [Hev H].
  apply negb_true_iff in Hev. rewrite Hev, (IH H). reflexivity.
Qed.

(** X1: on frames that can be read the two revisions of the class are
    interchangeable.  They send the same requests and return the same
    results; and when the next socket delivers no frame that is not JSON or
    is [null] (the only frames on which the listener of the first revision
    throws), [connectWebSocket] with the callbacks of the sidebar leaves the
    same promise, the same calls of [ws.close()], the same callback
    invocations and the same state, and ends the same way. *)
Theorem revisions_agree (base sessionId request projectPath feedback
    action : string) (w : World) :
  Observations.readable w = true ->
  startWorkflow (BackendClient.mk base Plain) request projectPath w =
    startWorkflow (BackendClient.mk base Logging) request projectPath w /\
  BackendClient.submitReview (BackendClient.mk base Plain) sessionId feedback
      action w =
    BackendClient.submitReview (BackendClient.mk base Logging) sessionId
      feedback action w /\
  open_socket (BackendClient.mk base Plain) sessionId callbacks w =
    open_socket (BackendClient.mk base Logging) sessionId callbacks w /\
  connectWebSocket (BackendClient.mk base Plain) sessionId callbacks w =
    connectWebSocket (BackendClient.mk base Logging) sessionId callbacks w.
Proof.
  intros Hread.
  assert (Hopen :
            open_socket (BackendClient.mk base Plain) sessionId callbacks w =
            open_socket (BackendClient.mk base Logging) sessionId callbacks w).
  { apply injective_projections.
    - unfold open_socket. simpl.
      destruct (ws_streams w) as [|[e|events] rest]; try reflexivity.
      apply deliver_connection_only.
    - unfold Observations.readable in Hread. unfold open_socket. simpl.
      destruct (ws_streams w) as [|[e|events] rest]; try reflexivity.
      change (new_WebSocket (BackendClient.mk base Plain) sessionId w)
        with (new_WebSocket (BackendClient.mk base Logging) sessionId w).
      rewrite <- (escaped_zero
                    (new_WebSocket (BackendClient.mk base Logging) sessionId w))
        at 1.
      rewrite deliver_escaped, (readable_throwing_frames events Hread).
      apply escaped_zero. }
  split; [|split; [|split; [exact Hopen|]]].
  - unfold startWorkflow, try_catch, bind, post, ret, throw; simpl.
    destruct (http_replies w) as [|[d|e] rest]; reflexivity.
  - now rewrite !submitReview_result.
  - unfold connectWebSocket. now rewrite Hopen.
Qed.

End Revisions.

Lemma revisions_agree_witness :
  BackendClient.connectWebSocket
    (BackendClient.mk "http://localhost:8000" BackendClient.Plain) "s-1"
    SidebarProvider.callbacks Samples.idle =
  BackendClient.connectWebSocket
    (BackendClient.mk "http://localhost:8000" BackendClient.Logging) "s-1"
    SidebarProvider.callbacks Samples.idle.
Proof.
  apply (revisions_agree "http://localhost:8000" "s-1" "create anagram checker"
           "/home/dev/anagram" "" "approve" Samples.idle).
  reflexivity.
Defined.

(** ** How a connection ends *)

Section Endings.

Import BackendClient SidebarProvider.

Lemma first_settlement_app (a b : list WsEvent) :
  Reference.first_settlement (a ++ b) =
  match Reference.first_settlement a with
  | Pending => Reference.first_settlement b
  | q => q
  end.
Proof.
  induction a as [|ev a IH]; [reflexivity|].
  change ((ev :: a) ++ b) with (ev :: (a ++ b)).
  rewrite (first_settlement_cons ev (a ++ b)), (first_settlement_cons ev a), IH.
  destruct (Reference.first_settlement [ev]); reflexivity.
Qed.

Lemma settling_messages_app (a b : list WsEvent) :
  Reference.settling_messages (a ++ b) =
  Reference.settling_messages a + Reference.settling_messages b.
Proof.
  induction a as [|ev a IH]; [reflexivity|].
  change ((ev :: a) ++ b) with (ev :: (a ++ b)).
  rewrite (settling_messages_cons ev (a ++ b)), (settling_messages_cons ev a), IH.
  lia.
Qed.

Lemma pending_no_settling_message (events : list WsEvent) :
  Reference.first_settlement events = Pending ->
  Reference.settling_messages events = 0.
Proof.
  induction events as [|ev events IH]; [reflexivity|].
  rewrite (first_settlement_cons ev events), (settling_messages_cons ev events).
  destruct ev as [|[| |m]|e|]; simpl; auto; try discriminate.
  destruct (Reference.outcome_of_message m); auto; discriminate.
Qed.



Lemma ignored_on_event (rev : Revision) (cbs : WebSocketCallbacks)
    (ev : WsEvent) (c : Connection) (w : World) :
  Observations.ignored ev = true ->
  on_event rev cbs ev (c, w) =
  (c, match rev with
      | Plain => Observations.escaped (if Observations.throws ev then 1 else 0) w
      | Logging => w
      end).
Proof.
  intros H. destruct ev as [|[| |m]|e|]; simpl in *; try discriminate;
    try (destruct rev; now rewrite ?escaped_zero).
  unfold dispatch. destruct (msg_type m) as [ty|].
  - apply negb_true_iff in H. repeat (apply orb_false_iff in H as [H ?]).
    rewrite H, H0, H1, H2. destruct rev; now rewrite ?escaped_zero.
  - destruct rev; now rewrite ?escaped_zero.
Qed.

(** X3: events that are not terminal never end the wait.  On a socket that
    only opens, closes, or delivers frames that are not JSON, are [null] or
    carry a [type] other than the four, no callback is invoked, [ws.close()]
    is not called, the promise stays pending and [connectWebSocket] never
    returns; the unguarded revision lets one exception escape for each frame
    it cannot read. *)
Theorem nothing_terminal_never_returns (c : BackendClient.t)
    (sessionId : string) (cbs : WebSocketCallbacks) (w : World)
    (events : list WsEvent) (rest : list Socket) :
  forallb Observations.ignored events = true ->
  let w0 := set_ws (sockets w) (Delivers events :: rest) w in
  open_socket c sessionId cbs w0 =
    (fresh_connection,
     match revision c with
     | Plain =>
         Observations.escaped (Observations.throwing_frames events)
           (new_WebSocket c sessionId w0)
     | Logging => new_WebSocket c sessionId w0
     end) /\
  fst (connectWebSocket c sessionId cbs w0) = Suspended.
Proof.
  intros H w0.
  assert (Hd : forall evs conn w1,
             forallb Observations.ignored evs = true ->
             deliver (revision c) cbs evs (conn, w1) =
             (conn, match revision c with
                    | Plain =>
                        Observations.escaped (Observations.throwing_frames evs) w1
                    | Logging => w1
                    end)).
  { induction evs as [|ev evs IH]; intros conn w1 Hall.
    - simpl. destruct (revision c); now rewrite ?escaped_zero.
    - simpl in Hall. apply andb_true_iff in Hall as [Hev Hall].
      change (deliver (revision c) cbs (ev :: evs) (conn, w1))
        with (deliver (revision c) cbs evs
                (on_event (revision c) cbs ev (conn, w1))).
      rewrite (ignored_on_event _ _ _ _ _ Hev), (IH _ _ Hall).
      destruct (revision c); [|reflexivity].
      f_equal. unfold Observations.escaped; simpl. f_equal. lia. }
  assert (Ho : open_socket c sessionId cbs w0 =
               deliver (revision c) cbs events
                 (fresh_connection, new_WebSocket c sessionId w0))
    by reflexivity.
  split.
  - rewrite Ho. now apply Hd.
  - unfold connectWebSocket. rewrite Ho, (Hd _ _ _ H). reflexivity.
Qed.

Lemma nothing_terminal_never_returns_witness :
  fst (connectWebSocket Samples.local_client "s-1" callbacks
         (set_ws [] [Delivers Cases.silent] Samples.idle)) =
  Suspended.
Proof.
  apply (nothing_terminal_never_returns Samples.local_client "s-1" callbacks
           Samples.idle).
  reflexivity.
Defined.

End Endings.

(** ** Failures as the sidebar reports them *)

Section Failures.

Import BackendClient SidebarProvider.

Variable c : BackendClient.t.

Lemma startWorkflow_result (request projectPath : string) (w : World) :
  startWorkflow c request projectPath w =
  (match http_replies w with
   | Response data :: _ => Returned data
   | Rejected_request e :: _ => Thrown e
   | [] => Thrown (mkError "timeout of 30000ms exceeded")
   end,
   set_http
     (http_log w ++
      [mkRequest POST "/workflow/start"
         [("request", request); ("project_path", projectPath)]])
     (tail (http_replies w)) w).
Proof.
  unfold startWorkflow, try_catch, bind, post, ret, throw.
  destruct (revision c), (http_replies w) as [|[d|e] rest]; reflexivity.
Qed.

Lemma request_error_outcome {A} (replies : list HttpReply) (e : JsError)
    (k : WorkflowSession -> Outcome A) :
  Observations.request_error replies = Some e ->
  match replies with
  | Response data :: _ => k data
  | Rejected_request e' :: _ => Thrown e'
  | [] => Thrown (mkError "timeout of 30000ms exceeded")
  end = Thrown e.
Proof.
  destruct replies as [|[d|e'] rest]; simpl; intros H; congruence.
Qed.

(** X4: an error of the socket itself is reported like an error message.
    When the socket emits ['error'] while the promise is pending, the
    promise is rejected with that error, the client does not close the
    socket, and the view is sent the error and then the connection error;
    [connectToWorkflow] returns normally. *)
Theorem socket_error_reported (sessionId : string) (v : WebviewView)
    (w : World) (before after : list WsEvent) (e : JsError)
    (rest : list Socket) :
  session_of w = Some sessionId ->
  _view w = Some v ->
  ws_streams w = Delivers (before ++ Ev_error e :: after) :: rest ->
  Reference.first_settlement before = Pending ->
  promise (fst (open_socket c sessionId callbacks w)) = Rejected e /\
  close_calls (fst (open_socket c sessionId callbacks w)) =
    Reference.settling_messages after /\
  fst (connectToWorkflow c w) = Returned tt /\
  exists v',
    _view (snd (connectToWorkflow c w)) = Some v' /\
    In (error (or_default (Some (err_message e)) "An error occurred"))
       (posted v') /\
    In (error ("Connection error: " ++ err_message e)%string) (posted v').
Proof.
  intros Hs Hv Hws Hpre.
  set (w0 := new_WebSocket c sessionId w).
  set (rev := revision c).
  set (st1 := deliver rev callbacks before (fresh_connection, w0)).
  set (st2 := on_event rev callbacks (Ev_error e) st1).
  assert (Hopen : open_socket c sessionId callbacks w =
                  deliver rev callbacks after st2).
  { unfold open_socket. rewrite Hws. fold w0. fold rev.
    now rewrite deliver_app. }
  destruct (deliver_connection rev callbacks (before ++ Ev_error e :: after)
              (fresh_connection, w0)) as [Hp Hc].
  rewrite deliver_app in Hp, Hc.
  change (deliver rev callbacks (Ev_error e :: after)
            (deliver rev callbacks before (fresh_connection, w0)))
    with (deliver rev callbacks after st2) in Hp, Hc.
  simpl in Hp, Hc.
  rewrite first_settlement_app, Hpre in Hp. simpl in Hp.
  rewrite settling_messages_app, (pending_no_settling_message before Hpre) in Hc.
  simpl in Hc.
  pose proof (only_posts_deliver rev before (fresh_connection, w0)) as Ho1.
  fold st1 in Ho1. simpl in Ho1.
  destruct (only_posts_view w0 (snd st1) v Ho1 Hv) as (v1 & Hv1 & x1 & Hx1).
  assert (Hw2 : snd st2 =
                post_if_view (setThinking false)
                  (post_if_view
                     (error (or_default (Some (err_message e))
                                        "An error occurred")) (snd st1)))
    by reflexivity.
  assert (Hv2 : _view (snd st2) =
                Some (mkView ((posted v1 ++
                  [error (or_default (Some (err_message e))
                                     "An error occurred")]) ++
                  [setThinking false]))).
  { rewrite Hw2. unfold post_if_view at 2. rewrite Hv1. reflexivity. }
  pose proof (only_posts_deliver rev after st2) as Ho3.
  destruct (only_posts_view _ _ _ Ho3 Hv2) as (v3 & Hv3 & x3 & Hx3).
  simpl in Hx3.
  rewrite Hopen. split; [exact Hp|]. split; [exact Hc|].
  unfold connectToWorkflow, bind, get_world. rewrite Hs, Hv.
  unfold try_catch, connectWebSocket. rewrite Hopen, Hp. simpl.
  unfold modify, post_if_view at 2. rewrite Hv3. simpl.
  split; [reflexivity|]. eexists. split; [reflexivity|]. simpl.
  rewrite Hx3. split.
  - apply in_or_app. left. apply in_or_app. left. apply in_or_app. left.
    apply in_or_app. left. apply in_or_app. right. now left.
  - apply in_or_app. left. apply in_or_app. right. now left.
Qed.

End Failures.

Lemma socket_error_reported_witness :
  exists v',
    _view (snd (SidebarProvider.connectToWorkflow Samples.local_client
                  (set_ws [] [Delivers ([Ev_open] ++
                                [Ev_error (mkError "connect ECONNREFUSED")]
                                ++ [Ev_close])] Samples.in_review))) = Some v' /\
    In (error "connect ECONNREFUSED") (posted v') /\
    In (error "Connection error: connect ECONNREFUSED") (posted v').
Proof.
  destruct (socket_error_reported Samples.local_client "s-1" (mkView [])
              (set_ws [] [Delivers ([Ev_open] ++
                            [Ev_error (mkError "connect ECONNREFUSED")]
                            ++ [Ev_close])] Samples.in_review)
              [Ev_open] [Ev_close] (mkError "connect ECONNREFUSED") []
              eq_refl eq_refl eq_refl eq_refl) as (_ & _ & _ & H).
  exact H.
Defined.

Section Contained.

Import BackendClient SidebarProvider.

Variable c : BackendClient.t.

(** X5: a workflow that cannot be started is reported and leaves no trace.
    When the start request is rejected or times out, [handleUserMessage]
    returns normally; the view is sent the user's message, the spinner, the
    error (its message, or "Failed to start workflow" when that is empty)
    and the end of the spinner; no socket is asked for and no session id is
    kept. *)
Theorem start_failure_reported (message : string) (v : WebviewView)
    (w : World) (folder : WorkspaceFolder) (others : list WorkspaceFolder)
    (e : JsError) :
  _view w = Some v ->
  workspaceFolders w = Some (folder :: others) ->
  Observations.request_error (http_replies w) = Some e ->
  let w' := snd (handleUserMessage c message w) in
  fst (handleUserMessage c message w) = Returned tt /\
  Observations.shown w' =
    posted v ++
    [addMessage "user" message; setThinking true;
     error (or_default (Some (err_message e)) "Failed to start workflow");
     setThinking false] /\
  http_log w' =
    http_log w ++
    [mkRequest POST "/workflow/start"
       [("request", message); ("project_path", fsPath folder)]] /\
  sockets w' = sockets w /\
  currentSessionId w' = currentSessionId w.
Proof.
  intros Hv Hf He. unfold handleUserMessage, bind, get_world.
  rewrite Hv. repeat post_step. unfold try_catch, first_folder.
  match goal with
  | |- context [workspaceFolders ?w0] =>
      change (workspaceFolders w0) with (workspaceFolders w)
  end.
  rewrite Hf, startWorkflow_result.
  match goal with
  | |- context [http_replies ?w0] =>
      change (http_replies w0) with (http_replies w)
  end.
  destruct (http_replies w) as [|[d|e'] rest]; simpl in He; try discriminate;
    injection He as <-; repeat post_step; simpl;
    unfold Observations.shown; simpl; repeat split;
    now rewrite <- !app_assoc.
Qed.

(** X6: a review that cannot be submitted is reported and the sidebar does
    not reconnect.  When the review request is rejected or times out,
    whatever the action, [handleReviewSubmission] returns normally, the view
    is sent the error (its message, or "Failed to submit review" when that
    is empty) and the end of the spinner, and no socket is asked for. *)
Theorem review_failure_reported (feedback : string) (action : Action)
    (sessionId : string) (v : WebviewView) (w : World) (e : JsError) :
  session_of w = Some sessionId ->
  _view w = Some v ->
  Observations.request_error (http_replies w) = Some e ->
  let w' := snd (handleReviewSubmission c feedback action w) in
  fst (handleReviewSubmission c feedback action w) = Returned tt /\
  Observations.shown w' =
    posted v ++
    [error (or_default (Some (err_message e)) "Failed to submit review");
     setThinking false] /\
  sockets w' = sockets w /\
  ws_streams w' = ws_streams w.
Proof.
  intros Hs Hv He. unfold handleReviewSubmission, bind, get_world.
  rewrite Hs, Hv. unfold try_catch. rewrite submitReview_result.
  destruct (http_replies w) as [|[d|e'] rest]; simpl in He; try discriminate;
    injection He as <-; cbv beta iota;
    repeat post_step; simpl;
    unfold Observations.shown; simpl; repeat split;
    now rewrite <- !app_assoc.
Qed.

Lemma connectToWorkflow_keeps_view (w : World) (v : WebviewView) :
  _view w = Some v ->
  (forall e, fst (connectToWorkflow c w) <> Thrown e) /\
  exists v', _view (snd (connectToWorkflow c w)) = Some v'.
Proof.
  intros Hv. destruct (session_of w) as [sid|] eqn:Hs.
  - destruct (connectToWorkflow_world c sid v w Hs Hv) as [Ho Hn].
    split; [exact Hn|].
    destruct (only_posts_view _ _ v Ho Hv) as (v' & Hv' & _). eauto.
  - rewrite (connectToWorkflow_skips c w (or_introl Hs)).
    split; [discriminate | eauto].
Qed.

(** X7: no handler of the sidebar lets an exception escape.  Whatever the
    webview sends and whatever the backend and the socket do, the listener
    registered with [onDidReceiveMessage] returns or stays suspended on the
    socket; it never throws. *)
Theorem listener_never_throws (data : WebviewMessage) (w : World)
    (e : JsError) :
  fst (onDidReceiveMessage c data w) <> Thrown e.
Proof.
  destruct data as [message|feedback action|filePath]; simpl;
    [| |discriminate].
  - unfold handleUserMessage, bind, get_world.
    destruct (_view w) as [v|] eqn:Hv; [|discriminate].
    repeat post_step. unfold try_catch.
    match goal with |- context [first_folder ?w0] => set (w2 := w0) end.
    assert (Hv2 : exists v2, _view w2 = Some v2) by (eexists; reflexivity).
    destruct Hv2 as [v2 Hv2].
    destruct (first_folder w2) as [folder|].
    + rewrite startWorkflow_result.
      set (w3 := set_http _ _ w2).
      assert (Hv3 : _view w3 = Some v2) by exact Hv2.
      destruct (http_replies w2) as [|[d|e'] rest].
      * repeat post_step. discriminate.
      * unfold modify.
        match goal with |- context [connectToWorkflow c ?w0] => set (w4 := w0) end.
        destruct (connectToWorkflow_keeps_view w4 v2 Hv3) as [Hn _].
        destruct (connectToWorkflow c w4) as [[[]|e0|] w5]; simpl in *;
          [discriminate | now destruct (Hn e0) | discriminate].
      * repeat post_step. discriminate.
    + unfold throw. repeat post_step. discriminate.
  - unfold handleReviewSubmission, bind, get_world.
    destruct (session_of w) as [sid|] eqn:Hs; [|discriminate].
    destruct (_view w) as [v|] eqn:Hv; [|discriminate].
    unfold try_catch. rewrite submitReview_result.
    set (w1 := set_http _ _ w).
    assert (Hv1 : _view w1 = Some v) by exact Hv.
    destruct (http_replies w) as [|[d|e'] rest].
    + repeat post_step. discriminate.
    + destruct action.
      * repeat post_step. discriminate.
      * repeat post_step.
        match goal with |- context [connectToWorkflow c ?w0] => set (w4 := w0) end.
        destruct (connectToWorkflow_keeps_view w4 _ eq_refl) as [Hn _].
        destruct (connectToWorkflow c w4) as [[[]|e0|] w5]; simpl in *;
          [discriminate | now destruct (Hn e0) | discriminate].
    + repeat post_step. discriminate.
Qed.

End Contained.

Lemma start_failure_reported_witness :
  Observations.shown
    (snd (SidebarProvider.handleUserMessage Samples.client
            "create anagram checker" Cases.offline)) =
  [addMessage "user" "create anagram checker"; setThinking true;
   error "Network Error"; setThinking false].
Proof.
  apply (start_failure_reported Samples.client "create anagram checker"
           (mkView []) Cases.offline (mkFolder "/home/dev/anagram") []
           (mkError "Network Error")); reflexivity.
Defined.

Lemma review_failure_reported_witness :
  Observations.shown
    (snd (SidebarProvider.handleReviewSubmission Samples.client
            "add type hints" SidebarProvider.revise Cases.review_unanswered)) =
  [error "timeout of 30000ms exceeded"; setThinking false].
Proof.
  apply (review_failure_reported Samples.client "add type hints"
           SidebarProvider.revise "s-1" (mkView []) Cases.review_unanswered
           (mkError "timeout of 30000ms exceeded")); reflexivity.
Defined.

(** ** The spinner *)

Section Spinner.

Import BackendClient SidebarProvider.

Lemma last_thinking_from (l : list ViewMessage) (acc : option bool) :
  fold_left (fun acc m => match m with setThinking t => Some t | _ => acc end)
            l acc =
  match Observations.last_thinking l with
  | Some t => Some t
  | None => acc
  end.
Proof.
  unfold Observations.last_thinking.
  revert acc. induction l as [|m l IH]; intros acc; [reflexivity|].
  simpl. rewrite IH, (IH (match m with setThinking t => Some t | _ => None end)).
  destruct (fold_left _ l None); [reflexivity|].
  destruct m; reflexivity.
Qed.

Lemma last_thinking_app (a b : list ViewMessage) :
  Observations.last_thinking (a ++ b) =
  match Observations.last_thinking b with
  | Some t => Some t
  | None => Observations.last_thinking a
  end.
Proof.
  unfold Observations.last_thinking at 1. rewrite fold_left_app.
  apply last_thinking_from.
Qed.

Lemma never_spins_last (l : list ViewMessage) :
  Observations.never_spins l -> Observations.last_thinking l <> Some true.
Proof.
  unfold Observations.never_spins.
  induction l as [|m l IH] using rev_ind; intros H; [discriminate|].
  apply Forall_app in H as [Hl Hm]. rewrite last_thinking_app.
  inversion Hm as [|? ? Hm1 _]; subst.
  destruct m as [| [|] | | | |]; simpl; auto; try discriminate.
Qed.

Lemma spinner_off_app (a b : list ViewMessage) :
  Observations.last_thinking a = Some false -> Observations.never_spins b ->
  Observations.last_thinking (a ++ b) = Some false.
Proof.
  intros Ha Hb. rewrite last_thinking_app.
  pose proof (never_spins_last b Hb) as H.
  destruct (Observations.last_thinking b) as [[|]|]; congruence.
Qed.

Lemma spinner_off_after (a b : list ViewMessage) :
  Observations.last_thinking b = Some false ->
  Observations.last_thinking (a ++ b) = Some false.
Proof. intros H. now rewrite last_thinking_app, H. Qed.

Ltac no_spin := repeat constructor; discriminate.

(** What one event adds to the view: never the spinner, and the end of the
    spinner when the event settles the promise. *)
Lemma on_event_spinner (rev : Revision) (ev : WsEvent) (conn : Connection)
    (w : World) (v : WebviewView) :
  _view w = Some v ->
  exists extra,
    _view (snd (on_event rev callbacks ev (conn, w))) =
      Some (mkView (posted v ++ extra)) /\
    Observations.never_spins extra /\
    (promise conn = Pending ->
     promise (fst (on_event rev callbacks ev (conn, w))) <> Pending ->
     Observations.last_thinking extra = Some false).
Proof.
  intros Hv.
  assert (Hnone : exists extra,
             _view w = Some (mkView (posted v ++ extra)) /\
             Observations.never_spins extra /\
             (promise conn = Pending -> promise conn <> Pending ->
              Observations.last_thinking extra = Some false)).
  { exists []. rewrite app_nil_r, Hv. destruct v.
    repeat split; [constructor | congruence]. }
  destruct ev as [|[| |m]|e|]; simpl; try exact Hnone.
  - destruct rev; exact Hnone.
  - destruct rev; exact Hnone.
  - unfold dispatch. destruct (msg_type m) as [ty|]; [|exact Hnone].
    destruct (String.eqb ty "step_update").
    { eexists. simpl. unfold post_if_view. rewrite Hv. simpl.
      split; [reflexivity|]. split; [no_spin | congruence]. }
    destruct (String.eqb ty "review_required").
    { eexists. simpl. unfold post_if_view at 2. rewrite Hv. simpl.
      rewrite <- app_assoc. split; [reflexivity|]. split; [no_spin | reflexivity]. }
    destruct (String.eqb ty "workflow_complete").
    { eexists. simpl. unfold post_if_view at 2. rewrite Hv. simpl.
      rewrite <- app_assoc. split; [reflexivity|]. split; [no_spin | reflexivity]. }
    destruct (String.eqb ty "error"); [|exact Hnone].
    eexists. simpl. unfold post_if_view at 2. rewrite Hv. simpl.
    rewrite <- app_assoc. split; [reflexivity|]. split; [no_spin | reflexivity].
  - eexists. unfold on_error, on_fst; simpl. unfold post_if_view at 2.
    rewrite Hv. simpl. rewrite <- app_assoc.
    split; [reflexivity|]. split; [no_spin | reflexivity].
Qed.

Lemma deliver_spinner (rev : Revision) (events : list WsEvent)
    (conn : Connection) (w : World) (v : WebviewView) :
  _view w = Some v ->
  exists extra,
    _view (snd (deliver rev callbacks events (conn, w))) =
      Some (mkView (posted v ++ extra)) /\
    Observations.never_spins extra /\
    (promise conn = Pending ->
     promise (fst (deliver rev callbacks events (conn, w))) <> Pending ->
     Observations.last_thinking extra = Some false).
Proof.
  revert conn w v. induction events as [|ev events IH]; intros conn w v Hv.
  - exists []. simpl. rewrite app_nil_r, Hv. destruct v.
    repeat split; [constructor | congruence].
  - change (deliver rev callbacks (ev :: events) (conn, w))
      with (deliver rev callbacks events (on_event rev callbacks ev (conn, w))).
    destruct (on_event_spinner rev ev conn w v Hv) as (x1 & Hv1 & Hn1 & Hs1).
    destruct (on_event rev callbacks ev (conn, w)) as [c1 w1]. simpl in *.
    destruct (IH c1 w1 _ Hv1) as (x2 & Hv2 & Hn2 & Hs2). simpl in *.
    exists (x1 ++ x2). rewrite Hv2, app_assoc.
    split; [reflexivity|]. split; [now apply Forall_app|].
    intros Hp Hq.
    destruct (promise c1) eqn:Hc1.
    + apply spinner_off_after. now apply Hs2.
    + apply spinner_off_app; [apply Hs1; congruence | exact Hn2].
    + apply spinner_off_app; [apply Hs1; congruence | exact Hn2].
Qed.

(** When [connectToWorkflow] returns after using the socket, the spinner
    has been turned off. *)
Lemma connectToWorkflow_spinner (c : BackendClient.t) (sessionId : string)
    (v : WebviewView) (w : World) :
  session_of w = Some sessionId -> _view w = Some v ->
  fst (connectToWorkflow c w) = Returned tt ->
  exists extra,
    Observations.shown (snd (connectToWorkflow c w)) = posted v ++ extra /\
    Observations.last_thinking extra = Some false.
Proof.
  intros Hs Hv. unfold connectToWorkflow, bind, get_world.
  rewrite Hs, Hv. unfold try_catch, connectWebSocket, open_socket.
  set (w0 := new_WebSocket c sessionId w).
  assert (Hv0 : _view w0 = Some v) by exact Hv.
  destruct (ws_streams w) as [|[e|events] rest].
  - simpl. discriminate.
  - simpl. intros _. unfold modify, Observations.shown, post_if_view; simpl.
    rewrite Hv. simpl. rewrite <- app_assoc. eexists. split; reflexivity.
  - destruct (deliver_spinner (revision c) events fresh_connection w0 v Hv0)
      as (extra & Hv1 & Hn & Hlast).
    destruct (deliver (revision c) callbacks events (fresh_connection, w0))
      as [c1 w1]. simpl in *.
    destruct (promise c1) as [| |e] eqn:Hp; simpl.
    + discriminate.
    + intros _. exists extra. unfold Observations.shown. rewrite Hv1.
      split; [reflexivity|]. apply Hlast; [reflexivity | discriminate].
    + intros _. unfold modify, Observations.shown, post_if_view; simpl.
      rewrite Hv1. simpl. rewrite <- !app_assoc.
      eexists. split; [reflexivity|]. now apply spinner_off_after.
Qed.

End Spinner.

Section SpinnerEnds.

Import BackendClient SidebarProvider.

Variable c : BackendClient.t.

Ltac spinner_done :=
  intros _; unfold Observations.shown; simpl; rewrite <- ?app_assoc;
  apply spinner_off_after; reflexivity.

Lemma handled_message_spinner (message : string) (v : WebviewView)
    (w : World) :
  _view w = Some v ->
  Observations.names_session (http_replies w) = true ->
  fst (handleUserMessage c message w) = Returned tt ->
  Observations.last_thinking
    (Observations.shown (snd (handleUserMessage c message w))) = Some false.
Proof.
  intros Hv Hname. unfold handleUserMessage, bind, get_world.
  rewrite Hv. repeat post_step. unfold try_catch.
  match goal with |- context [first_folder ?w0] => set (w2 := w0) end.
  destruct (first_folder w2) as [folder|].
  2:{ unfold throw. repeat post_step. spinner_done. }
  rewrite startWorkflow_result.
  change (http_replies w2) with (http_replies w).
  destruct (http_replies w) as [|[d|e'] rest].
  - repeat post_step. spinner_done.
  - unfold modify.
    match goal with |- context [connectToWorkflow c ?w0] => set (w4 := w0) end.
    simpl in Hname. apply negb_true_iff in Hname.
    assert (Hs4 : session_of w4 = Some (session_id d)).
    { unfold session_of; simpl. destruct (session_id d) as [|a s]; [|reflexivity].
      discriminate Hname. }
    intros Hret.
    assert (Hret4 : fst (connectToWorkflow c w4) = Returned tt).
    { destruct (connectToWorkflow_keeps_view c w4 _ eq_refl) as [Hn _].
      destruct (connectToWorkflow c w4) as [[[]|e0|] w5]; simpl in *;
        [reflexivity | now destruct (Hn e0) | discriminate]. }
    destruct (connectToWorkflow_spinner c _ _ w4 Hs4 eq_refl Hret4)
      as (extra & Hshown & Hlast).
    destruct (connectToWorkflow c w4) as [[[]|e0|] w5]; simpl in *;
      try discriminate.
    rewrite Hshown. now apply spinner_off_after.
  - repeat post_step. spinner_done.
Qed.

(** X8: when the handler of a user message returns, the spinner is off.
    Provided the backend does not answer the start with an empty session
    id, every way [handleUserMessage] can return (no workspace folder, a
    start that fails, a review that is required, a workflow that completes,
    an error on the socket) ends with [setThinking false] as the last word
    on the spinner. *)
Theorem spinner_off_when_message_handled (message : string) (v : WebviewView)
    (w : World) :
  _view w = Some v ->
  Observations.names_session (http_replies w) = true ->
  fst (handleUserMessage c message w) = Returned tt ->
  Observations.last_thinking
    (Observations.shown (snd (handleUserMessage c message w))) = Some false.
Proof. apply handled_message_spinner. Qed.

(** X9: an empty session id leaves the spinner on.  When the backend
    answers the start with [session_id] empty, the sidebar keeps the empty
    id, [connectToWorkflow] returns at once without asking for a socket,
    and [handleUserMessage] returns with the spinner still shown and no
    error reported. *)
Theorem empty_session_id_leaves_spinner (message : string) (v : WebviewView)
    (w : World) (folder : WorkspaceFolder) (others : list WorkspaceFolder)
    (data : WorkflowSession) (rest : list HttpReply) :
  _view w = Some v ->
  workspaceFolders w = Some (folder :: others) ->
  http_replies w = Response data :: rest ->
  session_id data = "" ->
  let w' := snd (handleUserMessage c message w) in
  fst (handleUserMessage c message w) = Returned tt /\
  Observations.shown w' =
    posted v ++ [addMessage "user" message; setThinking true] /\
  Observations.last_thinking (Observations.shown w') = Some true /\
  sockets w' = sockets w /\
  currentSessionId w' = Some "".
Proof.
  intros Hv Hf Hr Hid. unfold handleUserMessage, bind, get_world.
  rewrite Hv. repeat post_step. unfold try_catch, first_folder.
  match goal with
  | |- context [workspaceFolders ?w0] =>
      change (workspaceFolders w0) with (workspaceFolders w)
  end.
  rewrite Hf, startWorkflow_result.
  match goal with
  | |- context [http_replies ?w0] =>
      change (http_replies w0) with (http_replies w)
  end.
  rewrite Hr. unfold modify.
  match goal with |- context [connectToWorkflow c ?w0] => set (w4 := w0) end.
  assert (Hs4 : session_of w4 = None)
    by (unfold session_of; simpl; now rewrite Hid).
  rewrite (connectToWorkflow_skips c w4 (or_introl Hs4)). simpl.
  unfold Observations.shown; simpl. rewrite Hid, <- !app_assoc. simpl.
  repeat split. rewrite last_thinking_app. reflexivity.
Qed.

(** X10: when the handler of a review returns, the spinner is off.  With a
    session and a view, every way [handleReviewSubmission] can return (an
    approval, a revision whose workflow pauses again, completes or fails, a
    review that cannot be submitted) ends with [setThinking false] as the
    last word on the spinner. *)
Theorem spinner_off_when_review_handled (feedback : string) (action : Action)
    (sessionId : string) (v : WebviewView) (w : World) :
  session_of w = Some sessionId ->
  _view w = Some v ->
  fst (handleReviewSubmission c feedback action w) = Returned tt ->
  Observations.last_thinking
    (Observations.shown (snd (handleReviewSubmission c feedback action w))) =
  Some false.
Proof.
  intros Hs Hv. unfold handleReviewSubmission, bind, get_world.
  rewrite Hs, Hv. unfold try_catch. rewrite submitReview_result.
  set (w1 := set_http _ _ w).
  assert (Hv1 : _view w1 = Some v) by exact Hv.
  assert (Hs1 : session_of w1 = Some sessionId) by exact Hs.
  destruct (http_replies w) as [|[d|e'] rest]; cbv beta iota.
  - repeat post_step. spinner_done.
  - destruct action.
    + repeat post_step. spinner_done.
    + repeat post_step.
      match goal with |- context [connectToWorkflow c ?w0] => set (w4 := w0) end.
      intros Hret.
      assert (Hret4 : fst (connectToWorkflow c w4) = Returned tt).
      { destruct (connectToWorkflow_keeps_view c w4 _ eq_refl) as [Hn _].
        destruct (connectToWorkflow c w4) as [[[]|e0|] w5]; simpl in *;
          [reflexivity | now destruct (Hn e0) | discriminate]. }
      destruct (connectToWorkflow_spinner c _ _ w4 Hs1 eq_refl Hret4)
        as (extra & Hshown & Hlast).
      destruct (connectToWorkflow c w4) as [[[]|e0|] w5]; simpl in *;
        try discriminate.
      rewrite Hshown. now apply spinner_off_after.
  - repeat post_step. spinner_done.
Qed.

End SpinnerEnds.

Lemma spinner_off_when_message_handled_witness :
  Observations.last_thinking
    (Observations.shown
       (snd (SidebarProvider.handleUserMessage Samples.client
               "create anagram checker" Samples.idle))) = Some false.
Proof.
  apply (spinner_off_when_message_handled Samples.client
           "create anagram checker" (mkView []) Samples.idle); reflexivity.
Defined.

Lemma empty_session_id_leaves_spinner_witness :
  Observations.last_thinking
    (Observations.shown
       (snd (SidebarProvider.handleUserMessage Samples.client
               "create anagram checker" Cases.nameless))) = Some true /\
  sockets
    (snd (SidebarProvider.handleUserMessage Samples.client
            "create anagram checker" Cases.nameless)) = [].
Proof.
  pose proof (empty_session_id_leaves_spinner Samples.client
                "create anagram checker" (mkView []) Cases.nameless
                (mkFolder "/home/dev/anagram") []
                (mkSession "" "running" "Workflow started") []
                eq_refl eq_refl eq_refl eq_refl) as H.
  split; apply H.
Defined.

Lemma spinner_off_when_review_handled_witness :
  Observations.last_thinking
    (Observations.shown
       (snd (SidebarProvider.handleReviewSubmission Samples.client
               "add type hints" SidebarProvider.revise Samples.in_review))) =
  Some false.
Proof.
  apply (spinner_off_when_review_handled Samples.client "add type hints"
           SidebarProvider.revise "s-1" (mkView []) Samples.in_review);
    reflexivity.
Defined.

(** ** [trim] *)

Section Trim.

(** Induction on strings that may step over a whole code point. *)
Lemma string_length_ind (P : string -> Prop) :
  (forall s, (forall r, (String.length r < String.length s)%nat -> P r) -> P s) ->
  forall s, P s.
Proof.
  intros H s.
  assert (Hn : forall n r, (String.length r < n)%nat -> P r).
  { induction n as [|n IH]; intros r Hr; [lia|].
    apply H. intros r' Hr'. apply IH. lia. }
  apply (Hn (S (String.length s))). lia.
Qed.

Lemma leading_space_shorter (s rest : string) :
  leading_space s = Some rest -> (String.length rest < String.length s)%nat.
Proof.
  destruct s as [|a [|b [|c r3]]]; simpl; try discriminate.
  - destruct (is_space a); [|discriminate]. intros [= <-]. simpl. lia.
  - destruct (is_space a); [intros [= <-]; simpl; lia|].
    destruct (is_space2 a b); [|discriminate]. intros [= <-]. simpl. lia.
  - destruct (is_space a); [intros [= <-]; simpl; lia|].
    destruct (is_space2 a b); [intros [= <-]; simpl; lia|].
    destruct (is_space3 a b c); [|discriminate]. intros [= <-]. simpl. lia.
Qed.

Lemma trim_start_step (s : string) :
  trim_start s =
  match leading_space s with
  | Some rest => trim_start rest
  | None => s
  end.
Proof.
  destruct s as [|a [|b [|c r3]]]; simpl; try reflexivity.
  - destruct (is_space a); reflexivity.
  - destruct (is_space a); [reflexivity|]. destruct (is_space2 a b); reflexivity.
  - destruct (is_space a); [reflexivity|].
    destruct (is_space2 a b); [reflexivity|].
    destruct (is_space3 a b c); reflexivity.
Qed.

Lemma blank_step (s : string) :
  Observations.blank s =
  match leading_space s with
  | Some rest => Observations.blank rest
  | None => String.eqb s ""
  end.
Proof.
  destruct s as [|a [|b [|c r3]]]; simpl; try reflexivity.
  - destruct (is_space a); reflexivity.
  - destruct (is_space a); [reflexivity|]. destruct (is_space2 a b); reflexivity.
  - destruct (is_space a); [reflexivity|].
    destruct (is_space2 a b); [reflexivity|].
    destruct (is_space3 a b c); reflexivity.
Qed.

(** A code point of white space in front of [w] is what [leading_space]
    finds. *)
Lemma leading_space_split (s rest : string) :
  leading_space s = Some rest ->
  exists e, s = (e ++ rest)%string /\ Observations.space_code e = true.
Proof.
  destruct s as [|a [|b [|c r3]]]; simpl; try discriminate.
  - destruct (is_space a) eqn:E; [|discriminate]. intros [= <-].
    exists (String a ""). split; [reflexivity | exact E].
  - destruct (is_space a) eqn:E.
    + intros [= <-]. exists (String a ""). split; [reflexivity | exact E].
    + destruct (is_space2 a b) eqn:E2; [|discriminate]. intros [= <-].
      exists (String a (String b "")). split; [reflexivity | exact E2].
  - destruct (is_space a) eqn:E.
    + intros [= <-]. exists (String a ""). split; [reflexivity | exact E].
    + destruct (is_space2 a b) eqn:E2.
      * intros [= <-]. exists (String a (String b "")).
        split; [reflexivity | exact E2].
      * destruct (is_space3 a b c) eqn:E3; [|discriminate]. intros [= <-].
        exists (String a (String b (String c ""))).
        split; [reflexivity | exact E3].
Qed.

(** The first bytes of the code points of two and three bytes are not
    white space themselves. *)
Lemma is_space2_lead (a b : ascii) : is_space2 a b = true -> is_space a = false.
Proof.
  unfold is_space2, is_space. intros H.
  apply andb_true_iff in H as [H _]. apply Nat.eqb_eq in H. rewrite H.
  reflexivity.
Qed.

Lemma is_space3_lead (a b c : ascii) :
  is_space3 a b c = true -> is_space a = false /\ is_space2 a b = false.
Proof.
  unfold is_space3, is_space2, is_space. intros H.
  destruct (Nat.eqb_spec (nat_of_ascii a) 225) as [->|]; [split; reflexivity|].
  destruct (Nat.eqb_spec (nat_of_ascii a) 226) as [->|]; [split; reflexivity|].
  destruct (Nat.eqb_spec (nat_of_ascii a) 227) as [->|]; [split; reflexivity|].
  destruct (Nat.eqb_spec (nat_of_ascii a) 239) as [->|]; [split; reflexivity|].
  discriminate H.
Qed.

Lemma leading_space_code (e w : string) :
  Observations.space_code e = true -> leading_space (e ++ w) = Some w.
Proof.
  destruct e as [|a [|b [|c [|d e]]]]; simpl; try discriminate.
  - intros H. destruct w; simpl; now rewrite H.
  - intros H. rewrite (is_space2_lead a b H).
    destruct w; simpl; now rewrite H.
  - intros H. destruct (is_space3_lead a b c H) as [H1 H2].
    rewrite H1, H2. now rewrite H.
Qed.

(** What starts with a white-space code point still does so when
    something is put after it. *)
Lemma append_assoc (a b c : string) :
  ((a ++ b) ++ c)%string = (a ++ (b ++ c))%string.
Proof.
  induction a as [|x a IH]; [reflexivity|].
  change (String x ((a ++ b) ++ c)%string = String x (a ++ (b ++ c))%string).
  now rewrite IH.
Qed.

Lemma leading_space_app (p rest w : string) :
  leading_space p = Some rest ->
  leading_space (p ++ w) = Some (rest ++ w)%string.
Proof.
  intros H. destruct (leading_space_split p rest H) as (e & -> & He).
  rewrite append_assoc. apply (leading_space_code e _ He).
Qed.

Lemma trim_start_split (s : string) :
  exists pre, s = (pre ++ trim_start s)%string /\
              Observations.blank pre = true /\
              Observations.starts_clean (trim_start s) = true.
Proof.
  induction s as [s IH] using string_length_ind.
  rewrite trim_start_step. unfold Observations.starts_clean.
  destruct (leading_space s) as [rest|] eqn:E.
  - destruct (IH rest (leading_space_shorter s rest E)) as (pre & Hs & Hb & Hc).
    destruct (leading_space_split s rest E) as (e & -> & He).
    exists (e ++ pre)%string. split; [|split; [|exact Hc]].
    + rewrite Hs at 1. symmetry. apply append_assoc.
    + rewrite blank_step, (leading_space_code e pre He). exact Hb.
  - exists ""%string. rewrite E. repeat split.
Qed.

Lemma blank_trim_start (s : string) :
  Observations.blank s = String.eqb (trim_start s) "".
Proof.
  induction s as [s IH] using string_length_ind.
  rewrite blank_step, trim_start_step.
  destruct (leading_space s) as [rest|] eqn:E; [|reflexivity].
  apply IH, (leading_space_shorter s rest E).
Qed.

Lemma trim_start_clean (s : string) :
  Observations.starts_clean s = true -> trim_start s = s.
Proof.
  unfold Observations.starts_clean. rewrite trim_start_step.
  destruct (leading_space s); [discriminate | reflexivity].
Qed.

Lemma blank_app (a b : string) :
  Observations.blank a = true ->
  Observations.blank (a ++ b) = Observations.blank b.
Proof.
  induction a as [a IH] using string_length_ind. intros Ha.
  rewrite blank_step in Ha.
  destruct (leading_space a) as [rest|] eqn:E.
  - rewrite blank_step, (leading_space_app a rest b E).
    apply IH; [apply (leading_space_shorter a rest E) | exact Ha].
  - apply String.eqb_eq in Ha. now subst a.
Qed.

Lemma trim_end_split (s : string) :
  exists post, s = (trim_end s ++ post)%string /\
               Observations.blank post = true /\
               Observations.ends_clean (trim_end s) = true /\
               (Observations.starts_clean s = true ->
                Observations.starts_clean (trim_end s) = true).
Proof.
  induction s as [|c s (post & Hs & Hb & Hc & Hst)].
  - exists ""%string. repeat split.
  - pose proof (blank_trim_start (String c s)) as Hbl.
    change (trim_end (String c s))
      with (match trim_start (String c s) with
            | EmptyString => EmptyString
            | _ => String c (trim_end s)
            end).
    destruct (trim_start (String c s)) as [|d kept] eqn:E.
    + exists (String c s). repeat split. exact Hbl.
    + exists post. split; [|split; [exact Hb|split]].
      * change (String c s = String c (trim_end s ++ post)). now rewrite <- Hs.
      * change (negb (Observations.space_code (String c (trim_end s))) &&
                Observations.ends_clean (trim_end s) = true).
        rewrite Hc, andb_true_r. apply negb_true_iff.
        destruct (Observations.space_code (String c (trim_end s))) eqn:Ecode;
          [|reflexivity].
        exfalso.
        assert (Hall : Observations.blank (String c s) = true).
        { rewrite Hs.
          change (Observations.blank ((String c (trim_end s)) ++ post) = true).
          rewrite blank_step, (leading_space_code _ post Ecode). exact Hb. }
        rewrite Hall in Hbl. discriminate Hbl.
      * unfold Observations.starts_clean. intros Hclean.
        destruct (leading_space (String c (trim_end s))) as [rest|] eqn:El;
          [|reflexivity].
        apply (leading_space_app _ _ post) in El.
        change ((String c (trim_end s) ++ post)%string)
          with (String c (trim_end s ++ post)) in El.
        rewrite <- Hs in El. now rewrite El in Hclean.
Qed.

(** [trim] cuts white space off both ends and nothing else.  Every string
    is a run of white space, its trimmed text, and a run of white space;
    the trimmed text neither starts nor ends with a white-space code point;
    and it is empty exactly when the string is blank. *)
Lemma trim_cuts_both_ends (s : string) :
  (exists pre post,
     s = (pre ++ trim s ++ post)%string /\
     Observations.blank pre = true /\ Observations.blank post = true) /\
  Observations.starts_clean (trim s) = true /\
  Observations.ends_clean (trim s) = true /\
  (String.eqb (trim s) "" = Observations.blank s).
Proof.
  unfold trim.
  destruct (trim_start_split s) as (pre & Hs & Hpre & Hc).
  destruct (trim_end_split (trim_start s)) as (post & Ht & Hpost & He & Hst).
  specialize (Hst Hc).
  split; [|split; [exact Hst|split; [exact He|]]].
  - exists pre, post. split; [|auto]. now rewrite <- Ht.
  - rewrite (blank_trim_start s).
    destruct (trim_start s) as [|d kept] eqn:E; [reflexivity|].
    change (trim_end (String d kept))
      with (match trim_start (String d kept) with
            | EmptyString => EmptyString
            | _ => String d (trim_end kept)
            end).
    rewrite (trim_start_clean _ Hc). reflexivity.
Qed.

End Trim.

(** ** The page of the webview *)

Section Page.

(** The progress list is the only thing [plan.forEach] writes. *)
Lemma each_step_frame (currentStep : JsValue) (steps : list JsValue)
    (index : nat) (p : Webview.Page) :
  let p' := snd (Webview.each_step currentStep index steps p) in
  Webview.isThinking p' = Webview.isThinking p /\
  Webview.thinking_active p' = Webview.thinking_active p /\
  Webview.sendButton_disabled p' = Webview.sendButton_disabled p /\
  Webview.messages p' = Webview.messages p /\
  Webview.empty_state p' = Webview.empty_state p /\
  Webview.messageInput p' = Webview.messageInput p /\
  Webview.currentPlan p' = Webview.currentPlan p /\
  Webview.progress_active p' = Webview.progress_active p.
Proof.
  revert index p. induction steps as [|step steps IH]; intros index p; simpl;
    [repeat split|].
  destruct (Webview.instruction_of step index); [|repeat split].
  destruct (Webview.class_of index currentStep); [|repeat split].
  apply (IH (S index) (Webview.append_step _ p)).
Qed.

Lemma updateProgressList_frame (currentStep plan : JsValue) (p : Webview.Page) :
  let p' := snd (Webview.updateProgressList currentStep plan p) in
  Webview.isThinking p' = Webview.isThinking p /\
  Webview.thinking_active p' = Webview.thinking_active p /\
  Webview.sendButton_disabled p' = Webview.sendButton_disabled p /\
  Webview.messages p' = Webview.messages p /\
  Webview.empty_state p' = Webview.empty_state p /\
  Webview.messageInput p' = Webview.messageInput p.
Proof.
  unfold Webview.updateProgressList.
  destruct (negb (Webview.truthy plan)); [repeat split|].
  destruct (Webview.js_length plan) as [len|]; [|repeat split].
  destruct (Webview.strict_zero len); [repeat split|].
  destruct plan; try (repeat split; fail).
  pose proof (each_step_frame currentStep items 0
                (Webview.begin_plan (JsArr items) p)) as H.
  destruct (Webview.each_step currentStep 0 items
              (Webview.begin_plan (JsArr items) p)) as [[| |] p1];
    simpl in *; tauto.
Qed.

Ltac page_done :=
  first [ reflexivity
        | symmetry; apply app_nil_r
        | symmetry; apply andb_true_r
        | symmetry; apply andb_false_r
        | congruence ].

(** What one message does to the spinner, the send button and the chat. *)
Lemma on_message_page (m : ViewMessage) (p : Webview.Page) :
  let p' := snd (Webview.on_message m p) in
  let t := match m with
           | setThinking t => Some t
           | _ => None
           end in
  Webview.isThinking p' = default (Webview.isThinking p) t /\
  Webview.thinking_active p' = default (Webview.thinking_active p) t /\
  Webview.sendButton_disabled p' = default (Webview.sendButton_disabled p) t /\
  (fst (Webview.on_message m p) <> Webview.Not_modelled ->
   Webview.messages p' = Webview.messages p ++ Observations.chat_of m /\
   Webview.empty_state p' =
     Webview.empty_state p &&
     match Observations.chat_of m with [] => true | _ => false end).
Proof.
  destruct m as [role content|t|message|step plan agent|plan files|files];
    simpl.
  - repeat split; page_done.
  - repeat split; page_done.
  - repeat split; page_done.
  - destruct (updateProgressList_frame step plan p)
      as (H1 & H2 & H3 & H4 & H5 & _).
    repeat split; auto; [rewrite H4 | rewrite H5]; page_done.
  - destruct files; simpl; (repeat split; page_done).
  - destruct (Webview.js_length files) as [len|]; simpl;
      [|repeat split; page_done].
    destruct (Webview.printed len) as [n|]; simpl;
      [|repeat split; page_done].
    destruct (Webview.js_length (Webview.currentPlan p)) as [len1|]; simpl;
      [|repeat split; page_done].
    destruct (Webview.positive len1) as [[|]|]; simpl;
      [|repeat split; page_done | repeat split; page_done].
    match goal with
    | |- context [Webview.updateProgressList ?a ?b ?q] =>
        destruct (updateProgressList_frame a b q)
          as (H1 & H2 & H3 & H4 & H5 & _)
    end.
    repeat split; auto. rewrite H5. page_done.
Qed.

Lemma render_page (l : list ViewMessage) (p p' : Webview.Page) :
  Webview.render l p = Some p' ->
  let t := Observations.last_thinking l in
  Webview.isThinking p' = default (Webview.isThinking p) t /\
  Webview.thinking_active p' = default (Webview.thinking_active p) t /\
  Webview.sendButton_disabled p' = default (Webview.sendButton_disabled p) t /\
  Webview.messages p' =
    Webview.messages p ++ flat_map Observations.chat_of l /\
  Webview.empty_state p' =
    Webview.empty_state p &&
    match flat_map Observations.chat_of l with [] => true | _ => false end.
Proof.
  revert p. induction l as [|m l IH]; intros p H; simpl in H.
  - injection H as <-. simpl. rewrite app_nil_r, andb_true_r. repeat split.
  - pose proof (on_message_page m p) as Hm.
    destruct (Webview.on_message m p) as [e p1] eqn:E. simpl in Hm.
    destruct Hm as (H1 & H2 & H3 & H4).
    assert (He : e <> Webview.Not_modelled)
      by (intros ->; discriminate H).
    destruct (H4 He) as [H5 H6].
    assert (Hr : Webview.render l p1 = Some p') by (destruct e; congruence).
    destruct (IH p1 Hr) as (I1 & I2 & I3 & I4 & I5).
    unfold Observations.last_thinking. simpl fold_left.
    rewrite last_thinking_from.
    simpl flat_map.
    rewrite I1, I2, I3, I4, I5, H1, H2, H3, H5, H6, <- app_assoc.
    repeat split;
      try (destruct (Observations.last_thinking l), m; reflexivity).
    rewrite <- andb_assoc. f_equal.
    destruct (Observations.chat_of m); [reflexivity | now destruct (flat_map _ l)].
Qed.

End Page.

Section Progress.

Lemma instruction_of_defined (step : JsValue) (index : nat) :
  step <> JsNull -> step <> JsUndefined ->
  exists text, Webview.instruction_of step index = Some text.
Proof.
  intros H1 H2. unfold Webview.instruction_of.
  destruct step; try congruence; simpl;
    repeat match goal with
    | |- context [if ?b then _ else _] => destruct b
    end; eauto.
Qed.

Lemma class_of_number (k : Z) (index : nat) :
  Webview.class_of index (JsNum k) = Some (Observations.class_at k index).
Proof.
  unfold Webview.class_of, Observations.class_at; simpl.
  destruct (Z.of_nat index <? k)%Z; reflexivity.
Qed.

Lemma each_step_classes (k : Z) (steps : list JsValue) (index : nat)
    (p : Webview.Page) :
  Forall (fun step => step <> JsNull /\ step <> JsUndefined) steps ->
  fst (Webview.each_step (JsNum k) index steps p) = Webview.Finished /\
  exists ds,
    Webview.progressSteps (snd (Webview.each_step (JsNum k) index steps p)) =
      Webview.progressSteps p ++ ds /\
    List.length ds = List.length steps /\
    forall j d, ds !! j = Some d ->
      Webview.step_class d = Observations.class_at k (index + j).
Proof.
  revert index p. induction steps as [|step steps IH]; intros index p Hall.
  - simpl. split; [reflexivity|]. exists []. rewrite app_nil_r.
    repeat split. intros j d H. discriminate H.
  - inversion Hall as [|? ? [H1 H2] Hrest]; subst. simpl.
    destruct (instruction_of_defined step index H1 H2) as [text ->].
    rewrite class_of_number.
    destruct (IH (S index)
                (Webview.append_step
                   (Webview.mkStepDiv (Observations.class_at k index) text) p)
                Hrest) as (Hf & ds & Hds & Hlen & Hcls).
    split; [exact Hf|].
    exists (Webview.mkStepDiv (Observations.class_at k index) text :: ds).
    rewrite Hds. simpl. rewrite <- app_assoc. split; [reflexivity|].
    split; [now rewrite Hlen|].
    intros [|j] d Hj; simpl in Hj.
    + injection Hj as <-. simpl. now rewrite Nat.add_0_r.
    + rewrite (Hcls j d Hj). f_equal. lia.
Qed.

(** X11: the progress list shows where the plan stands.  For a plan that
    is a non-empty array of steps and a numeric current step [k], a
    [stepUpdate] message makes the page keep the plan, show the list, and
    give it one entry for each step: [completed] before index [k],
    [current] at index [k], neither after it. *)
Theorem progress_list_classes (k : Z) (steps : list JsValue) (agent : JsValue)
    (p : Webview.Page) :
  Forall (fun step => step <> JsNull /\ step <> JsUndefined) steps ->
  steps <> [] ->
  let r := Webview.on_message (stepUpdate (JsNum k) (JsArr steps) agent) p in
  fst r = Webview.Finished /\
  Webview.progress_active (snd r) = true /\
  Webview.currentPlan (snd r) = JsArr steps /\
  List.length (Webview.progressSteps (snd r)) = List.length steps /\
  forall i d, Webview.progressSteps (snd r) !! i = Some d ->
    Webview.step_class d = Observations.class_at k i.
Proof.
  intros Hall Hne. simpl. unfold Webview.updateProgressList. simpl.
  assert (Hz : (Z.of_nat (List.length steps) =? 0)%Z = false)
    by (destruct steps; [congruence | reflexivity]).
  rewrite Hz.
  destruct (each_step_classes k steps 0
              (Webview.begin_plan (JsArr steps) p) Hall)
    as (Hf & ds & Hds & Hlen & Hcls).
  pose proof (each_step_frame (JsNum k) steps 0
                (Webview.begin_plan (JsArr steps) p))
    as (_ & _ & _ & _ & _ & _ & Hplan & _).
  destruct (Webview.each_step (JsNum k) 0 steps
              (Webview.begin_plan (JsArr steps) p)) as [e p1].
  simpl in *. subst e. simpl. rewrite Hds. simpl.
  repeat split; auto.
Qed.

Lemma progress_list_classes_witness :
  Webview.progress_active
    (snd (Webview.on_message
            (stepUpdate (JsNum 1) (JsArr Cases.three_steps) (JsStr "code"))
            Webview.loaded)) = true /\
  List.length
    (Webview.progressSteps
       (snd (Webview.on_message
               (stepUpdate (JsNum 1) (JsArr Cases.three_steps) (JsStr "code"))
               Webview.loaded))) = 3.
Proof.
  destruct (progress_list_classes 1 Cases.three_steps (JsStr "code")
              Webview.loaded) as (_ & Ha & _ & Hl & _).
  - repeat constructor; discriminate.
  - discriminate.
  - split; [exact Ha | exact Hl].
Defined.

(** X12: a completed workflow ticks every step.  When the page holds a
    plan (a non-empty array of steps) and [workflowComplete] arrives with
    an array of files, one line is added to the chat with the number of
    files, and the progress list is drawn again with every step
    [completed]. *)
Theorem completion_ticks_every_step (steps files : list JsValue)
    (p : Webview.Page) :
  Webview.currentPlan p = JsArr steps ->
  Forall (fun step => step <> JsNull /\ step <> JsUndefined) steps ->
  steps <> [] ->
  (Z.of_nat (List.length files) < 2 ^ 32)%Z ->
  let r := Webview.on_message (workflowComplete (JsArr files)) p in
  fst r = Webview.Finished /\
  Webview.messages (snd r) =
    Webview.messages p ++
    [Webview.mkMessageDiv "assistant" "Agentic IDE"
       (Webview.complete_prefix ++ pretty (Z.of_nat (List.length files)) ++
        Webview.complete_suffix)%string] /\
  List.length (Webview.progressSteps (snd r)) = List.length steps /\
  Forall (fun d => Webview.step_class d = Webview.Completed)
         (Webview.progressSteps (snd r)).
Proof.
  intros Hplan Hall Hne Hfiles. simpl.
  assert (Hp : (Z.abs (Z.of_nat (List.length files)) <? 10 ^ 21)%Z = true).
  { apply Z.ltb_lt. rewrite Z.abs_eq by lia.
    eapply Z.lt_trans; [exact Hfiles|]. reflexivity. }
  rewrite Hp. simpl. rewrite Hplan. simpl.
  assert (Hpos : (0 <? Z.of_nat (List.length steps))%Z = true)
    by (destruct steps; [congruence | reflexivity]).
  rewrite Hpos.
  unfold Webview.updateProgressList. simpl.
  assert (Hz : (Z.of_nat (List.length steps) =? 0)%Z = false)
    by (destruct steps; [congruence | reflexivity]).
  rewrite Hz.
  match goal with
  | |- context [Webview.each_step ?cs 0 steps ?q] =>
      destruct (each_step_classes (Z.of_nat (List.length steps)) steps 0 q Hall)
        as (Hf & ds & Hds & Hlen & Hcls);
      pose proof (each_step_frame cs steps 0 q)
        as (_ & _ & _ & Hmsg & _);
      destruct (Webview.each_step cs 0 steps q) as [e p1]
  end.
  simpl in *. subst e. simpl. rewrite Hmsg, Hds. simpl.
  repeat split; auto.
  apply Forall_lookup. intros i d Hi. rewrite (Hcls i d Hi).
  unfold Observations.class_at.
  apply lookup_lt_Some in Hi. rewrite Hlen in Hi.
  destruct (Z.ltb_spec (Z.of_nat i) (Z.of_nat (List.length steps)));
    [reflexivity | lia].
Qed.

Lemma completion_ticks_every_step_witness :
  Forall (fun d => Webview.step_class d = Webview.Completed)
    (Webview.progressSteps
       (snd (Webview.on_message
               (workflowComplete (JsArr [JsStr "string_utils.py"]))
               Cases.planned))).
Proof.
  apply (completion_ticks_every_step Cases.three_steps
           [JsStr "string_utils.py"] Cases.planned).
  - reflexivity.
  - repeat constructor; discriminate.
  - discriminate.
  - reflexivity.
Defined.

End Progress.

(** A step that is [null] stops the drawing of the list. *)
Section BrokenPlan.

Lemma each_step_stops (k : Z) (good rest : list JsValue) (bad : JsValue)
    (index : nat) (p : Webview.Page) :
  Forall (fun step => step <> JsNull /\ step <> JsUndefined) good ->
  bad = JsNull \/ bad = JsUndefined ->
  fst (Webview.each_step (JsNum k) index (good ++ bad :: rest) p) =
    Webview.Threw /\
  exists ds,
    Webview.progressSteps
      (snd (Webview.each_step (JsNum k) index (good ++ bad :: rest) p)) =
      Webview.progressSteps p ++ ds /\
    List.length ds = List.length good.
Proof.
  revert index p. induction good as [|step good IH]; intros index p Hall Hbad.
  - simpl.
    destruct Hbad as [-> | ->]; simpl;
      (split; [reflexivity | exists []; now rewrite app_nil_r]).
  - inversion Hall as [|? ? [H1 H2] Hrest]; subst. simpl.
    destruct (instruction_of_defined step index H1 H2) as [text ->].
    rewrite class_of_number.
    destruct (IH (S index)
                (Webview.append_step
                   (Webview.mkStepDiv (Observations.class_at k index) text) p)
                Hrest Hbad) as (Hf & ds & Hds & Hlen).
    split; [exact Hf|].
    exists (Webview.mkStepDiv (Observations.class_at k index) text :: ds).
    rewrite Hds. simpl. rewrite <- app_assoc. split; [reflexivity|].
    now rewrite Hlen.
Qed.

(** X13: a step that is [null] stops the drawing of the progress list.
    When the plan of a [stepUpdate] is an array whose first [null] step
    comes after the steps [good], the listener throws at that step: the
    plan is kept and the old entries are gone, exactly the steps before the
    [null] one are drawn, and the list is neither shown nor hidden (it
    stays as it was); the spinner, the send button and the chat are not
    touched. *)
Theorem null_step_stops_the_list (k : Z) (good rest : list JsValue)
    (agent : JsValue) (p : Webview.Page) :
  Forall (fun step => step <> JsNull /\ step <> JsUndefined) good ->
  let plan := JsArr (good ++ JsNull :: rest) in
  let r := Webview.on_message (stepUpdate (JsNum k) plan agent) p in
  fst r = Webview.Threw /\
  Webview.currentPlan (snd r) = plan /\
  List.length (Webview.progressSteps (snd r)) = List.length good /\
  (forall i d, Webview.progressSteps (snd r) !! i = Some d ->
     Webview.step_class d = Observations.class_at k i) /\
  Webview.progress_active (snd r) = Webview.progress_active p /\
  Webview.isThinking (snd r) = Webview.isThinking p /\
  Webview.sendButton_disabled (snd r) = Webview.sendButton_disabled p /\
  Webview.messages (snd r) = Webview.messages p.
Proof.
  intros Hall plan. simpl. unfold Webview.updateProgressList. simpl.
  assert (Hz : (Z.of_nat (List.length (good ++ JsNull :: rest)) =? 0)%Z = false).
  { rewrite length_app. simpl. apply Z.eqb_neq. lia. }
  rewrite Hz.
  destruct (each_step_stops k good rest JsNull 0
              (Webview.begin_plan plan p) Hall (or_introl eq_refl))
    as (Hf & ds & Hds & Hlen).
  pose proof (each_step_frame (JsNum k) (good ++ JsNull :: rest) 0
                (Webview.begin_plan plan p))
    as (H1 & _ & H3 & H4 & _ & _ & Hplan & Hact).
  assert (Hcls : forall i d,
             Webview.progressSteps
               (snd (Webview.each_step (JsNum k) 0 (good ++ JsNull :: rest)
                       (Webview.begin_plan plan p))) !! i = Some d ->
             Webview.step_class d = Observations.class_at k i).
  { clear Hf Hds Hlen H1 H3 H4 Hplan Hact Hz.
    assert (Hgen : forall steps index q i d,
               (forall j e, Webview.progressSteps q !! j = Some e ->
                  Webview.step_class e = Observations.class_at k j) ->
               List.length (Webview.progressSteps q) = index ->
               Webview.progressSteps
                 (snd (Webview.each_step (JsNum k) index steps q)) !! i =
                 Some d ->
               Webview.step_class d = Observations.class_at k i).
    { induction steps as [|step steps IH]; intros index q i d Hq Hlen Hi;
        simpl in Hi; [eauto|].
      destruct (Webview.instruction_of step index) as [text|]; [|eauto].
      rewrite class_of_number in Hi.
      eapply (IH (S index)); [| |exact Hi].
      - intros j e Hj. simpl in Hj.
        apply lookup_app_Some in Hj as [Hj|[Hge Hj]]; [eauto|].
        rewrite Hlen in Hj, Hge.
        destruct (j - index)%nat as [|n] eqn:En; simpl in Hj; [|discriminate].
        injection Hj as <-. simpl. f_equal. lia.
      - simpl. rewrite length_app, Hlen. simpl. lia. }
    intros i d Hi. eapply Hgen; [| |exact Hi].
    - intros j e Hj. discriminate Hj.
    - reflexivity. }
  destruct (Webview.each_step (JsNum k) 0 (good ++ JsNull :: rest)
              (Webview.begin_plan plan p)) as [e p1].
  simpl in *. subst e. simpl. rewrite Hds. simpl.
  repeat split; auto. now rewrite <- Hds.
Qed.

End BrokenPlan.

Lemma null_step_stops_the_list_witness :
  Webview.progressSteps
    (snd (Webview.on_message
            (stepUpdate (JsNum 1)
               (JsArr [JsObj [("task", JsStr "write string_utils.py")];
                       JsNull; JsObj []])
               (JsStr "code"))
            Cases.planned)) !! 0%nat =
  Some (Webview.mkStepDiv Webview.Completed (JsStr "write string_utils.py")) /\
  List.length
    (Webview.progressSteps
       (snd (Webview.on_message
               (stepUpdate (JsNum 1)
                  (JsArr [JsObj [("task", JsStr "write string_utils.py")];
                          JsNull; JsObj []])
                  (JsStr "code"))
               Cases.planned))) = 1%nat.
Proof.
  split; [reflexivity|].
  apply (null_step_stops_the_list 1
           [JsObj [("task", JsStr "write string_utils.py")]] [JsObj []]
           (JsStr "code") Cases.planned).
  repeat constructor; discriminate.
Defined.

(** ** The send box and the spinner *)

Section Gate.





End Gate.


(** ** What a message of the webview can cause *)

Section Effects.

Import BackendClient SidebarProvider.

Variable c : BackendClient.t.

Lemma connectToWorkflow_effects (w : World) (v : WebviewView) :
  _view w = Some v ->
  let w' := snd (connectToWorkflow c w) in
  http_log w' = http_log w /\
  workspaceFolders w' = workspaceFolders w /\
  (exists urls, sockets w' = sockets w ++ urls /\ (List.length urls <= 1)%nat) /\
  (exists extra, Observations.shown w' = posted v ++ extra) /\
  forall e, fst (connectToWorkflow c w) <> Thrown e.
Proof.
  intros Hv. destruct (session_of w) as [sid|] eqn:Hs.
  - destruct (connectToWorkflow_world c sid v w Hs Hv) as [Ho Hn].
    destruct (only_posts_view _ _ v Ho Hv) as (v' & Hv' & extra & Hx).
    destruct Ho as (_ & H2 & H3 & _ & H5 & _).
    simpl. rewrite H2, H3, H5. repeat split; [| |exact Hn].
    + exists [wsUrl c sid]. split; [reflexivity | simpl; lia].
    + exists extra. unfold Observations.shown. now rewrite Hv'.
  - rewrite (connectToWorkflow_skips c w (or_introl Hs)). simpl.
    repeat split; [| |discriminate].
    + exists []. split; [now rewrite app_nil_r | simpl; lia].
    + exists []. unfold Observations.shown. now rewrite Hv, app_nil_r.
Qed.

Lemma handleUserMessage_effects (message : string) (v : WebviewView)
    (w : World) :
  _view w = Some v ->
  let w' := snd (handleUserMessage c message w) in
  (exists reqs urls, Observations.bounded_effects w w' reqs urls) /\
  exists extra,
    Observations.shown w' =
    posted v ++ addMessage "user" message :: setThinking true :: extra.
Proof.
  intros Hv. unfold Observations.bounded_effects, handleUserMessage, bind, get_world.
  rewrite Hv. repeat post_step. unfold try_catch.
  match goal with |- context [first_folder ?w0] => set (w2 := w0) end.
  destruct (first_folder w2) as [folder|].
  2:{ unfold throw. repeat post_step. simpl. split.
      - exists [], []. rewrite !app_nil_r. repeat split; auto; congruence.
      - eexists. unfold Observations.shown; simpl.
        rewrite <- !app_assoc. reflexivity. }
  rewrite startWorkflow_result.
  change (http_replies w2) with (http_replies w).
  destruct (http_replies w) as [|[d|e'] rest] eqn:Hr.
  - repeat post_step. simpl. split.
    + eexists [_], []. rewrite !app_nil_r. simpl.
      repeat split; auto; try congruence; try (repeat constructor; fail).
    + eexists. unfold Observations.shown; simpl.
      rewrite <- !app_assoc. reflexivity.
  - unfold modify.
    match goal with |- context [connectToWorkflow c ?w0] => set (w4 := w0) end.
    destruct (connectToWorkflow_effects w4 _ eq_refl)
      as (H1 & H2 & (urls & H3 & Hlen) & (extra & H4) & Hn).
    destruct (connectToWorkflow c w4) as [[[]|e0|] w5]; simpl in *;
      [| now destruct (Hn e0) |];
      (split;
       [ eexists [_], urls;
         repeat split;
           [ exact H1 | exact H3 | simpl; lia | simpl; lia
           | repeat constructor | eauto | exact H2 ]
       | exists extra; rewrite H4, <- !app_assoc; reflexivity ]).
  - repeat post_step. simpl. split.
    + eexists [_], []. rewrite !app_nil_r. simpl.
      repeat split; auto; try congruence; try (repeat constructor; fail).
    + eexists. unfold Observations.shown; simpl.
      rewrite <- !app_assoc. reflexivity.
Qed.

Lemma handleReviewSubmission_effects (feedback : string) (action : Action)
    (w : World) :
  let w' := snd (handleReviewSubmission c feedback action w) in
  (exists reqs urls, Observations.bounded_effects w w' reqs urls) /\
  exists extra, Observations.shown w' = Observations.shown w ++ extra.
Proof.
  assert (Hnone : (exists reqs urls, Observations.bounded_effects w w reqs urls) /\
                  exists extra,
                    Observations.shown w = Observations.shown w ++ extra).
  { split; [exists [], [] | exists []]; unfold Observations.bounded_effects;
      rewrite ?app_nil_r; repeat split; auto; congruence. }
  unfold handleReviewSubmission, bind, get_world.
  destruct (session_of w) as [sid|] eqn:Hs; [|exact Hnone].
  destruct (_view w) as [v|] eqn:Hv; [|exact Hnone].
  clear Hnone. unfold Observations.bounded_effects, try_catch. rewrite submitReview_result.
  set (w1 := set_http _ _ w).
  assert (Hv1 : _view w1 = Some v) by exact Hv.
  unfold Observations.shown at 2. rewrite Hv.
  destruct (http_replies w) as [|[d|e'] rest] eqn:Hr; cbv beta iota.
  - repeat post_step. simpl. split.
    + eexists [_], []. rewrite !app_nil_r. simpl.
      repeat split; auto; try congruence; try (repeat constructor; fail).
    + eexists. unfold Observations.shown; simpl.
      rewrite <- !app_assoc. reflexivity.
  - destruct action.
    + repeat post_step. simpl. split.
      * eexists [_], []. rewrite !app_nil_r. simpl.
        repeat split; auto; try congruence; try (repeat constructor; fail).
      * eexists. unfold Observations.shown; simpl.
        rewrite <- !app_assoc. reflexivity.
    + repeat post_step.
      match goal with |- context [connectToWorkflow c ?w0] => set (w4 := w0) end.
      destruct (connectToWorkflow_effects w4 _ eq_refl)
        as (H1 & H2 & (urls & H3 & Hlen) & (extra & H4) & Hn).
      destruct (connectToWorkflow c w4) as [[[]|e0|] w5]; simpl in *;
        [| now destruct (Hn e0) |];
        (split;
         [ eexists [_], urls;
           repeat split;
             [ exact H1 | exact H3 | simpl; lia | simpl; lia
             | repeat constructor | eauto | exact H2 ]
         | eexists; rewrite H4, <- !app_assoc; reflexivity ]).
  - repeat post_step. simpl. split.
    + eexists [_], []. rewrite !app_nil_r. simpl.
      repeat split; auto; try congruence; try (repeat constructor; fail).
    + eexists. unfold Observations.shown; simpl.
      rewrite <- !app_assoc. reflexivity.
Qed.

(** X15: a message of the webview costs at most one request and one socket.
    Whatever the webview sends and whatever the backend and the socket do,
    the listener of [onDidReceiveMessage] only adds to the requests sent,
    the sockets asked for and the messages posted; it sends at most one
    request, always a [POST] (the status of a workflow is never polled); it
    asks for at most one socket, and only when the backend has answered the
    request with a 2xx response; the workspace folders are not touched. *)
Theorem listener_effects_bounded (data : WebviewMessage) (w : World) :
  let w' := snd (onDidReceiveMessage c data w) in
  exists reqs urls extra,
    http_log w' = http_log w ++ reqs /\
    sockets w' = sockets w ++ urls /\
    Observations.shown w' = Observations.shown w ++ extra /\
    (List.length urls <= List.length reqs)%nat /\
    (List.length reqs <= 1)%nat /\
    Forall (fun r => req_method r = POST) reqs /\
    (urls <> [] -> exists d rest, http_replies w = Response d :: rest) /\
    workspaceFolders w' = workspaceFolders w.
Proof.
  destruct data as [message|feedback action|filePath]; simpl.
  - destruct (_view w) as [v|] eqn:Hv.
    + destruct (handleUserMessage_effects message v w Hv)
        as ((reqs & urls & H1 & H2 & H3 & H4 & H5 & H6 & H7) & extra & Hx).
      exists reqs, urls, (addMessage "user" message :: setThinking true :: extra).
      unfold Observations.shown at 2. rewrite Hv. repeat split; auto.
    + unfold handleUserMessage, bind, get_world. rewrite Hv. simpl.
      exists [], [], []. rewrite !app_nil_r. repeat split; auto; congruence.
  - destruct (handleReviewSubmission_effects feedback action w)
      as ((reqs & urls & H1 & H2 & H3 & H4 & H5 & H6 & H7) & extra & Hx).
    exists reqs, urls, extra. repeat split; auto.
  - exists [], [], []. rewrite !app_nil_r. repeat split; auto; congruence.
Qed.

(** X16: once a user message is handled, the page is ready for the next
    one.  Under the hypotheses of X8 (a view, a session id that is not
    empty, a handler that returns), when the page has handled what the
    handler posted, the spinner is hidden, the send button is enabled, the
    welcome text is gone, and the chat has the line of the user, labelled
    [You], right after what it had. *)
Theorem page_ready_when_message_handled (message : string) (v : WebviewView)
    (w : World) (p p' : Webview.Page) :
  _view w = Some v ->
  Observations.names_session (http_replies w) = true ->
  fst (handleUserMessage c message w) = Returned tt ->
  Webview.render
    (Observations.news w (snd (handleUserMessage c message w))) p = Some p' ->
  Webview.isThinking p' = false /\
  Webview.thinking_active p' = false /\
  Webview.sendButton_disabled p' = false /\
  Webview.empty_state p' = false /\
  exists later,
    Webview.messages p' =
    Webview.messages p ++ Webview.mkMessageDiv "user" "You" message :: later.
Proof.
  intros Hv Hname Hret.
  pose proof (handled_message_spinner c message v w Hv Hname Hret) as Hlast.
  destruct (handleUserMessage_effects message v w Hv) as (_ & extra & Hx).
  unfold Observations.news. rewrite Hx in *.
  unfold Observations.shown at 1. rewrite Hv, drop_app_length.
  rewrite last_thinking_app in Hlast.
  set (l := addMessage "user" message :: setThinking true :: extra) in *.
  assert (Hl : Observations.last_thinking l = Some false).
  { assert (Hsome : exists t, Observations.last_thinking l = Some t).
    { unfold l.
      change (addMessage "user" message :: setThinking true :: extra)
        with ([addMessage "user" message; setThinking true] ++ extra).
      rewrite last_thinking_app.
      destruct (Observations.last_thinking extra); eauto. }
    destruct Hsome as [t Ht]. rewrite Ht in Hlast. congruence. }
  intros Hr.
  destruct (render_page l p p' Hr) as (H1 & H2 & H3 & H4 & H5).
  rewrite Hl in H1, H2, H3. simpl in H1, H2, H3, H4, H5.
  repeat split; auto.
  - rewrite H5. apply andb_false_r.
  - eexists. exact H4.
Qed.

End Effects.

Lemma page_ready_when_message_handled_witness :
  exists p',
    Webview.render
      (Observations.shown
         (snd (SidebarProvider.handleUserMessage Samples.client
                 "create anagram checker" Samples.idle)))
      Webview.loaded = Some p' /\
    Webview.sendButton_disabled p' = false /\
    Webview.empty_state p' = false.
Proof.
  eexists. split; [vm_compute; reflexivity|].
  destruct (page_ready_when_message_handled Samples.client
              "create anagram checker" (mkView []) Samples.idle Webview.loaded
              _ eq_refl eq_refl eq_refl eq_refl) as (_ & _ & H3 & H4 & _).
  split; [exact H3 | exact H4].
Defined.

(** ** The review panel *)

Section ReviewPanel.

Import BackendClient SidebarProvider.

Variable c : BackendClient.t.

(** X17: a click in the review panel reaches the backend trimmed, and the
    panel does not wait for the answer.  With a session and a view, the
    message [submitReview] of the page posts makes the sidebar send one
    [POST] to [/workflow/review] whose feedback is the text of the box
    without the white space around it; the page has hidden the panel and
    emptied the box before the sidebar has done anything, and keeps the
    list of files. *)
Theorem review_click_reaches_backend (action : Action) (sessionId : string)
    (v : WebviewView) (w : World) (p : Webview.Page) :
  session_of w = Some sessionId ->
  _view w = Some v ->
  let click := Webview.submitReview action p in
  let w' := snd (onDidReceiveMessage c (fst click) w) in
  http_log w' =
    http_log w ++
    [mkRequest POST "/workflow/review"
       [("session_id", sessionId);
        ("feedback", trim (Webview.reviewFeedback p));
        ("action", action_text action)]] /\
  Observations.starts_clean (trim (Webview.reviewFeedback p)) = true /\
  Observations.ends_clean (trim (Webview.reviewFeedback p)) = true /\
  Webview.review_active (snd click) = false /\
  Webview.reviewFeedback (snd click) = "" /\
  Webview.reviewFiles (snd click) = Webview.reviewFiles p.
Proof.
  intros Hs Hv. simpl.
  destruct (handleReviewSubmission_network c
              (trim (Webview.reviewFeedback p)) action sessionId v w Hs Hv)
    as [Hlog _].
  destruct (trim_cuts_both_ends (Webview.reviewFeedback p))
    as (_ & H1 & H2 & _).
  repeat split; auto.
Qed.

(** X18: a review clicked while the sidebar has no session is lost without
    a word.  When the sidebar keeps no session id (or an empty one), or has
    no view, the message of the click makes the listener return at once:
    nothing is sent, nothing is posted, the world is as it was; yet the
    page has hidden the panel and emptied the feedback box. *)
Theorem review_click_without_session_lost (action : Action) (w : World)
    (p : Webview.Page) :
  session_of w = None \/ _view w = None ->
  let click := Webview.submitReview action p in
  onDidReceiveMessage c (fst click) w = (Returned tt, w) /\
  Webview.review_active (snd click) = false /\
  Webview.reviewFeedback (snd click) = "".
Proof.
  intros H. simpl. repeat split.
  unfold handleReviewSubmission, bind, get_world.
  destruct H as [-> | ->]; [reflexivity|].
  destruct (session_of w); reflexivity.
Qed.

End ReviewPanel.

Lemma review_click_reaches_backend_witness :
  http_log
    (snd (SidebarProvider.onDidReceiveMessage Samples.client
            (fst (Webview.submitReview SidebarProvider.revise
                    (Cases.reviewing
                       (Cases.nbsp ++ " add type hints " ++ Cases.nbsp)
                       Cases.planned)))
            Samples.in_review)) =
  [mkRequest POST "/workflow/review"
     [("session_id", "s-1"); ("feedback", "add type hints");
      ("action", "revise")]].
Proof.
  apply (review_click_reaches_backend Samples.client SidebarProvider.revise
           "s-1" (mkView []) Samples.in_review
           (Cases.reviewing (Cases.nbsp ++ " add type hints " ++ Cases.nbsp)
              Cases.planned));
    reflexivity.
Defined.

Lemma review_click_without_session_lost_witness :
  SidebarProvider.onDidReceiveMessage Samples.client
    (fst (Webview.submitReview SidebarProvider.approve
            (Cases.reviewing "looks good" Cases.planned)))
    Samples.idle = (Returned tt, Samples.idle).
Proof.
  apply (review_click_without_session_lost Samples.client
           SidebarProvider.approve Samples.idle
           (Cases.reviewing "looks good" Cases.planned)).
  left. reflexivity.
Defined.
